(** * Cloud cost optimizer: a shallow embedding of the validation,
      normalisation and post-processing code

    The development follows the four source files:
    - [llm_utils.py]          -> [Module LlmUtils]
    - [profile_generator.py]  -> [Module ProfileGenerator]
    - [billing_engine.py]     -> [Module BillingEngine]
    - [analyzer.py]           -> [Module Analyzer]

    Conventions of the embedding.

    - Python [int] is [Z]; Python [float] is idealised as an exact rational
      [Q] (rounding, infinities and NaN are outside the model).  The two
      are kept apart by the type [num], as Python keeps them apart.
    - Python [str] is [string]; [lower], [strip], [title] and the regular
      expressions act on ASCII letters, digits and white space.
    - A JSON object is a record with one optional field per key the code
      reads; a field holds a value of the JSON type the prompt's schema
      gives it.  Where the code guards a conversion ([int(float(..))] under
      [try]) the field holds an arbitrary JSON scalar [jval].
    - JSON decoding builds trees: no two elements of a decoded list are
      the same object, so an in-place update of a list element is a [map]
      over the list.
    - The completion endpoint, the clock, the random generator, the prompt
      templates, [float] of a string and the iteration order of a Python
      [set] are parameters. *)

From Stdlib Require Import ZArith QArith Qround Lia Lqa String Ascii List Permutation Sorted.
From stdpp Require Import base option list gmap strings pretty sorting.

Local Open Scope Z_scope.

(** ** Python values *)

Module Py.

(** Python numbers as they come out of [json.loads]. *)
Inductive num : Type :=
| NInt (z : Z)
| NFloat (q : Q).

(** JSON scalars and, lumped together, composite values. *)
Inductive jval : Type :=
| JNull
| JBool (b : bool)
| JNum (n : num)
| JStr (s : string)
| JComposite.

(** [int(q)] of a float: truncation toward zero. *)
Definition trunc (q : Q) : Z := Z.quot (Qnum q) (Z.pos (Qden q)).

Definition to_Q (n : num) : Q :=
  match n with
  | NInt z => inject_Z z
  | NFloat q => q
  end.

(** [int(n)] *)
Definition int (n : num) : Z :=
  match n with
  | NInt z => z
  | NFloat q => trunc q
  end.

(** [a + b]: int + int is an int, anything else is a float. *)
Definition add (a b : num) : num :=
  match a, b with
  | NInt x, NInt y => NInt (x + y)
  | _, _ => NFloat (to_Q a + to_Q b)
  end.

(** [sum(xs)], which starts from the int [0]. *)
Definition sum (xs : list num) : num := fold_left add xs (NInt 0).

(** The mathematical sum of a list of numbers, to state what [sum]
    computes. *)
Definition Qsum (xs : list num) : Q := foldr (fun x acc => (to_Q x + acc)%Q) 0%Q xs.

(** [a / b], true division: always a float. *)
Definition truediv (a b : num) : Q := to_Q a / to_Q b.

Definition is_int (n : num) : Prop :=
  match n with
  | NInt _ => True
  | NFloat _ => False
  end.

(** The value of [n] is a whole number, whatever its Python type. *)
Definition integral (n : num) : Prop := exists z : Z, to_Q n == inject_Z z.

(** *** Strings *)

Definition is_upper (c : ascii) : bool :=
  let n := N_of_ascii c in (65 <=? n)%N && (n <=? 90)%N.
Definition is_lower (c : ascii) : bool :=
  let n := N_of_ascii c in (97 <=? n)%N && (n <=? 122)%N.
Definition is_cased (c : ascii) : bool := is_upper c || is_lower c.
Definition is_digit (c : ascii) : bool :=
  let n := N_of_ascii c in (48 <=? n)%N && (n <=? 57)%N.
(** [str.isspace]: TAB..CR, FS..US and the blank. *)
Definition is_space (c : ascii) : bool :=
  let n := N_of_ascii c in
  ((9 <=? n)%N && (n <=? 13)%N) || ((28 <=? n)%N && (n <=? 32)%N).

Definition lower_char (c : ascii) : ascii :=
  if is_upper c then ascii_of_N (N_of_ascii c + 32) else c.
Definition upper_char (c : ascii) : ascii :=
  if is_lower c then ascii_of_N (N_of_ascii c - 32) else c.

(** [s.lower()] *)
Fixpoint lower (s : string) : string :=
  match s with
  | EmptyString => EmptyString
  | String c s' => String (lower_char c) (lower s')
  end.

(** [s.title()]: a cased character is upper-cased when the character
    before it is not cased, lower-cased otherwise. *)
Fixpoint title_from (prev_cased : bool) (s : string) : string :=
  match s with
  | EmptyString => EmptyString
  | String c s' =>
      String (if prev_cased then lower_char c else upper_char c)
             (title_from (is_cased c) s')
  end.
Definition title (s : string) : string := title_from false s.

Fixpoint lstrip (s : string) : string :=
  match s with
  | EmptyString => EmptyString
  | String c s' => if is_space c then lstrip s' else s
  end.

Fixpoint rstrip (s : string) : string :=
  match s with
  | EmptyString => EmptyString
  | String c s' =>
      match rstrip s' with
      | EmptyString => if is_space c then EmptyString else String c EmptyString
      | r => String c r
      end
  end.

(** [s.strip()] *)
Definition strip (s : string) : string := rstrip (lstrip s).

(** [s[:n]] *)
Fixpoint take_chars (n : nat) (s : string) : string :=
  match n, s with
  | S n', String c s' => String c (take_chars n' s')
  | _, _ => EmptyString
  end.

(** [needle in hay] *)
Fixpoint contains (needle hay : string) : bool :=
  String.prefix needle hay ||
  match hay with
  | EmptyString => false
  | String _ hay' => contains needle hay'
  end.

(** [s.replace(c, "")] for a single character [c]. *)
Fixpoint remove_char (c : ascii) (s : string) : string :=
  match s with
  | EmptyString => EmptyString
  | String d s' => if Ascii.eqb c d then remove_char c s' else String d (remove_char c s')
  end.

(** The longest prefix of [s] whose characters satisfy [p], and the rest. *)
Fixpoint span (p : ascii -> bool) (s : string) : string * string :=
  match s with
  | EmptyString => (EmptyString, EmptyString)
  | String c s' =>
      if p c then let '(a, b) := span p s' in (String c a, b)
      else (EmptyString, s)
  end.

(** [s] without its prefix [p], when it has that prefix. *)
Fixpoint drop_prefix (p s : string) : option string :=
  match p, s with
  | EmptyString, _ => Some s
  | String a p', String b s' => if Ascii.eqb a b then drop_prefix p' s' else None
  | String _ _, EmptyString => None
  end.

(** [int(s)] for a string of ASCII digits; the empty string is a
    [ValueError]. *)
Definition digit_val (c : ascii) : Z := Z.of_N (N_of_ascii c) - 48.
Fixpoint digits_value (acc : Z) (s : string) : Z :=
  match s with
  | EmptyString => acc
  | String c s' => digits_value (10 * acc + digit_val c) s'
  end.
Definition int_of_digits (s : string) : option Z :=
  match s with
  | EmptyString => None
  | _ => Some (digits_value 0 s)
  end.

(** [bool(s)] *)
Definition nonempty (s : string) : bool :=
  match s with
  | EmptyString => false
  | _ => true
  end.

End Py.

(** ** llm_utils.py *)

Module LlmUtils.

Definition nl : string := String (ascii_of_N 10) EmptyString.

(** The top level of a parsed completion: [_parse_json_block] slices from
    the first bracket or brace, so a successful parse is a list or an
    object. *)
Inductive payload (A : Type) : Type :=
| PList (items : list A)
| PDict (keys : list string).
Arguments PList {A} items.
Arguments PDict {A} keys.

(** [bool(data)] for a list or a dict: non-empty. *)
Definition payload_truthy {A : Type} (p : payload A) : bool :=
  match p with
  | PList [] => false
  | PList (_ :: _) => true
  | PDict [] => false
  | PDict (_ :: _) => true
  end.

(** One pass through the body of the retry loop. *)
Record attempt (P : Type) : Type := Attempt {
  prompt_sent : string;
  extracted : option P
}.
Arguments Attempt {P} prompt_sent extracted.
Arguments prompt_sent {P} a.
Arguments extracted {P} a.

Section QueryLoop.
Context {P : Type}.
(** [bool(data)] *)
Variable truthy : P -> bool.
(** [query_llama_json(prompt)] at the k-th call of the run: completion
    request and JSON extraction, [None] on any failure. *)
Variable query_llama_json : nat -> string -> option P.

Definition invalid_feedback (prompt : string) (error_msg : option string) : string :=
  prompt +:+ nl +:+ nl +:+ " PREVIOUS OUTPUT INVALID: " +:+ default "None" error_msg
         +:+ nl +:+ "Ensure strict JSON compliance.".

Definition not_json_feedback (prompt : string) : string :=
  prompt +:+ nl +:+ nl +:+ " PREVIOUS OUTPUT WAS NOT JSON." +:+ nl
         +:+ "Return ONLY valid JSON.".

(** The [for i in range(max_retries + 1)] loop, [left] iterations to
    go.  Besides the returned value the model keeps the log of the
    attempts made. *)
Fixpoint retry_loop (left i : nat) (prompt current_prompt : string)
         (validator_fn : P -> bool * option string)
  : option P * list (attempt P) :=
  match left with
  | O => (None, [])
  | S left' =>
      let data := query_llama_json i current_prompt in
      let this := Attempt current_prompt data in
      match data with
      | Some d =>
          if truthy d then
            let '(is_valid, error_msg) := validator_fn d in
            if is_valid then (Some d, [this])
            else
              let '(r, log) := retry_loop left' (S i) prompt
                                 (invalid_feedback prompt error_msg) validator_fn in
              (r, this :: log)
          else
            let '(r, log) := retry_loop left' (S i) prompt
                               (not_json_feedback prompt) validator_fn in
            (r, this :: log)
      | None =>
          let '(r, log) := retry_loop left' (S i) prompt
                             (not_json_feedback prompt) validator_fn in
          (r, this :: log)
      end
  end.

Definition query_llama_with_validation (prompt : string)
           (validator_fn : P -> bool * option string) (max_retries : Z)
  : option P * list (attempt P) :=
  retry_loop (Z.to_nat (max_retries + 1)) 0 prompt prompt validator_fn.

(** The attempt handed the validator a payload and the validator said
    yes. *)
Definition accepted (validator_fn : P -> bool * option string) (a : attempt P) : Prop :=
  exists d, extracted a = Some d /\ truthy d = true /\ fst (validator_fn d) = true.

(** What the loop guarantees from any iteration on: [left] bounds the
    attempts, attempt [k] of the rest is call [i + k] of the run, and the
    result is the payload of the last attempt, the only accepted one. *)
Definition loop_post (validator_fn : P -> bool * option string) (left i : nat)
           (out : option P * list (attempt P)) : Prop :=
  let '(result, log) := out in
  (length log <= left)%nat /\
  (forall k a, log !! k = Some a -> extracted a = query_llama_json (i + k) (prompt_sent a)) /\
  match result with
  | Some d =>
      exists earlier last,
        log = earlier ++ [last] /\ extracted last = Some d /\
        truthy d = true /\ fst (validator_fn d) = true /\
        Forall (fun a => ~ accepted validator_fn a) earlier
  | None =>
      length log = left /\ Forall (fun a => ~ accepted validator_fn a) log
  end.

End QueryLoop.

End LlmUtils.


(** ** The data model shared by the stages *)

Module Model.
Import Py.

(** [project_profile.json] *)
Record Profile : Type := {
  name : option string;
  budget_inr_per_month : option num;
  description : option string;
  tech_stack : option (gmap string string);
  non_functional_requirements : option (list string)
}.

(** One entry of [mock_billing.json]. *)
Record BillingRecord : Type := {
  month : string;
  service : string;
  cost_inr : num;
  region : string;
  usage_type : string;
  desc : string;
  resource_id : option string;
  unit : option string;
  usage_quantity : option num
}.

Definition with_cost (r : BillingRecord) (c : num) : BillingRecord :=
  {| month := month r; service := service r; cost_inr := c;
     region := region r; usage_type := usage_type r; desc := desc r;
     resource_id := resource_id r; unit := unit r;
     usage_quantity := usage_quantity r |}.

(** [is_sqlite], computed the same way by stage 2 and stage 3:
    ["sqlite" in str(tech_stack.get("database", "")).lower()]. *)
Definition is_sqlite_stack (ts : gmap string string) : bool :=
  contains "sqlite" (lower (default EmptyString (ts !! "database"))).

End Model.

(** ** profile_generator.py *)

Module ProfileGenerator.
Import Py Model.

(** *** The two budget patterns *)

Definition is_amount_char (c : ascii) : bool := is_digit c || Ascii.eqb c ",".

(** The tail [\s*([\d,]+)] of the first pattern; the result is group 1. *)
Definition amount_after (s : string) : option string :=
  let '(_, rest) := span is_space s in
  let '(grp, _) := span is_amount_char rest in
  if nonempty grp then Some grp else None.

(** [(?:rs\.?|inr|₹)\s*([\d,]+)] matched at the start of [s]. *)
Definition prefixed_amount_at (s : string) : option string :=
  match drop_prefix "rs" s with
  | Some rest =>
      match drop_prefix "." rest with
      | Some rest' =>
          match amount_after rest' with
          | Some g => Some g
          | None => amount_after rest
          end
      | None => amount_after rest
      end
  | None =>
      match drop_prefix "inr" s with
      | Some rest => amount_after rest
      | None =>
          match drop_prefix "₹" s with
          | Some rest => amount_after rest
          | None => None
          end
      end
  end.

(** [([\d,]+)\s*(?:rupees|rs)] matched at the start of [s]. *)
Definition suffixed_amount_at (s : string) : option string :=
  let '(grp, rest) := span is_amount_char s in
  if nonempty grp then
    let '(_, rest') := span is_space rest in
    if String.prefix "rupees" rest' || String.prefix "rs" rest' then Some grp else None
  else None.

(** [re.search]: the leftmost position at which the pattern matches. *)
Fixpoint search (pattern_at : string -> option string) (s : string) : option string :=
  match pattern_at s with
  | Some g => Some g
  | None =>
      match s with
      | EmptyString => None
      | String _ s' => search pattern_at s'
      end
  end.

(** Step 1: the captured amount, if either pattern matches. *)
Definition budget_match (text_lower : string) : option string :=
  match search prefixed_amount_at text_lower with
  | Some g => Some g
  | None => search suffixed_amount_at text_lower
  end.

(** The budget after step 1: [int(group.replace(',', ''))], or the
    candidate's value when nothing matches or [int] raises. *)
Definition sanitized_budget (text_lower : string) (llm_budget : option num) : option num :=
  match budget_match text_lower with
  | Some g =>
      match int_of_digits (remove_char "," g) with
      | Some v => Some (NInt v)
      | None => llm_budget
      end
  | None => llm_budget
  end.

(** *** Requirement validation *)

Definition concepts : list (string * list string) :=
  [ ("scalability", ["scalab"; "scale"; "scalable"; "scalability"]);
    ("cost efficiency", ["cost"; "cost efficiency"; "cost-effective"; "cost efficient"]);
    ("high availability", ["availability"; "high availability"; "high-availability"]);
    ("security", ["security"; "secure"; "authentication"; "authorization"]);
    ("disaster recovery", ["disaster"; "recovery"; "backup"; "failover"]);
    ("monitoring", ["monitor"; "monitoring"; "uptime"; "observability"]) ].

(** [any(k in s for k in ks)] *)
Definition any_in (ks : list string) (s : string) : bool :=
  existsb (fun k => contains k s) ks.

(** [re.findall(r'\d+', s)]: the maximal runs of digits, left to right;
    [cur] is the run being read. *)
Fixpoint digit_runs (cur s : string) : list string :=
  match s with
  | EmptyString => if nonempty cur then [cur] else []
  | String c s' =>
      if is_digit c then digit_runs (cur +:+ String c EmptyString) s'
      else (if nonempty cur then [cur] else []) ++ digit_runs EmptyString s'
  end.
Definition findall_digits (s : string) : list string := digit_runs EmptyString s.

(** The concept on which the [for concept, keywords] loop breaks: the
    first one that the requirement mentions and the text supports. *)
Definition concept_hit (text_lower nfr_clean : string) : option (string * list string) :=
  List.find (fun ck : string * list string =>
          let '(concept, keywords) := ck in
          (contains concept nfr_clean || any_in keywords nfr_clean)
          && any_in (keywords ++ [concept]) text_lower)
       concepts.

(** What one pass of the [for nfr in ...] loop appends to [valid_nfrs]. *)
Definition validate_nfr (text_lower nfr : string) : option string :=
  let nfr_clean := strip (lower nfr) in
  let nums := findall_digits nfr_clean in
  if negb (bool_decide (nums = [])) && forallb (fun n => contains n text_lower) nums
  then Some nfr
  else
    match concept_hit text_lower nfr_clean with
    | Some _ => Some (title nfr)
    | None => if contains nfr_clean text_lower then Some nfr else None
    end.

(** *** Tech stack and description *)

Definition check_tool (text_lower tool : string) : string :=
  if nonempty tool && contains (lower tool) text_lower then tool else "Not Specified".

Definition is_sentence_end (c : ascii) : bool :=
  Ascii.eqb c "." || Ascii.eqb c (ascii_of_N 10).

(** [re.split(r'[\.\n]', raw_text)[0].strip()] *)
Definition first_sentence (raw_text : string) : string :=
  strip (fst (span (fun c => negb (is_sentence_end c)) raw_text)).

Section Sanitizer.
(** [list(set(xs))]: the elements of [xs] without repetition, in the order
    in which the interpreter's hash table happens to yield them. *)
Variable set_order : list string -> list string.

Definition _sanitize_profile (profile : Profile) (raw_text : string) : Profile :=
  let text_lower := lower raw_text in
  let valid_nfrs :=
    omap (validate_nfr text_lower) (default [] (non_functional_requirements profile)) in
  let cleaned_stack :=
    check_tool text_lower <$> default ∅ (tech_stack profile) in
  {| name := name profile;
     budget_inr_per_month := sanitized_budget text_lower (budget_inr_per_month profile);
     description := Some (first_sentence raw_text);
     tech_stack := Some cleaned_stack;
     non_functional_requirements := Some (set_order valid_nfrs) |}.

End Sanitizer.


End ProfileGenerator.


(** ** billing_engine.py *)

Module BillingEngine.
Import Py Model LlmUtils.

(** A billing record as the completion gives it: any key may be missing,
    and [cost_inr] may be any JSON value. *)
Record RawBilling : Type := {
  raw_month : option string;
  raw_service : option string;
  raw_cost_inr : option jval;
  raw_region : option string;
  raw_usage_type : option string;
  raw_desc : option string;
  raw_resource_id : option string;
  raw_unit : option string;
  raw_usage_quantity : option num
}.

(** *** get_recent_months *)

(** [now - relativedelta(months=i)] on a (year, month) pair. *)
Definition month_minus (now : Z * Z) (i : Z) : Z * Z :=
  let idx := fst now * 12 + (snd now - 1) - i in
  (idx / 12, idx mod 12 + 1).

(** [strftime("%Y-%m")] *)
Definition strftime_Y_m (ym : Z * Z) : string :=
  pretty (fst ym) +:+ "-" +:+ (if snd ym <? 10 then "0" else "") +:+ pretty (snd ym).

(** The months [i] back from [now], for [i] in [reversed(range(n))]. *)
Definition get_recent_months (now : Z * Z) (n : nat) : list string :=
  List.map (fun i => strftime_Y_m (month_minus now (Z.of_nat i))) (rev (seq 0 n)).

(** *** _generate_fallback *)

(** [int(budget * share)] *)
Definition share_of (budget : num) (share : Q) : num :=
  NInt (trunc (to_Q budget * share)).

Definition fallback_month (budget : num) (m : string) : list BillingRecord :=
  [ {| month := m; service := "Compute"; cost_inr := share_of budget 0.4;
       desc := "App Server Fleet"; region := "ap-south-1";
       resource_id := Some "i-app-prod-01"; usage_type := "On-Demand Linux";
       unit := Some "hours"; usage_quantity := Some (NInt 720) |};
    {| month := m; service := "Database"; cost_inr := share_of budget 0.3;
       desc := "Primary DB Instance"; region := "ap-south-1";
       resource_id := Some "db-prod-01"; usage_type := "RDS Standard";
       unit := Some "hours"; usage_quantity := Some (NInt 720) |};
    {| month := m; service := "Storage"; cost_inr := share_of budget 0.15;
       desc := "Object Storage"; region := "ap-south-1";
       resource_id := Some "vol-data-01"; usage_type := "Standard Storage";
       unit := Some "GB-Mo"; usage_quantity := Some (NInt 500) |};
    {| month := m; service := "Networking"; cost_inr := share_of budget 0.1;
       desc := "Data Transfer"; region := "ap-south-1";
       resource_id := Some "net-nat-01"; usage_type := "Data Transfer Out";
       unit := Some "GB"; usage_quantity := Some (NInt 1000) |};
    {| month := m; service := "Monitoring"; cost_inr := share_of budget 0.05;
       desc := "Cloud Watcher"; region := "ap-south-1";
       resource_id := Some "mon-main-01"; usage_type := "Metrics";
       unit := Some "Reqs"; usage_quantity := Some (NInt 1000000) |} ].

Definition _generate_fallback (budget : num) (months : list string) : list BillingRecord :=
  take 20 (concat (List.map (fallback_month budget) months)).

(** *** generate_mock_billing *)

(** The keys of [{m: [] for m in months}], in insertion order. *)
Fixpoint dict_keys (months : list string) : list string :=
  match months with
  | [] => []
  | m :: rest => m :: List.filter (fun k => negb (String.eqb k m)) (dict_keys rest)
  end.

(** [x or y] on numbers. *)
Definition num_or (x y : num) : num :=
  if Qeq_bool (to_Q x) 0 then y else x.

Section Engine.
(** [datetime.now()]: year and month. *)
Variable now : Z * Z.
(** [float(s)] of a string; [None] is a [ValueError]. *)
Variable float_of_string : string -> option Q.
(** [random.uniform(0.97, 1.03)], the draw made for the group of a month. *)
Variable random_uniform : string -> Q.
(** The prompt template and the completion endpoint with extraction. *)
Variable _get_billing_prompt : Profile -> num -> list string -> bool -> string.
Variable query_llama_json : string -> option (payload RawBilling).

(** [float(v)]; [None] when it raises. *)
Definition py_float (v : jval) : option Q :=
  match v with
  | JNull => None
  | JBool b => Some (if b then 1%Q else 0%Q)
  | JNum n => Some (to_Q n)
  | JStr s => float_of_string s
  | JComposite => None
  end.

(** One pass of the repair loop: [None] when the record is skipped. *)
Definition repair (r : RawBilling) : option BillingRecord :=
  match raw_month r, raw_service r, raw_cost_inr r with
  | Some m, Some s, Some c =>
      match py_float c with
      | Some q =>
          Some {| month := m; service := s; cost_inr := NInt (trunc q);
                  region := default "ap-south-1" (raw_region r);
                  usage_type := default "Standard" (raw_usage_type r);
                  desc := default (s +:+ " usage") (raw_desc r);
                  resource_id := raw_resource_id r; unit := raw_unit r;
                  usage_quantity := raw_usage_quantity r |}
      | None => None
      end
  | _, _, _ => None
  end.

(** The body of the normalisation loop for one month with records. *)
Definition scale_group (budget : num) (m : string) (recs : list BillingRecord)
  : list BillingRecord :=
  let current_total := num_or (sum (List.map cost_inr recs)) (NInt 1) in
  let target := (to_Q budget * random_uniform m)%Q in
  let scale := (target / to_Q current_total)%Q in
  List.map (fun r => with_cost r (NInt (Z.max 10 (trunc (to_Q (cost_inr r) * scale))))) recs.

(** Step 4: group by expected month, rescale, cut to 20 records. *)
Definition normalize (budget : num) (months : list string) (valid_recs : list BillingRecord)
  : list BillingRecord :=
  let records_by_month :=
    List.map (fun m => (m, List.filter (fun r => String.eqb (month r) m) valid_recs))
        (dict_keys months) in
  let final_records :=
    concat (List.map (fun group : string * list BillingRecord =>
                   let '(m, recs) := group in
                   match recs with
                   | [] => []
                   | _ :: _ => scale_group budget m recs
                   end) records_by_month) in
  take 20 final_records.

Definition valid_records (raw_recs : list RawBilling) : list BillingRecord :=
  omap repair raw_recs.

Definition generate_mock_billing (profile : Profile) : list BillingRecord :=
  let budget := default (NInt 5000) (budget_inr_per_month profile) in
  let stack := default ∅ (tech_stack profile) in
  let is_sqlite := is_sqlite_stack stack in
  let months := get_recent_months now 4 in
  let prompt := _get_billing_prompt profile budget months is_sqlite in
  match query_llama_json prompt with
  | Some (PList ((_ :: _) as raw_recs)) =>
      match valid_records raw_recs with
      | [] => _generate_fallback budget months
      | (_ :: _) as valid_recs => normalize budget months valid_recs
      end
  | _ => _generate_fallback budget months
  end.

End Engine.

End BillingEngine.


(** ** analyzer.py *)

Module Analyzer.
Import Py Model LlmUtils.

(** A recommendation item, as the completion gives it and as the report
    holds it. *)
Record Rec : Type := {
  rec_title : option string;
  rec_service : option string;
  current_cost : option num;
  potential_savings : option num;
  recommendation_type : option string;
  rec_description : option string;
  steps : option (list string);
  cloud_providers : option (list string);
  risk_level : option string;
  implementation_effort : option string
}.

(** [r["potential_savings"]], a key that every processed item has. *)
Definition savings (r : Rec) : num := default (NInt 0) (potential_savings r).

Definition with_savings (r : Rec) (s : num) : Rec :=
  {| rec_title := rec_title r; rec_service := rec_service r;
     current_cost := current_cost r; potential_savings := Some s;
     recommendation_type := recommendation_type r;
     rec_description := rec_description r; steps := steps r;
     cloud_providers := cloud_providers r; risk_level := risk_level r;
     implementation_effort := implementation_effort r |}.

(** *** Step 1: SQLite *)

Definition is_service (name : string) (r : BillingRecord) : bool :=
  String.eqb (service r) name.

Definition redistribute (billing : list BillingRecord) : list BillingRecord :=
  let db_cost := sum (List.map cost_inr (List.filter (is_service "Database") billing)) in
  let billing := List.filter (fun r => negb (is_service "Database" r)) billing in
  let compute_recs := List.filter (is_service "Compute") billing in
  if negb (bool_decide (compute_recs = [])) && negb (Qle_bool (to_Q db_cost) 0) then
    let avg_add := truediv db_cost (NInt (Z.of_nat (length compute_recs))) in
    List.map (fun r => if is_service "Compute" r
                  then with_cost r (add (cost_inr r) (NFloat avg_add))
                  else r) billing
  else billing.

(** *** Step 2: financials *)

Definition total_cost (billing : list BillingRecord) : num :=
  sum (List.map cost_inr billing).

(** [len({r["month"] for r in billing}) or 1] *)
Definition month_count (billing : list BillingRecord) : Z :=
  let n := size (list_to_set (List.map month billing) : gset string) in
  if (n =? 0)%nat then 1 else Z.of_nat n.

Definition avg_monthly_of (billing : list BillingRecord) : Q :=
  truediv (total_cost billing) (NInt (month_count billing)).

(** [services[svc] = services.get(svc, 0) + cost] on an insertion-ordered
    dict. *)
Fixpoint dict_accumulate (svc : string) (cost : num) (services : list (string * num))
  : list (string * num) :=
  match services with
  | [] => [(svc, add (NInt 0) cost)]
  | (k, v) :: rest =>
      if String.eqb k svc then (k, add v cost) :: rest
      else (k, v) :: dict_accumulate svc cost rest
  end.

Definition service_totals (billing : list BillingRecord) : list (string * num) :=
  fold_left (fun services r => dict_accumulate (service r) (cost_inr r) services) billing [].

Definition avg_breakdown_of (billing : list BillingRecord) : list (string * Q) :=
  List.map (fun kv : string * num => (fst kv, truediv (snd kv) (NInt (month_count billing))))
      (service_totals billing).

(** *** Step 3: the validator handed to the retry loop *)

Definition has_required (r : Rec) : bool :=
  bool_decide (is_Some (rec_title r)) && bool_decide (is_Some (rec_service r))
  && bool_decide (is_Some (current_cost r)) && bool_decide (is_Some (potential_savings r)).

Definition is_database (r : Rec) : bool :=
  match rec_service r with
  | Some s => String.eqb s "Database"
  | None => false
  end.

Fixpoint validate_items (is_sqlite : bool) (i : nat) (recs : list Rec) : bool * option string :=
  match recs with
  | [] => (true, None)
  | r :: rest =>
      if negb (has_required r) then (false, Some ("Missing fields at index " +:+ pretty i))
      else if is_sqlite && is_database r then (false, Some "No DB recs for SQLite")
      else validate_items is_sqlite (S i) rest
  end.

Definition validate (is_sqlite : bool) (recs : payload Rec) : bool * option string :=
  match recs with
  | PList items =>
      if (length items <? 5)%nat then (false, Some "Need 5+ items")
      else validate_items is_sqlite 0 items
  | PDict _ => (false, Some "Need 5+ items")
  end.

(** *** Step 4: _process_recs *)

(** The dedup key of a title: [title[:15].lower()]. *)
Definition key_of (title : string) : string := lower (take_chars 15 title).

(** The basic cleanup at the head of the loop body. *)
Definition cleanup (r : Rec) : Rec :=
  {| rec_title := rec_title r; rec_service := rec_service r;
     current_cost := Some (NInt (int (default (NInt 0) (current_cost r))));
     potential_savings := Some (NInt (int (default (NInt 0) (potential_savings r))));
     recommendation_type := recommendation_type r;
     rec_description :=
       Some (default ("Optimization for " +:+ default "None" (rec_service r) +:+ ".")
                     (rec_description r));
     steps := steps r; cloud_providers := cloud_providers r;
     risk_level := risk_level r; implementation_effort := implementation_effort r |}.

(** The title the filter looks at: [r.get("title", "").strip()]. *)
Definition stripped_title (r : Rec) : string := strip (default EmptyString (rec_title r)).

(** The key under which the filter loop records an item in [seen]. *)
Definition dedup_key (r : Rec) : string := key_of (stripped_title r).

(** [x > 0] on a number. *)
Definition positive (x : num) : bool := negb (Qle_bool (to_Q x) 0).

(** One pass of the [for r in recs] loop over [(cleaned, seen)]. *)
Definition filter_step (is_sqlite : bool) (st : list Rec * gset string) (r0 : Rec)
  : list Rec * gset string :=
  let '(cleaned, seen) := st in
  let r := cleanup r0 in
  let title := stripped_title r in
  if negb (nonempty title) then st
  else
    let key := dedup_key r in
    if bool_decide (key ∈ seen) then st
    else if contains "transfer acceleration" (lower title) then st
    else if is_sqlite && is_database r then st
    else
      let is_gov :=
        contains "governance" (lower (default EmptyString (recommendation_type r))) in
      if positive (savings r) || is_gov
      then (cleaned ++ [r], seen ∪ {[ key ]})
      else st.

(** [sorted(cleaned, key=potential_savings, reverse=True)]: descending and
    stable. *)
Definition num_ltb (a b : num) : bool := negb (Qle_bool (to_Q b) (to_Q a)).

Fixpoint insert_desc (x : Rec) (l : list Rec) : list Rec :=
  match l with
  | [] => [x]
  | y :: l' =>
      if num_ltb (savings x) (savings y) then y :: insert_desc x l'
      else x :: y :: l'
  end.

Definition sorted_desc (l : list Rec) : list Rec := foldr insert_desc [] l.

Definition default_rec (title service : string) (saving : Z) (kind : string)
           (providers : list string) (description : string) (todo : list string)
           (risk effort : string) : Rec :=
  {| rec_title := Some title; rec_service := Some service; current_cost := None;
     potential_savings := Some (NInt saving); recommendation_type := Some kind;
     cloud_providers := Some providers; rec_description := Some description;
     steps := Some todo; risk_level := Some risk; implementation_effort := Some effort |}.

Definition defaults : list Rec :=
  [ default_rec "Configure Cloud Budget Alerts" "Governance" 0 "Governance" ["AWS"; "GCP"]
      "Set strict budget thresholds." ["Create budget"; "Set alert @ 80%"] "Low" "Low";
    default_rec "Enable Resource Tagging" "Governance" 0 "Governance" ["AWS"; "Azure"]
      "Tag resources by project." ["Define tags"; "Apply policy"] "Low" "Low";
    default_rec "Enable MFA" "Security" 0 "Security" ["AWS"]
      "Secure root account." ["Turn on MFA"] "Low" "Low";
    default_rec "Release Unused IPs" "Networking" 200 "Cleanup" ["AWS"]
      "Release unattached Elastic IPs." ["Find IPs"; "Release"] "Low" "Low";
    default_rec "Delete Unattached EBS" "Storage" 500 "Cleanup" ["AWS"]
      "Delete orphaned volumes." ["Scan volumes"; "Delete"] "Low" "Low";
    default_rec "Lease Privilege IAM" "Security" 0 "Security" ["AWS"]
      "Audit permissions." ["Review roles"] "Medium" "Medium";
    default_rec "Data Retention Policy" "Governance" 0 "Governance" ["AWS"]
      "Auto-delete old logs." ["Set lifecycle"] "Low" "Low" ].

(** The dedup key of a default: [d["title"][:15].lower()]. *)
Definition default_key (d : Rec) : string := key_of (default EmptyString (rec_title d)).

(** One pass of the [for d in defaults] loop; once six items are there the
    loop has left through [break]. *)
Definition default_step (st : list Rec * gset string) (d : Rec) : list Rec * gset string :=
  let '(recs, seen) := st in
  if (6 <=? length recs)%nat then st
  else
    let key := default_key d in
    if bool_decide (key ∈ seen) then st
    else (recs ++ [d], seen ∪ {[ key ]}).

(** The state [(cleaned, seen)] when the filter loop ends. *)
Definition filtered (is_sqlite : bool) (recs : list Rec) : list Rec * gset string :=
  fold_left (filter_step is_sqlite) recs ([], ∅).

(** What the two loops of [_process_recs] maintain: [seen] holds the keys
    of the items kept so far, no key twice, and every saving is an int. *)
Definition kept_ok (st : list Rec * gset string) : Prop :=
  let '(recs, seen) := st in
  seen = list_to_set (dedup_key <$> recs) /\
  NoDup (dedup_key <$> recs) /\
  Forall (fun r => exists z, potential_savings r = Some (NInt z)) recs.

Definition _process_recs (recs : list Rec) (profile : Profile) (is_sqlite : bool)
           (total_cost : Q) : list Rec :=
  let '(cleaned, seen) := filtered is_sqlite recs in
  let recs := sorted_desc cleaned in
  let recs :=
    if (length recs <? 6)%nat then fst (fold_left default_step defaults (recs, seen))
    else recs in
  take 10 recs.

(** *** Step 5: final calculations *)

(** [sum(r["potential_savings"] for r in final_recs)] *)
Definition total_save (recs : list Rec) : num := sum (List.map savings recs).

(** [total_save / avg_monthly * 100 if avg_monthly else 0] *)
Definition save_pct_of (avg_monthly : Q) (recs : list Rec) : Q :=
  if Qeq_bool avg_monthly 0 then 0%Q
  else (to_Q (total_save recs) / avg_monthly * 100)%Q.

(** [int(r["potential_savings"] * scale)] *)
Definition scale_item (scale : Q) (r : Rec) : Rec :=
  with_savings r (NInt (trunc (to_Q (savings r) * scale))).

(** Cap overly optimistic savings at 35%. *)
Definition cap_savings (avg_monthly : Q) (final_recs : list Rec) : list Rec :=
  let save_pct := save_pct_of avg_monthly final_recs in
  if negb (Qle_bool save_pct 35) then
    let scale := (35 / save_pct)%Q in
    List.map (scale_item scale) final_recs
  else final_recs.

(** [round(x, 2)], ties to even. *)
Definition round2 (x : Q) : Q :=
  let y := (x * 100)%Q in
  let f := Qfloor y in
  let n := match ((y - inject_Z f) * 2 ?= 1)%Q with
           | Lt => f
           | Gt => f + 1
           | Eq => if Z.even f then f else f + 1
           end in
  (inject_Z n / 100)%Q.

(** [sorted(items, key=value, reverse=True)] on the breakdown. *)
Fixpoint insert_by_value (x : string * Q) (l : list (string * Q)) : list (string * Q) :=
  match l with
  | [] => [x]
  | y :: l' =>
      if negb (Qle_bool (snd y) (snd x)) then y :: insert_by_value x l'
      else x :: y :: l'
  end.

Record Analysis : Type := {
  total_monthly_cost : Q;
  budget : num;
  budget_variance : Q;
  service_costs : list (string * Q);
  high_cost_services : list (string * Q);
  is_over_budget : bool
}.

Record Report : Type := {
  project_name : option string;
  analysis : Analysis;
  recommendations : list Rec
}.

Section Analysis.
(** The prompt template and the completion endpoint with extraction, at
    the k-th call of the retry loop. *)
Variable _get_analysis_prompt :
  Profile -> Q -> num -> list (string * Q) -> gmap string string -> string.
Variable query_llama_json : nat -> string -> option (payload Rec).

(** The billing list that steps 2 to 5 work on. *)
Definition billing_after_sqlite (profile : Profile) (billing : list BillingRecord)
  : list BillingRecord :=
  let stack := default ∅ (tech_stack profile) in
  if is_sqlite_stack stack then redistribute billing else billing.

(** Steps 1 to 4: the list [final_recs] that [_process_recs] returns. *)
Definition processed_recs (profile : Profile) (billing : list BillingRecord) : list Rec :=
  let stack := default ∅ (tech_stack profile) in
  let is_sqlite := is_sqlite_stack stack in
  let billing := billing_after_sqlite profile billing in
  let avg_monthly := avg_monthly_of billing in
  let avg_breakdown := avg_breakdown_of billing in
  let budget := default (NInt 0) (budget_inr_per_month profile) in
  let prompt := _get_analysis_prompt profile avg_monthly budget avg_breakdown stack in
  let raw_recs :=
    match fst (query_llama_with_validation payload_truthy query_llama_json
                 prompt (validate is_sqlite) 3) with
    | Some (PList items) => items
    | _ => []
    end in
  _process_recs raw_recs profile is_sqlite avg_monthly.

Definition analyze_costs_and_generate_recommendations
           (profile : Profile) (billing0 : list BillingRecord) : Report :=
  let billing := billing_after_sqlite profile billing0 in
  let avg_monthly := avg_monthly_of billing in
  let avg_breakdown := avg_breakdown_of billing in
  let budget := default (NInt 0) (budget_inr_per_month profile) in
  let variance := (avg_monthly - to_Q budget)%Q in
  let final_recs := processed_recs profile billing0 in
  let final_recs := cap_savings avg_monthly final_recs in
  let sorted_services := take 3 (foldr insert_by_value [] avg_breakdown) in
  {| project_name := name profile;
     analysis :=
       {| total_monthly_cost := round2 avg_monthly;
          budget := budget;
          budget_variance := round2 variance;
          service_costs := List.map (fun kv => (fst kv, round2 (snd kv))) avg_breakdown;
          high_cost_services := List.map (fun kv => (fst kv, round2 (snd kv))) sorted_services;
          is_over_budget := negb (Qle_bool variance 0) |};
     recommendations := final_recs |}.

End Analysis.

End Analyzer.



(** ** analyzer.py, the parts between the steps *)

Module AnalyzerParts.
Import Py Model LlmUtils Analyzer.


(** The accumulation loop shared by the service breakdown (key: service)
    and the billing summary (key: month). *)
Definition totals_by (key : BillingRecord -> string) (records : list BillingRecord)
  : list (string * num) :=
  fold_left (fun totals r => dict_accumulate (key r) (cost_inr r) totals) records [].

(** The conditions under which the filter loop appends an item. *)
Definition passes_filter (is_sqlite : bool) (r : Rec) : Prop :=
  nonempty (stripped_title r) = true /\
  contains "transfer acceleration" (lower (stripped_title r)) = false /\
  is_sqlite && is_database r = false /\
  positive (savings r)
  || contains "governance" (lower (default EmptyString (recommendation_type r))) = true.

(** What the validator asks of one item. *)
Definition item_ok (is_sqlite : bool) (r : Rec) : Prop :=
  has_required r = true /\ is_sqlite && is_database r = false.

(** Descending order of savings. *)
Definition savings_ge (a b : Rec) : Prop := (to_Q (savings b) <= to_Q (savings a))%Q.

(** Two items that differ at most in [potential_savings]. *)
Definition same_but_savings (r r' : Rec) : Prop :=
  rec_title r' = rec_title r /\ rec_service r' = rec_service r /\
  current_cost r' = current_cost r /\
  recommendation_type r' = recommendation_type r /\
  rec_description r' = rec_description r /\ steps r' = steps r /\
  cloud_providers r' = cloud_providers r /\ risk_level r' = risk_level r /\
  implementation_effort r' = implementation_effort r.

Section RawRecs.
Variable _get_analysis_prompt :
  Profile -> Q -> num -> list (string * Q) -> gmap string string -> string.
Variable query_llama_json : nat -> string -> option (payload Rec).

(** [raw_recs]: what the retry loop hands to [_process_recs]. *)
Definition raw_recs_of (profile : Profile) (billing : list BillingRecord) : list Rec :=
  let stack := default ∅ (tech_stack profile) in
  let is_sqlite := is_sqlite_stack stack in
  let billing := billing_after_sqlite profile billing in
  let avg_monthly := avg_monthly_of billing in
  let avg_breakdown := avg_breakdown_of billing in
  let budget := default (NInt 0) (budget_inr_per_month profile) in
  let prompt := _get_analysis_prompt profile avg_monthly budget avg_breakdown stack in
  match fst (query_llama_with_validation payload_truthy query_llama_json
               prompt (validate is_sqlite) 3) with
  | Some (PList items) => items
  | _ => []
  end.

End RawRecs.

End AnalyzerParts.

(** ** billing_engine.py: save_mock_billing *)

Module BillingSummary.
Import Py Model.

(** The quick summary: [totals[r["month"]] = totals.get(r["month"], 0)
    + r.get("cost_inr", 0)] over the records. *)
Definition month_totals (records : list BillingRecord) : list (string * num) :=
  fold_left (fun totals r => Analyzer.dict_accumulate (month r) (cost_inr r) totals)
            records [].

End BillingSummary.


(** ** llm_utils.py, extraction of the JSON block and the retry prompts *)

Module LlmParts.
Import Py LlmUtils.

(** [needle] occurs in [hay] as a contiguous piece. *)
Definition occurs_in (needle hay : string) : Prop :=
  exists pre post, hay = pre +:+ needle +:+ post.

(** Every character of [s] satisfies [p]. *)
Fixpoint all_chars (p : ascii -> bool) (s : string) : bool :=
  match s with
  | EmptyString => true
  | String c s' => p c && all_chars p s'
  end.

(** The text before the first occurrence of [needle] and the text after
    it. *)
Fixpoint split_at_first (needle s : string) : option (string * string) :=
  match drop_prefix needle s with
  | Some rest => Some (EmptyString, rest)
  | None =>
      match s with
      | EmptyString => None
      | String c s' =>
          match split_at_first needle s' with
          | Some (before, rest) => Some (String c before, rest)
          | None => None
          end
      end
  end.

(** Group 1 of [re.search(r'```json\s*(.*?)\s*```', text, re.DOTALL)].
    The search stops at the leftmost "```json"; the greedy [\s*] after it
    takes all the whitespace there is; the lazy group ends as early as the
    rest can be read as whitespace followed by "```", that is at the
    first "```" further on, less the whitespace just in front of it.  A
    later "```json" cannot match when the leftmost one does not, as it
    would itself close the first. *)
Definition fenced_block (text : string) : option string :=
  match split_at_first "```json" text with
  | None => None
  | Some (_, rest) =>
      let '(_, body) := span is_space rest in
      match split_at_first "```" body with
      | None => None
      | Some (inner, _) => Some (rstrip inner)
      end
  end.

Definition is_open (c : ascii) : bool := Ascii.eqb c "[" || Ascii.eqb c "{".
Definition is_close (c : ascii) : bool := Ascii.eqb c "]" || Ascii.eqb c "}".

(** [re.search(r'[\[\{]', text).start()]; [None] stands for the
    [AttributeError] on a failed search. *)
Fixpoint find_index (p : ascii -> bool) (s : string) : option nat :=
  match s with
  | EmptyString => None
  | String c s' => if p c then Some 0%nat else S <$> find_index p s'
  end.

(** [s.rfind(c)] for a single character: the highest index, or -1. *)
Fixpoint rfind (c : ascii) (s : string) : Z :=
  match s with
  | EmptyString => -1
  | String d s' =>
      let r := rfind c s' in
      if 0 <=? r then r + 1 else if Ascii.eqb c d then 0 else -1
  end.

(** [s[start:stop]] for indices that are not negative. *)
Definition slice (start : nat) (stop : Z) (s : string) : string :=
  substring start (Z.to_nat stop - start) s.

Section Parser.
Context {J : Type}.
(** [json.loads]; [None] stands for [JSONDecodeError]. *)
Variable json_loads : string -> option J.
(** [query_llama]: the completion text, [None] on any API error. *)
Variable query_llama : string -> option string.

Definition _parse_json_block (text : option string) : option J :=
  match text with
  | None => None
  | Some text =>
      if negb (nonempty text) then None
      else
        let text := default text (fenced_block text) in
        match find_index is_open text with
        | None => None
        | Some start =>
            let stop := Z.max (rfind "]" text) (rfind "}" text) + 1 in
            json_loads (slice start stop text)
        end
  end.

Definition query_llama_json (prompt : string) : option J :=
  _parse_json_block (query_llama prompt).

End Parser.

Section Feedback.
Context {P : Type}.
Variable truthy : P -> bool.

(** The value of [current_prompt] at the end of an iteration that did
    not return. *)
Definition next_prompt (prompt : string) (validator_fn : P -> bool * option string)
           (a : attempt P) : string :=
  match extracted a with
  | Some d =>
      if truthy d then invalid_feedback prompt (snd (validator_fn d))
      else not_json_feedback prompt
  | None => not_json_feedback prompt
  end.

End Feedback.

End LlmParts.

(** ** profile_generator.py, extract_project_profile *)

Module ProfileParts.
Import Py Model ProfileGenerator.

(** [bool(raw_profile)], for an object with no other keys than the five of
    the data model; with other keys only, the next test fails all the
    same. *)
Definition profile_truthy (p : Profile) : bool :=
  match name p, budget_inr_per_month p, description p, tech_stack p,
        non_functional_requirements p with
  | None, None, None, None, None => false
  | _, _, _, _, _ => true
  end.

(** [all(k in raw_profile for k in required)] *)
Definition has_required (p : Profile) : bool :=
  match name p, budget_inr_per_month p, description p, tech_stack p,
        non_functional_requirements p with
  | Some _, Some _, Some _, Some _, Some _ => true
  | _, _, _, _, _ => false
  end.

Section Extraction.
Variable set_order : list string -> list string.
(** The prompt, an f-string around the description. *)
Variable profile_prompt : string -> string.
(** [query_llama_json], for completions that are JSON objects. *)
Variable query_llama_json : string -> option Profile.

Definition extract_project_profile (description : string) : option Profile :=
  match query_llama_json (profile_prompt description) with
  | None => None
  | Some raw_profile =>
      if negb (profile_truthy raw_profile) then None
      else if negb (has_required raw_profile) then None
      else Some (_sanitize_profile set_order raw_profile description)
  end.

End Extraction.

(** The word of the text that carries a requirement through the
    validation loop: a number of the requirement, a keyword of a concept
    it mentions, or the whole requirement. *)
Definition grounds (text_lower nfr w : string) : Prop :=
  let nfr_clean := strip (lower nfr) in
  LlmParts.occurs_in w text_lower /\
  (w ∈ findall_digits nfr_clean \/
   (exists concept keywords,
       (concept, keywords) ∈ concepts /\
       (LlmParts.occurs_in concept nfr_clean \/
        exists k, k ∈ keywords /\ LlmParts.occurs_in k nfr_clean) /\
       (w = concept \/ w ∈ keywords)) \/
   w = nfr_clean).

End ProfileParts.

(** ** main.py and the run_* entry points *)

Module Main.
Import Py Model LlmUtils.

(** The four artifacts of the working directory; [None] is a missing
    file.  A file holds what [json.dump] was given. *)
Record Files : Type := {
  project_description : option string;
  project_profile : option Profile;
  mock_billing : option (list BillingRecord);
  cost_optimization_report : option Analyzer.Report
}.

(** The working directory, the lines still to come on standard input, and
    the number of stage runs so far, which tells the answers of the
    outside world (completions, clock, random draws) of one run from
    those of another. *)
Record World : Type := {
  files : Files;
  stdin : list string;
  runs : nat
}.

Inductive exn : Type := EOFError | FileNotFoundError | SystemExit.

Inductive result (A : Type) : Type :=
| Return (a : A) (w : World)
| Raise (e : exn) (w : World).
Arguments Return {A} a w.
Arguments Raise {A} e w.




(** The [while True] loop of run_profile_extraction: the lines read and
    the input left, [None] when the input ends first. *)
Fixpoint read_lines (stdin lines : list string) : option (list string * list string) :=
  match stdin with
  | [] => None
  | line :: rest =>
      if negb (nonempty line) &&
         (match last lines with
          | None => true
          | Some l => negb (nonempty l)
          end)
      then Some (lines, rest)
      else read_lines rest (lines ++ [line])
  end.

(** A list of lines that does not begin with an empty line and has no
    two empty lines in a row. *)
Definition tidy (lines : list string) : Prop :=
  lines !! 0%nat <> Some EmptyString /\
  forall i, lines !! i = Some EmptyString -> lines !! S i <> Some EmptyString.

Section Orchestrator.
Variable set_order : list string -> list string.
Variable float_of_string : string -> option Q.
Variable profile_prompt : string -> string.
Variable _get_billing_prompt : Profile -> num -> list string -> bool -> string.
Variable _get_analysis_prompt :
  Profile -> Q -> num -> list (string * Q) -> gmap string string -> string.
(** The outside world at stage run [k]. *)
Variable llm_profile : nat -> string -> option Profile.
Variable llm_billing : nat -> string -> option (payload BillingEngine.RawBilling).
Variable llm_analysis : nat -> nat -> string -> option (payload Analyzer.Rec).
Variable now : nat -> Z * Z.
Variable random_uniform : nat -> string -> Q.







End Orchestrator.






End Main.

(** ** Sample inputs *)

Module Scenario.
Import Py Model LlmUtils.

(** The description of the end-to-end scenario. *)
Definition description_text : string :=
  "Small e-commerce site on AWS using SQLite, budget Rs. 15000 per month".

(** A candidate profile for it, as a completion could give it. *)
Definition candidate_profile : Profile :=
  {| name := Some "E-Commerce Site";
     budget_inr_per_month := Some (NInt 10000);
     description := Some "An online shop";
     tech_stack := Some (<["database" := "SQLite"]> (<["cloud" := "AWS"]> (<["cache" := "Redis"]> ∅)));
     non_functional_requirements := Some ["cost efficiency"; "Scalability"; "budget rs"] |}.

(** The profile of a project that runs on SQLite. *)
Definition sqlite_profile : Profile :=
  {| name := Some "E-Commerce Site";
     budget_inr_per_month := Some (NInt 15000);
     description := Some "Small e-commerce site on AWS using SQLite, budget Rs";
     tech_stack := Some (<["database" := "SQLite"]> (<["cloud" := "AWS"]> ∅));
     non_functional_requirements := Some [] |}.

(** The first record of the JSON example in the billing prompt. *)
Definition template_record : BillingEngine.RawBilling :=
  {| BillingEngine.raw_month := Some "2025-01";
     BillingEngine.raw_service := Some "EC2";
     BillingEngine.raw_cost_inr := Some (JNum (NInt 900));
     BillingEngine.raw_region := Some "ap-south-1";
     BillingEngine.raw_usage_type := Some "Linux/UNIX (on-demand)";
     BillingEngine.raw_desc := Some "Ecommerce web server";
     BillingEngine.raw_resource_id := Some "i-ecommerce-web-01";
     BillingEngine.raw_unit := Some "hours";
     BillingEngine.raw_usage_quantity := Some (NInt 720) |}.

(** A candidate recommendation on the Compute service. *)
Definition candidate (title : string) (saving : Z) (kind : string) : Analyzer.Rec :=
  {| Analyzer.rec_title := Some title; Analyzer.rec_service := Some "Compute";
     Analyzer.current_cost := Some (NInt 1000);
     Analyzer.potential_savings := Some (NInt saving);
     Analyzer.recommendation_type := Some kind;
     Analyzer.rec_description := Some "Rightsize the fleet.";
     Analyzer.steps := Some ["Measure"; "Resize"];
     Analyzer.cloud_providers := Some ["AWS"];
     Analyzer.risk_level := Some "low"; Analyzer.implementation_effort := Some "low" |}.

(** A billing record of October 2026. *)
Definition bill (svc : string) (cost : Z) : BillingRecord :=
  {| month := "2026-10"; service := svc; cost_inr := NInt cost;
     region := "ap-south-1"; usage_type := "Standard"; desc := svc +:+ " usage";
     resource_id := None; unit := None; usage_quantity := None |}.




(** Prompt templates are immaterial to the sample runs. *)
Definition no_prompt : Profile -> Q -> num -> list (string * Q) -> gmap string string -> string :=
  fun _ _ _ _ _ => EmptyString.

(** A completion record of October 2026 that leaves the optional keys out
    and gives its cost as a string. *)
Definition october_record : BillingEngine.RawBilling :=
  {| BillingEngine.raw_month := Some "2026-10";
     BillingEngine.raw_service := Some "EC2";
     BillingEngine.raw_cost_inr := Some (JStr "1200.5");
     BillingEngine.raw_region := None;
     BillingEngine.raw_usage_type := None;
     BillingEngine.raw_desc := None;
     BillingEngine.raw_resource_id := Some "i-web-01";
     BillingEngine.raw_unit := None;
     BillingEngine.raw_usage_quantity := None |}.

(** [float] on the one string cost of the sample runs. *)
Definition float_of_sample : string -> option Q :=
  fun s => if String.eqb s "1200.5" then Some 1200.5%Q else None.

(** A stand-in for [json.loads] that returns the text it is given and
    rejects the empty string. *)
Definition raw_loads : string -> option string :=
  fun s => if nonempty s then Some s else None.

End Scenario.

(** * Properties *)

(** ** Numbers *)

Section NumberFacts.
Import Py.
Local Open Scope Q_scope.

Lemma trunc_rem (q : Q) :
  Qnum q = (Z.pos (Qden q) * trunc q + Z.rem (Qnum q) (Z.pos (Qden q)))%Z.
Proof. unfold trunc. apply Z.quot_rem'. Qed.

(** Truncation never moves a non-negative number up. *)
Lemma trunc_le (q : Q) : 0 <= q -> inject_Z (trunc q) <= q.
Proof.
  intros Hq. pose proof (trunc_rem q) as Hr.
  assert (Hn : (0 <= Qnum q)%Z) by (unfold Qle in Hq; simpl in Hq; lia).
  pose proof (Z.rem_bound_pos (Qnum q) (Z.pos (Qden q)) Hn ltac:(lia)) as Hb.
  unfold Qle, inject_Z. simpl. nia.
Qed.



Lemma trunc_nonneg (q : Q) : 0 <= q -> (0 <= trunc q)%Z.
Proof.
  intros Hq. unfold trunc. apply Z.quot_pos; [|lia].
  unfold Qle in Hq. simpl in Hq. lia.
Qed.

Lemma trunc_inject_Z (z : Z) : trunc (inject_Z z) = z.
Proof. unfold trunc, inject_Z. simpl. apply Z.quot_1_r. Qed.

Lemma to_Q_add (a b : num) : to_Q (add a b) == to_Q a + to_Q b.
Proof.
  destruct a, b; simpl; try reflexivity.
  rewrite inject_Z_plus. reflexivity.
Qed.

Lemma to_Q_fold_add (xs : list num) (acc : num) :
  to_Q (fold_left add xs acc) == to_Q acc + Qsum xs.
Proof.
  revert acc. induction xs as [|x xs IH]; intros acc; simpl.
  - ring.
  - rewrite IH, to_Q_add. ring.
Qed.

(** [sum] computes the mathematical sum. *)
Lemma to_Q_sum (xs : list num) : to_Q (sum xs) == Qsum xs.
Proof. unfold sum. rewrite to_Q_fold_add. simpl. ring. Qed.

Lemma Qsum_app (xs ys : list num) : Qsum (xs ++ ys) == Qsum xs + Qsum ys.
Proof. induction xs as [|x xs IH]; simpl; [ring | rewrite IH; ring]. Qed.

Lemma Qsum_nonneg (xs : list num) :
  Forall (fun x => 0 <= to_Q x) xs -> 0 <= Qsum xs.
Proof.
  induction 1 as [|x xs Hx _ IH]; simpl; [apply Qle_refl|].
  replace 0 with (0 + 0) by reflexivity. now apply Qplus_le_compat.
Qed.

End NumberFacts.

(** ** The validated query loop *)

Section QueryLoopFacts.
Import LlmUtils.
Context {P : Type}.
Variable truthy : P -> bool.
Variable llm : nat -> string -> option P.
Variable prompt : string.
Variable validator_fn : P -> bool * option string.

Lemma loop_post_cons (left i : nat) (a : attempt P) (r : option P) (log : list (attempt P)) :
  extracted a = llm i (prompt_sent a) ->
  ~ accepted truthy validator_fn a ->
  loop_post truthy llm validator_fn left (S i) (r, log) ->
  loop_post truthy llm validator_fn (S left) i (r, a :: log).
Proof.
  intros Hcall Hrej (Hlen & Hcalls & Hres). repeat split.
  - simpl. lia.
  - intros [|k] b Hb; simpl in Hb.
    + injection Hb as <-. now rewrite Nat.add_0_r.
    + rewrite <- Nat.add_succ_comm. now apply Hcalls.
  - destruct r as [d|].
    + destruct Hres as (earlier & last & -> & Hlast & Ht & Hv & Hearlier).
      exists (a :: earlier), last. repeat split; auto.
    + destruct Hres as [Hfull Hnone]. split; [simpl; lia | now constructor].
Qed.

Lemma retry_loop_post (left : nat) :
  forall i current_prompt,
    loop_post truthy llm validator_fn left i
      (retry_loop truthy llm left i prompt current_prompt validator_fn).
Proof.
  induction left as [|left IH]; intros i cur.
  - simpl. repeat split; auto. intros k a Hk. discriminate.
  - simpl.
    destruct (llm i cur) as [d|] eqn:Hd.
    + destruct (truthy d) eqn:Ht.
      * destruct (validator_fn d) as [is_valid error_msg] eqn:Hv.
        destruct is_valid.
        -- repeat split.
           ++ simpl. lia.
           ++ intros [|k] a Hk; simpl in Hk; [|destruct k; discriminate].
              injection Hk as <-. simpl. now rewrite Nat.add_0_r.
           ++ exists [], (Attempt cur (Some d)). rewrite Hv. repeat split; auto.
        -- specialize (IH (S i) (invalid_feedback prompt error_msg)).
           destruct (retry_loop _ _ left (S i) prompt _ validator_fn) as [r log].
           apply loop_post_cons; auto.
           intros (d' & Hd' & _ & Hacc). simpl in Hd'. injection Hd' as <-.
           rewrite Hv in Hacc. discriminate.
      * specialize (IH (S i) (not_json_feedback prompt)).
        destruct (retry_loop _ _ left (S i) prompt _ validator_fn) as [r log].
        apply loop_post_cons; auto.
        intros (d' & Hd' & Ht' & _). simpl in Hd'. injection Hd' as <-. congruence.
    + specialize (IH (S i) (not_json_feedback prompt)).
      destruct (retry_loop _ _ left (S i) prompt _ validator_fn) as [r log].
      apply loop_post_cons; auto.
      intros (d' & Hd' & _). simpl in Hd'. discriminate.
Qed.

End QueryLoopFacts.

(** C8 (as stated) fails: with a validator that accepts everything, a first
    completion that extracts to the empty list [[]] is a payload the
    validator accepts, yet the loop treats it as "not JSON", asks again and
    returns the payload of the second attempt. *)
Lemma query_loop_skips_empty_payload :
  ~ (forall (llm : nat -> string -> option (LlmUtils.payload nat))
            (validator_fn : LlmUtils.payload nat -> bool * option string)
            (d : LlmUtils.payload nat),
        llm 0%nat "p" = Some d ->
        fst (validator_fn d) = true ->
        fst (LlmUtils.query_llama_with_validation
               LlmUtils.payload_truthy llm "p" validator_fn 3) = Some d).
Proof.
  intros H.
  specialize (H (fun k _ => match k with
                            | O => Some (LlmUtils.PList [])
                            | S _ => Some (LlmUtils.PList [1%nat])
                            end)
                (fun _ => (true, None)) (LlmUtils.PList []) eq_refl eq_refl).
  vm_compute in H. discriminate.
Qed.

(** C8 (amended): the loop makes at most [max_retries + 1] attempts, each
    one call of the completion-and-extraction step, in sequence.  It
    returns the payload of the first attempt whose extraction is non-empty
    (truthy) and accepted by the validator, and stops there; when no
    attempt among the [max_retries + 1] is such, it returns [None]. *)
Theorem query_loop_first_truthy_accepted
        {P : Type} (truthy : P -> bool) (llm : nat -> string -> option P)
        (prompt : string) (validator_fn : P -> bool * option string) (max_retries : Z) :
  let '(result, log) :=
    LlmUtils.query_llama_with_validation truthy llm prompt validator_fn max_retries in
  (length log <= Z.to_nat (max_retries + 1))%nat /\
  (forall k a, log !! k = Some a ->
               LlmUtils.extracted a = llm k (LlmUtils.prompt_sent a)) /\
  match result with
  | Some d =>
      exists earlier last,
        log = earlier ++ [last] /\ LlmUtils.extracted last = Some d /\
        truthy d = true /\ fst (validator_fn d) = true /\
        Forall (fun a => ~ LlmUtils.accepted truthy validator_fn a) earlier
  | None =>
      length log = Z.to_nat (max_retries + 1) /\
      Forall (fun a => ~ LlmUtils.accepted truthy validator_fn a) log
  end.
Proof.
  unfold LlmUtils.query_llama_with_validation.
  pose proof (retry_loop_post truthy llm prompt validator_fn
                (Z.to_nat (max_retries + 1)) 0%nat prompt) as H.
  destruct (LlmUtils.retry_loop _ _ _ _ _ _ _) as [result log].
  exact H.
Qed.

(** ** The profile sanitizer *)

Section SanitizerFacts.
Import Py Model ProfileGenerator.













End SanitizerFacts.



(** ** The billing engine *)

Section BillingFacts.
Import Py Model LlmUtils BillingEngine.

Lemma elem_of_concat {A : Type} (x : A) (ls : list (list A)) :
  x ∈ concat ls -> exists l, x ∈ l /\ In l ls.
Proof.
  intros Hx. apply list_elem_of_In, in_concat in Hx as (l & Hl & Hx).
  exists l. split; [now apply list_elem_of_In | exact Hl].
Qed.

(** The fallback list is made of blocks of five records, one block per
    month. *)
Lemma fallback_blocks_lookup (budget : num) (months : list string) (i j : nat) (m : string) :
  months !! i = Some m -> (j < 5)%nat ->
  concat (List.map (fallback_month budget) months) !! (5 * i + j)%nat
  = fallback_month budget m !! j.
Proof.
  revert i. induction months as [|m0 months IH]; intros i Hi Hj; [discriminate|].
  destruct i as [|i]; simpl in Hi.
  - injection Hi as ->. rewrite Nat.mul_0_r. simpl (0 + j)%nat.
    change (concat (List.map (fallback_month budget) (m :: months)))
      with (fallback_month budget m ++ concat (List.map (fallback_month budget) months)).
    apply lookup_app_l. simpl. lia.
  - change (concat (List.map (fallback_month budget) (m0 :: months)))
      with (fallback_month budget m0 ++ concat (List.map (fallback_month budget) months)).
    rewrite lookup_app_r by (simpl; lia).
    replace (5 * S i + j - length (fallback_month budget m0))%nat with (5 * i + j)%nat
      by (simpl; lia).
    now apply IH.
Qed.

Lemma fallback_record_cost (budget : num) (m : string) (r : BillingRecord) :
  r ∈ fallback_month budget m ->
  exists share, cost_inr r = share_of budget share /\ (0 <= share)%Q.
Proof.
  intros Hr. unfold fallback_month in Hr.
  repeat (apply elem_of_cons in Hr as [-> | Hr];
          [eexists; split; [reflexivity | discriminate] |]).
  now apply elem_of_nil in Hr.
Qed.

Lemma elem_of_fallback (budget : num) (months : list string) (r : BillingRecord) :
  r ∈ _generate_fallback budget months ->
  exists m, m ∈ months /\ r ∈ fallback_month budget m.
Proof.
  unfold _generate_fallback. intros Hr.
  apply (subseteq_take 20) in Hr.
  apply elem_of_concat in Hr as (block & Hr & Hblock).
  apply in_map_iff in Hblock as (m & <- & Hm).
  exists m. split; [now apply list_elem_of_In | exact Hr].
Qed.

(** Which months have a block in the table of groups. *)
Lemma dict_keys_subseteq (months : list string) (m : string) :
  m ∈ dict_keys months -> m ∈ months.
Proof.
  induction months as [|m0 months IH]; simpl; intros Hm; [exact Hm|].
  apply elem_of_cons in Hm as [-> | Hm]; [left|].
  right. apply IH. apply list_elem_of_In in Hm. apply filter_In in Hm as [Hm _].
  now apply list_elem_of_In.
Qed.

Section Normalizer.
Variable float_of_string : string -> option Q.
Variable random_uniform : string -> Q.

(** Every repaired record carries an integer cost. *)
Lemma repair_cost_int (raw : RawBilling) (r : BillingRecord) :
  repair float_of_string raw = Some r ->
  exists q, py_float float_of_string <$> raw_cost_inr raw = Some (Some q)
            /\ cost_inr r = NInt (trunc q).
Proof.
  unfold repair.
  destruct (raw_month raw), (raw_service raw), (raw_cost_inr raw) as [c|]; try discriminate.
  destruct (py_float float_of_string c) as [q|] eqn:Hq; [|discriminate].
  intros [= <-]. exists q. simpl. now rewrite Hq.
Qed.

(** A record of the normalised list comes from a valid record of an
    expected month, and its cost is the rescaled one, floored at 10. *)
Lemma elem_of_normalize (budget : num) (months : list string)
      (valid_recs : list BillingRecord) (r : BillingRecord) :
  r ∈ normalize random_uniform budget months valid_recs ->
  exists r0 z, r0 ∈ valid_recs /\ month r0 ∈ months /\
               r = with_cost r0 (NInt (Z.max 10 z)).
Proof.
  unfold normalize. intros Hr.
  apply (subseteq_take 20) in Hr.
  apply elem_of_concat in Hr as (block & Hr & Hblock).
  apply in_map_iff in Hblock as ([m recs] & <- & Hgroup).
  apply in_map_iff in Hgroup as (m' & [= -> <-] & Hm).
  destruct (List.filter _ valid_recs) as [|r1 recs] eqn:Hrecs; [now apply elem_of_nil in Hr|].
  unfold scale_group in Hr. rewrite <- Hrecs in Hr.
  apply list_elem_of_In, in_map_iff in Hr as (r0 & <- & Hr0).
  apply filter_In in Hr0 as [Hr0 Hmonth]. apply String.eqb_eq in Hmonth.
  eexists r0, _. repeat split.
  - now apply list_elem_of_In.
  - rewrite Hmonth. apply dict_keys_subseteq. now apply list_elem_of_In.
Qed.

(** When no valid record falls in an expected month, nothing is left. *)
Lemma normalize_out_of_window (budget : num) (months : list string)
      (valid_recs : list BillingRecord) :
  (forall r, r ∈ valid_recs -> month r ∉ months) ->
  normalize random_uniform budget months valid_recs = [].
Proof.
  intros Hout.
  destruct (normalize random_uniform budget months valid_recs) as [|r rest] eqn:Hn;
    [reflexivity|].
  assert (Hr : r ∈ normalize random_uniform budget months valid_recs)
    by (rewrite Hn; left).
  apply elem_of_normalize in Hr as (r0 & z & Hr0 & Hm & _).
  now apply Hout in Hr0.
Qed.

End Normalizer.

End BillingFacts.

(** C9: the fallback emits, for each of the first four expected months
    (the cap of 20 records is four blocks of five), a record with service
    "Database" and cost [int(budget * 0.3)], which is not negative for a
    budget that is not; the list therefore holds a Database record as soon
    as one month is expected.  The fallback takes the budget and the months
    only: when the completion fails, [generate_mock_billing] returns this
    list whatever the tech stack of the profile says. *)
Theorem fallback_always_bills_database (budget : Py.num) (months : list string) :
  (0 <= Py.to_Q budget)%Q ->
  months <> [] ->
  (forall i m, (i < 4)%nat -> months !! i = Some m ->
     exists r, BillingEngine._generate_fallback budget months !! (5 * i + 1)%nat = Some r /\
               Model.month r = m /\ Model.service r = "Database" /\
               Model.cost_inr r = Py.NInt (Py.trunc (Py.to_Q budget * 0.3)) /\
               0 <= Py.trunc (Py.to_Q budget * 0.3)) /\
  (exists r, r ∈ BillingEngine._generate_fallback budget months /\
             Model.service r = "Database") /\
  (forall now float_of_string random_uniform prompt_fn profile,
     BillingEngine.generate_mock_billing now float_of_string random_uniform prompt_fn
       (fun _ => None) profile
     = BillingEngine._generate_fallback
         (default (Py.NInt 5000) (Model.budget_inr_per_month profile))
         (BillingEngine.get_recent_months now 4)).
Proof.
  intros Hbudget Hmonths.
  assert (Hat : forall i m, (i < 4)%nat -> months !! i = Some m ->
     exists r, BillingEngine._generate_fallback budget months !! (5 * i + 1)%nat = Some r /\
               Model.month r = m /\ Model.service r = "Database" /\
               Model.cost_inr r = Py.NInt (Py.trunc (Py.to_Q budget * 0.3)) /\
               0 <= Py.trunc (Py.to_Q budget * 0.3)).
  { intros i m Hi Hm. eexists. split.
    - unfold BillingEngine._generate_fallback.
      rewrite lookup_take_lt by lia.
      rewrite (fallback_blocks_lookup budget months i 1 m Hm) by lia.
      reflexivity.
    - split; [reflexivity | split; [reflexivity | split; [reflexivity|]]].
      apply trunc_nonneg.
      apply Qmult_le_0_compat; [exact Hbudget | discriminate]. }
  split; [exact Hat | split].
  - destruct months as [|m months]; [contradiction|].
    destruct (Hat 0%nat m ltac:(lia) eq_refl) as (r & Hr & _ & Hsvc & _).
    exists r. split; [|exact Hsvc].
    eapply list_elem_of_lookup_2, Hr.
  - reflexivity.
Qed.

(** Witness for C9: the SQLite scenario, budget 15000, in November 2026. *)
Lemma fallback_always_bills_database_witness :
  exists r, r ∈ BillingEngine._generate_fallback (Py.NInt 15000)
                  (BillingEngine.get_recent_months (2026, 11) 4) /\
            Model.service r = "Database".
Proof.
  apply (fallback_always_bills_database (Py.NInt 15000)
           (BillingEngine.get_recent_months (2026, 11) 4)).
  - vm_compute. discriminate.
  - vm_compute. discriminate.
Defined.

(** C10: on the path that does not fall back (the completion is a list
    with at least one valid record), every returned record has one of the
    four recent months; valid records of other months are dropped without
    a fallback, so when every valid record lies outside the window the
    result is the empty list. *)
Theorem normalized_months_in_window
        (now : Z * Z) (float_of_string : string -> option Q)
        (random_uniform : string -> Q)
        (prompt_fn : Model.Profile -> Py.num -> list string -> bool -> string)
        (profile : Model.Profile) (raw_recs : list BillingEngine.RawBilling) :
  BillingEngine.valid_records float_of_string raw_recs <> [] ->
  let out := BillingEngine.generate_mock_billing now float_of_string random_uniform
               prompt_fn (fun _ => Some (LlmUtils.PList raw_recs)) profile in
  let months := BillingEngine.get_recent_months now 4 in
  (forall r, r ∈ out -> Model.month r ∈ months) /\
  ((forall r, r ∈ BillingEngine.valid_records float_of_string raw_recs ->
              Model.month r ∉ months) ->
   out = []).
Proof.
  intros Hvalid out months. subst out.
  unfold BillingEngine.generate_mock_billing.
  destruct raw_recs as [|raw raw_recs]; [now contradiction Hvalid|].
  destruct (BillingEngine.valid_records float_of_string (raw :: raw_recs))
    as [|v valid] eqn:Hv; [now contradiction Hvalid|].
  split.
  - intros r Hr.
    apply elem_of_normalize in Hr as (r0 & z & _ & Hm & ->). exact Hm.
  - intros Hout. now apply normalize_out_of_window.
Qed.

(** Witness for C10: the prompt's own example record, dated 2025-01, as
    the whole completion in November 2026. *)
Lemma normalized_months_in_window_witness :
  BillingEngine.generate_mock_billing (2026, 11) (fun _ => None) (fun _ => 1%Q)
    (fun _ _ _ _ => EmptyString)
    (fun _ => Some (LlmUtils.PList [Scenario.template_record])) Scenario.sqlite_profile
  = [].
Proof.
  apply (normalized_months_in_window (2026, 11) (fun _ => None) (fun _ => 1%Q)
           (fun _ _ _ _ => EmptyString) Scenario.sqlite_profile [Scenario.template_record]).
  - vm_compute. discriminate.
  - intros r Hr. vm_compute in Hr.
    apply list_elem_of_singleton in Hr as ->.
    vm_compute. intros Hin.
    repeat (apply elem_of_cons in Hin as [Hin | Hin]; [discriminate Hin|]).
    now apply elem_of_nil in Hin.
Defined.

(** C4 at the failing input: in November 2026 a completion that repeats
    the example record of the prompt (month 2025-01) yields an empty
    billing list, not the fallback. *)
Theorem billing_empty_when_months_out_of_window
        (float_of_string : string -> option Q) (random_uniform : string -> Q)
        (prompt_fn : Model.Profile -> Py.num -> list string -> bool -> string)
        (profile : Model.Profile) :
  BillingEngine.generate_mock_billing (2026, 11) float_of_string random_uniform prompt_fn
    (fun _ => Some (LlmUtils.PList [Scenario.template_record])) profile
  = [].
Proof. reflexivity. Qed.

(** ** The recommendation post-processor *)

Section ProcessRecsFacts.
Import Py Model Analyzer.
Local Arguments Nat.min : simpl never.

Lemma kept_ok_snoc (recs : list Rec) (seen : gset string) (r : Rec) (z : Z) :
  kept_ok (recs, seen) ->
  dedup_key r ∉ seen ->
  potential_savings r = Some (NInt z) ->
  kept_ok (recs ++ [r], seen ∪ {[ dedup_key r ]}).
Proof.
  intros (-> & Hnodup & Hint) Hfresh Hz. repeat split.
  - rewrite fmap_app. symmetry. apply list_to_set_snoc_L.
  - rewrite fmap_app. apply NoDup_app. repeat split; [exact Hnodup| |].
    + intros k Hk Hk'. apply list_elem_of_singleton in Hk' as ->.
      apply Hfresh. now apply elem_of_list_to_set.
    + simpl. apply NoDup_singleton.
  - apply Forall_app. split; [exact Hint|]. constructor; [|constructor]. now exists z.
Qed.

Lemma filter_step_ok (is_sqlite : bool) (st : list Rec * gset string) (r : Rec) :
  kept_ok st -> kept_ok (filter_step is_sqlite st r).
Proof.
  destruct st as [cleaned seen]. intros Hok. unfold filter_step.
  destruct (negb (nonempty (stripped_title (cleanup r)))); [exact Hok|].
  destruct (bool_decide (dedup_key (cleanup r) ∈ seen)) eqn:Hseen; [exact Hok|].
  destruct (contains "transfer acceleration" _); [exact Hok|].
  destruct (is_sqlite && is_database (cleanup r)); [exact Hok|].
  destruct (positive (savings (cleanup r)) || _); [|exact Hok].
  eapply kept_ok_snoc; [exact Hok | | reflexivity].
  now apply bool_decide_eq_false in Hseen.
Qed.

Lemma fold_filter_step_ok (is_sqlite : bool) (recs : list Rec) (st : list Rec * gset string) :
  kept_ok st -> kept_ok (fold_left (filter_step is_sqlite) recs st).
Proof.
  revert st. induction recs as [|r recs IH]; intros st Hok; simpl; [exact Hok|].
  apply IH, filter_step_ok, Hok.
Qed.

Lemma filtered_ok (is_sqlite : bool) (recs : list Rec) : kept_ok (filtered is_sqlite recs).
Proof.
  apply fold_filter_step_ok. repeat split; [apply NoDup_nil_2 | constructor].
Qed.

(** Sorting rearranges. *)
Lemma insert_desc_perm (x : Rec) (l : list Rec) : insert_desc x l ≡ₚ x :: l.
Proof.
  induction l as [|y l IH]; simpl; [reflexivity|].
  destruct (num_ltb (savings x) (savings y)); [|reflexivity].
  rewrite IH. apply Permutation_swap.
Qed.

Lemma sorted_desc_perm (l : list Rec) : sorted_desc l ≡ₚ l.
Proof.
  induction l as [|x l IH]; simpl; [reflexivity|].
  rewrite insert_desc_perm. now constructor.
Qed.

Lemma kept_ok_perm (l l' : list Rec) (seen : gset string) :
  l ≡ₚ l' -> kept_ok (l, seen) -> kept_ok (l', seen).
Proof.
  intros Hperm (-> & Hnodup & Hint). repeat split.
  - apply set_eq. intros k. rewrite !elem_of_list_to_set. now rewrite Hperm.
  - now rewrite <- Hperm.
  - now rewrite <- Hperm.
Qed.

(** The built-in defaults: their titles carry no outer white space, so the
    key the default loop uses is the key of the filter loop, and the seven
    keys differ. *)
Lemma default_key_dedup_key (d : Rec) : d ∈ defaults -> default_key d = dedup_key d.
Proof.
  intros Hd. unfold defaults in Hd.
  repeat (apply elem_of_cons in Hd as [-> | Hd]; [reflexivity|]).
  now apply elem_of_nil in Hd.
Qed.

Lemma default_keys_nodup : NoDup (default_key <$> defaults).
Proof. apply (bool_decide_unpack _). vm_compute. exact I. Qed.

Lemma default_savings_int (d : Rec) :
  d ∈ defaults -> exists z, potential_savings d = Some (NInt z).
Proof.
  intros Hd. unfold defaults in Hd.
  repeat (apply elem_of_cons in Hd as [-> | Hd]; [eexists; reflexivity|]).
  now apply elem_of_nil in Hd.
Qed.

Lemma default_step_ok (st : list Rec * gset string) (d : Rec) :
  d ∈ defaults -> kept_ok st -> kept_ok (default_step st d).
Proof.
  destruct st as [recs seen]. intros Hd Hok. unfold default_step.
  destruct (6 <=? length recs)%nat; [exact Hok|].
  destruct (bool_decide (default_key d ∈ seen)) eqn:Hseen; [exact Hok|].
  apply bool_decide_eq_false in Hseen.
  destruct (default_savings_int d Hd) as [z Hz].
  rewrite (default_key_dedup_key d Hd) in *.
  eapply kept_ok_snoc; eauto.
Qed.

Lemma fold_default_step_ok (ds : list Rec) (st : list Rec * gset string) :
  (forall d, d ∈ ds -> d ∈ defaults) ->
  kept_ok st -> kept_ok (fold_left default_step ds st).
Proof.
  revert st. induction ds as [|d ds IH]; intros st Hds Hok; simpl; [exact Hok|].
  apply IH; [intros d' Hd'; apply Hds; now right|].
  apply default_step_ok; [apply Hds; left | exact Hok].
Qed.


(** Adding or removing a key that no item of [ds] has does not change
    which items of [ds] are still available. *)
Lemma available_fresh_key (ds : list Rec) (seen seen' : gset string) (k : string) :
  k ∉ default_key <$> ds ->
  (forall k', k' ≠ k -> k' ∈ seen' <-> k' ∈ seen) ->
  filter (fun d => default_key d ∉ seen') ds = filter (fun d => default_key d ∉ seen) ds.
Proof.
  intros Hk Hsame. induction ds as [|d ds IH]; [reflexivity|].
  rewrite fmap_cons in Hk. apply not_elem_of_cons in Hk as [Hd Hk].
  specialize (IH Hk).
  destruct (decide (default_key d ∈ seen)) as [Hin | Hout].
  - rewrite !filter_cons_False; [exact IH | tauto | rewrite Hsame; [tauto | congruence]].
  - rewrite !filter_cons_True; [now rewrite IH | exact Hout | rewrite Hsame; [exact Hout | congruence]].
Qed.

Lemma default_step_unfold (recs : list Rec) (seen : gset string) (d : Rec) :
  default_step (recs, seen) d
  = if (6 <=? length recs)%nat then (recs, seen)
    else if bool_decide (default_key d ∈ seen) then (recs, seen)
         else (recs ++ [d], seen ∪ {[ default_key d ]}).
Proof. reflexivity. Qed.

(** The default loop stops at six items or when the available defaults
    run out, whichever comes first. *)
Lemma default_loop_length (ds : list Rec) :
  NoDup (default_key <$> ds) ->
  forall recs seen,
    (length recs <= 6)%nat ->
    length (fst (fold_left default_step ds (recs, seen)))
    = Nat.min 6 (length recs + length (filter (fun d => default_key d ∉ seen) ds)).
Proof.
  induction ds as [|d ds IH]; intros Hnodup recs seen Hlen.
  - simpl. lia.
  - rewrite fmap_cons in Hnodup. apply NoDup_cons in Hnodup as [Hd Hnodup].
    specialize (IH Hnodup).
    change (fold_left default_step (d :: ds) (recs, seen))
      with (fold_left default_step ds (default_step (recs, seen) d)).
    rewrite default_step_unfold.
    destruct (6 <=? length recs)%nat eqn:Hfull.
    + apply Nat.leb_le in Hfull. rewrite IH by exact Hlen. lia.
    + apply Nat.leb_gt in Hfull.
      destruct (bool_decide (default_key d ∈ seen)) eqn:Hseen.
      * apply bool_decide_eq_true in Hseen.
        rewrite IH by exact Hlen. rewrite filter_cons_False by tauto. reflexivity.
      * apply bool_decide_eq_false in Hseen.
        rewrite IH by (rewrite length_app; simpl; lia).
        rewrite filter_cons_True by exact Hseen.
        rewrite (available_fresh_key ds seen (seen ∪ {[default_key d]}) (default_key d) Hd)
          by (intros k' Hne; rewrite elem_of_union, elem_of_singleton; tauto).
        rewrite length_app. simpl. lia.
Qed.

(** At most [size seen] of the defaults are taken. *)
Lemma available_defaults_bound (ds : list Rec) :
  NoDup (default_key <$> ds) ->
  forall seen : gset string,
    (length ds <= length (filter (fun d => default_key d ∉ seen) ds) + size seen)%nat.
Proof.
  induction ds as [|d ds IH]; intros Hnodup seen; [simpl; lia|].
  rewrite fmap_cons in Hnodup. apply NoDup_cons in Hnodup as [Hd Hnodup].
  destruct (decide (default_key d ∈ seen)) as [Hin | Hout].
  - rewrite filter_cons_False by tauto.
    specialize (IH Hnodup (seen ∖ {[default_key d]})).
    rewrite (available_fresh_key ds seen (seen ∖ {[default_key d]}) (default_key d) Hd)
      in IH by (intros k' Hne; rewrite elem_of_difference, elem_of_singleton; tauto).
    rewrite size_difference in IH by (now apply singleton_subseteq_l).
    rewrite size_singleton in IH.
    assert (size seen ≠ 0)%nat.
    { intros Hz. apply size_empty_inv in Hz. rewrite Hz in Hin.
      now apply not_elem_of_empty in Hin. }
    simpl. lia.
  - rewrite filter_cons_True by exact Hout.
    specialize (IH Hnodup seen). simpl. lia.
Qed.

(** The post-processor always returns between six and ten items. *)
Lemma process_recs_length (recs : list Rec) (profile : Profile) (is_sqlite : bool)
      (total_cost : Q) :
  (6 <= length (_process_recs recs profile is_sqlite total_cost) <= 10)%nat.
Proof.
  unfold _process_recs.
  pose proof (filtered_ok is_sqlite recs) as Hok.
  destruct (filtered is_sqlite recs) as [cleaned seen].
  destruct Hok as (Hseen & Hnodup & _).
  pose proof (Permutation_length (sorted_desc_perm cleaned)) as Hsorted.
  destruct (length (sorted_desc cleaned) <? 6)%nat eqn:Hfew.
  - apply Nat.ltb_lt in Hfew.
    rewrite length_take, (default_loop_length defaults default_keys_nodup) by lia.
    pose proof (available_defaults_bound defaults default_keys_nodup seen) as Havail.
    assert (Hsize : size seen = length cleaned).
    { rewrite Hseen, size_list_to_set by exact Hnodup. apply length_fmap. }
    change (length defaults) with 7%nat in Havail. lia.
  - apply Nat.ltb_ge in Hfew. rewrite length_take. lia.
Qed.

(** The keys of the returned items differ. *)
Lemma process_recs_keys_nodup (recs : list Rec) (profile : Profile) (is_sqlite : bool)
      (total_cost : Q) :
  NoDup (dedup_key <$> _process_recs recs profile is_sqlite total_cost) /\
  Forall (fun r => exists z, potential_savings r = Some (NInt z))
         (_process_recs recs profile is_sqlite total_cost).
Proof.
  unfold _process_recs.
  pose proof (filtered_ok is_sqlite recs) as Hok.
  destruct (filtered is_sqlite recs) as [cleaned seen].
  apply (kept_ok_perm _ (sorted_desc cleaned)) in Hok; [|symmetry; apply sorted_desc_perm].
  assert (Hfinal : exists seen',
    kept_ok (if (length (sorted_desc cleaned) <? 6)%nat
             then fst (fold_left default_step defaults (sorted_desc cleaned, seen))
             else sorted_desc cleaned, seen')).
  { destruct (length (sorted_desc cleaned) <? 6)%nat; [|now exists seen].
    pose proof (fold_default_step_ok defaults _ (fun d Hd => Hd) Hok) as Hd.
    destruct (fold_left default_step defaults (sorted_desc cleaned, seen)) as [out seen'].
    now exists seen'. }
  destruct Hfinal as (seen' & _ & Hnodup & Hint). split.
  - rewrite fmap_take. eauto using sublist_NoDup, sublist_take.
  - apply Forall_take, Hint.
Qed.

End ProcessRecsFacts.

(** C3: the post-processor returns between six and ten items for every
    candidate list, the empty one included, when some built-in default has
    a key that the filter loop has not recorded.  (The premise holds
    whenever fewer than six candidates are retained, so the bound needs no
    premise: [process_recs_length].) *)
Theorem process_recs_between_6_and_10
        (recs : list Analyzer.Rec) (profile : Model.Profile) (is_sqlite : bool)
        (total_cost : Q) :
  (exists d, d ∈ Analyzer.defaults /\
             Analyzer.default_key d ∉ snd (Analyzer.filtered is_sqlite recs)) ->
  (6 <= length (Analyzer._process_recs recs profile is_sqlite total_cost) <= 10)%nat.
Proof. intros _. apply process_recs_length. Qed.

(** Witness for C3: the empty candidate list. *)
Lemma process_recs_between_6_and_10_witness :
  (6 <= length (Analyzer._process_recs [] Scenario.sqlite_profile true 0) <= 10)%nat.
Proof.
  apply process_recs_between_6_and_10.
  exists (Analyzer.default_rec "Enable MFA" "Security" 0 "Security" ["AWS"]
            "Secure root account." ["Turn on MFA"] "Low" "Low").
  split.
  - unfold Analyzer.defaults. do 2 right. left.
  - simpl. apply not_elem_of_empty.
Defined.

(** C5 (as stated) fails: two titles that differ only in their sixteenth
    character and start with a blank have different keys (the key is taken
    after stripping) and are both returned, with the same lowercased
    fifteen-character title prefix. *)
Lemma process_recs_shared_title_prefix :
  ~ NoDup ((fun r => Analyzer.key_of (default EmptyString (Analyzer.rec_title r)))
             <$> Analyzer._process_recs
                   [Scenario.candidate " abcdefghijklmnX" 700 "rightsizing";
                    Scenario.candidate " abcdefghijklmnY" 500 "rightsizing"]
                   Scenario.sqlite_profile false 0).
Proof. apply (bool_decide_eq_false_1 _). vm_compute. reflexivity. Qed.

(** C5 (amended): no two returned items, appended defaults included, share
    the dedup key, which is the lowercased fifteen-character prefix of the
    title stripped of surrounding white space. *)
Theorem process_recs_dedup_keys_differ
        (recs : list Analyzer.Rec) (profile : Model.Profile) (is_sqlite : bool)
        (total_cost : Q) :
  NoDup (Analyzer.dedup_key <$> Analyzer._process_recs recs profile is_sqlite total_cost).
Proof. apply process_recs_keys_nodup. Qed.

(** ** The SQLite redistribution *)

Section RedistributionFacts.
Import Py Model Analyzer.
Local Open Scope Q_scope.

Lemma to_Q_total_cost (billing : list BillingRecord) :
  to_Q (total_cost billing) == Qsum (List.map cost_inr billing).
Proof. apply to_Q_sum. Qed.

(** Splitting a billing list by a test splits its total. *)
Lemma Qsum_split (f : BillingRecord -> bool) (billing : list BillingRecord) :
  Qsum (List.map cost_inr billing)
  == Qsum (List.map cost_inr (List.filter f billing))
     + Qsum (List.map cost_inr (List.filter (fun r => negb (f r)) billing)).
Proof.
  induction billing as [|r billing IH]; simpl; [reflexivity|].
  destruct (f r); simpl; rewrite IH; ring.
Qed.

(** Adding [avg_add] to every Compute record adds it once per such
    record. *)
Lemma Qsum_bump (avg_add : Q) (billing : list BillingRecord) :
  Qsum (List.map cost_inr
          (List.map (fun r => if is_service "Compute" r
                         then with_cost r (add (cost_inr r) (NFloat avg_add))
                         else r) billing))
  == Qsum (List.map cost_inr billing)
     + avg_add * inject_Z (Z.of_nat (length (List.filter (is_service "Compute") billing))).
Proof.
  induction billing as [|r billing IH]; [simpl; ring|].
  cbn [List.map List.filter Qsum foldr]. fold (Qsum (List.map cost_inr billing)).
  destruct (is_service "Compute" r).
  - cbn [cost_inr with_cost length]. fold Qsum in IH |- *. rewrite IH, to_Q_add.
    rewrite Nat2Z.inj_succ, <- Z.add_1_r, inject_Z_plus. simpl (to_Q (NFloat avg_add)).
    ring.
  - fold Qsum in IH |- *. rewrite IH. ring.
Qed.

(** The two ways through [redistribute]. *)
Lemma redistribute_cases (billing : list BillingRecord) :
  let db_cost := sum (List.map cost_inr (List.filter (is_service "Database") billing)) in
  let rest := List.filter (fun r => negb (is_service "Database" r)) billing in
  let compute_recs := List.filter (is_service "Compute") rest in
  (compute_recs <> [] /\ 0 < to_Q db_cost /\
   redistribute billing
   = List.map (fun r => if is_service "Compute" r
                   then with_cost r (add (cost_inr r)
                          (NFloat (truediv db_cost (NInt (Z.of_nat (length compute_recs))))))
                   else r) rest)
  \/ ((compute_recs = [] \/ to_Q db_cost <= 0) /\ redistribute billing = rest).
Proof.
  intros db_cost rest compute_recs. unfold redistribute.
  fold db_cost. fold rest. fold compute_recs.
  destruct (bool_decide (compute_recs = [])) eqn:Hempty.
  - right. apply bool_decide_eq_true in Hempty. split; [now left | reflexivity].
  - apply bool_decide_eq_false in Hempty.
    destruct (Qle_bool (to_Q db_cost) 0) eqn:Hle.
    + right. apply Qle_bool_iff in Hle. split; [now right | reflexivity].
    + left. repeat split; [exact Hempty|].
      apply Qnot_le_lt. intros Hle'. apply Qle_bool_iff in Hle'. congruence.
Qed.

Lemma filter_nil_no_elem (f : BillingRecord -> bool) (l : list BillingRecord) :
  List.filter f l = [] -> forall r, r ∈ l -> f r = false.
Proof.
  intros Hnil r Hr. destruct (f r) eqn:Hf; [|reflexivity].
  assert (Hin : In r (List.filter f l)) by (apply filter_In; split; [now apply list_elem_of_In | exact Hf]).
  rewrite Hnil in Hin. contradiction.
Qed.

(** No Database record survives. *)
Lemma redistribute_no_database (billing : list BillingRecord) (r : BillingRecord) :
  r ∈ redistribute billing -> service r <> "Database".
Proof.
  intros Hr Hsvc.
  assert (Hrest : forall r0, In r0 (List.filter (fun r => negb (is_service "Database" r)) billing) ->
                             service r0 <> "Database").
  { intros r0 Hr0 Hs. apply filter_In in Hr0 as [_ Hneg].
    unfold is_service in Hneg. rewrite Hs in Hneg. discriminate. }
  destruct (redistribute_cases billing) as [(_ & _ & Heq) | (_ & Heq)];
    rewrite Heq in Hr; apply list_elem_of_In in Hr.
  - apply in_map_iff in Hr as (r0 & <- & Hr0).
    apply (Hrest r0 Hr0). now destruct (is_service "Compute" r0).
  - now apply (Hrest r Hr).
Qed.

(** A Compute record of the result comes from one of the list. *)
Lemma redistribute_compute_iff (billing : list BillingRecord) :
  (exists r, r ∈ redistribute billing /\ service r = "Compute")
  <-> List.filter (is_service "Compute")
        (List.filter (fun r => negb (is_service "Database" r)) billing) <> [].
Proof.
  set (rest := List.filter (fun r => negb (is_service "Database" r)) billing).
  assert (Hrest : (exists r, r ∈ rest /\ service r = "Compute")
                  <-> List.filter (is_service "Compute") rest <> []).
  { split.
    - intros (r & Hr & Hsvc) Hnil.
      pose proof (filter_nil_no_elem _ _ Hnil r Hr) as Hf.
      unfold is_service in Hf. rewrite Hsvc in Hf. discriminate.
    - intros Hne. destruct (List.filter (is_service "Compute") rest) as [|r l] eqn:Hf;
        [contradiction|].
      assert (Hin : In r (List.filter (is_service "Compute") rest)) by (rewrite Hf; now left).
      apply filter_In in Hin as [Hin Hsvc]. exists r. split; [now apply list_elem_of_In|].
      now apply String.eqb_eq in Hsvc. }
  rewrite <- Hrest.
  destruct (redistribute_cases billing) as [(_ & _ & Heq) | (_ & Heq)];
    fold rest in Heq; rewrite Heq; [|reflexivity].
  split.
  - intros (r & Hr & Hsvc). apply list_elem_of_In, in_map_iff in Hr as (r0 & <- & Hr0).
    exists r0. split; [now apply list_elem_of_In|].
    now destruct (is_service "Compute" r0).
  - intros (r & Hr & Hsvc).
    eexists. split; [apply list_elem_of_In, in_map_iff; exists r; split;
                     [reflexivity | now apply list_elem_of_In]|].
    now destruct (is_service "Compute" r).
Qed.

(** The total after the step, in both cases. *)
Lemma redistribute_total (billing : list BillingRecord) :
  let db_cost := to_Q (total_cost (List.filter (is_service "Database") billing)) in
  let compute_recs := List.filter (is_service "Compute")
                        (List.filter (fun r => negb (is_service "Database" r)) billing) in
  (compute_recs <> [] -> 0 <= db_cost ->
   to_Q (total_cost (redistribute billing)) == to_Q (total_cost billing)) /\
  (compute_recs = [] ->
   to_Q (total_cost (redistribute billing)) == to_Q (total_cost billing) - db_cost).
Proof.
  intros db_cost compute_recs. subst db_cost.
  rewrite !to_Q_total_cost.
  pose proof (Qsum_split (is_service "Database") billing) as Hsplit.
  destruct (redistribute_cases billing) as [(Hne & Hpos & Heq) | (Hcase & Heq)];
    rewrite Heq; fold compute_recs in Hne || fold compute_recs in Hcase.
  - split; [|intros Hnil; contradiction].
    intros _ _. rewrite Qsum_bump. fold compute_recs.
    unfold truediv. simpl (to_Q (NInt _)). rewrite to_Q_sum, Hsplit.
    assert (Hlen : ~ inject_Z (Z.of_nat (length compute_recs)) == 0).
    { destruct compute_recs; [contradiction|]. simpl length.
      rewrite Nat2Z.inj_succ. unfold Qeq. simpl. lia. }
    field. exact Hlen.
  - rewrite to_Q_sum in Hcase. split.
    + intros Hne Hnonneg. destruct Hcase as [Hnil | Hle]; [contradiction|].
      rewrite Hsplit. lra.
    + intros _. rewrite Hsplit. ring.
Qed.

(** Costs that are not negative stay so. *)
Lemma redistribute_nonneg (billing : list BillingRecord) :
  (forall r, r ∈ billing -> 0 <= to_Q (cost_inr r)) ->
  forall r, r ∈ redistribute billing -> 0 <= to_Q (cost_inr r).
Proof.
  intros Hall r Hr.
  assert (Hrest : forall r0, In r0 (List.filter (fun r => negb (is_service "Database" r)) billing) ->
                             0 <= to_Q (cost_inr r0)).
  { intros r0 Hr0. apply filter_In in Hr0 as [Hr0 _]. now apply Hall, list_elem_of_In. }
  destruct (redistribute_cases billing) as [(Hne & Hpos & Heq) | (_ & Heq)];
    rewrite Heq in Hr; apply list_elem_of_In in Hr.
  - apply in_map_iff in Hr as (r0 & <- & Hr0). specialize (Hrest r0 Hr0).
    destruct (is_service "Compute" r0); [|exact Hrest].
    cbn [cost_inr with_cost]. rewrite to_Q_add. simpl (to_Q (NFloat _)).
    unfold truediv. simpl (to_Q (NInt _)).
    set (compute_recs := List.filter (is_service "Compute") _) in *.
    assert (Hlen : 0 < inject_Z (Z.of_nat (length compute_recs))).
    { destruct compute_recs; [contradiction|]. simpl length.
      rewrite Nat2Z.inj_succ. unfold Qlt. simpl. lia. }
    assert (0 <= to_Q (sum (List.map cost_inr (List.filter (is_service "Database") billing)))
                 / inject_Z (Z.of_nat (length compute_recs))).
    { apply Qle_shift_div_l; [exact Hlen | lra]. }
    lra.
  - now apply Hrest.
Qed.

End RedistributionFacts.

(** C1 (as stated) fails: a billing list whose only Database record costs
    nothing and which holds no Compute record loses that record and keeps
    its total, which therefore does not strictly decrease. *)
Lemma sqlite_total_not_strictly_less :
  let billing := [Scenario.bill "Database" 0; Scenario.bill "Storage" 5] in
  let out := Analyzer.billing_after_sqlite Scenario.sqlite_profile billing in
  (~ exists r, r ∈ out /\ Model.service r = "Compute") /\
  ~ (Py.to_Q (Analyzer.total_cost out) < Py.to_Q (Analyzer.total_cost billing))%Q.
Proof.
  split.
  - intros (r & Hr & Hsvc). vm_compute in Hr.
    apply list_elem_of_singleton in Hr as ->. discriminate Hsvc.
  - vm_compute. discriminate.
Qed.

(** C1 (amended): for a profile whose database field mentions SQLite, the
    billing list after the redistribution step holds no record with
    service "Database".  When it holds a Compute record and the summed
    cost of the removed Database records is not negative, the sum of
    [cost_inr] is conserved in exact arithmetic.  When it holds no Compute
    record, the sum decreases by exactly the summed cost of the removed
    Database records, strictly so when that cost is positive. *)
Theorem sqlite_redistribution_totals
        (profile : Model.Profile) (billing : list Model.BillingRecord) :
  Model.is_sqlite_stack (default ∅ (Model.tech_stack profile)) = true ->
  let out := Analyzer.billing_after_sqlite profile billing in
  let db_cost :=
    Py.to_Q (Analyzer.total_cost (List.filter (Analyzer.is_service "Database") billing)) in
  (forall r, r ∈ out -> Model.service r <> "Database") /\
  ((exists r, r ∈ out /\ Model.service r = "Compute") ->
   (0 <= db_cost)%Q ->
   (Py.to_Q (Analyzer.total_cost out) == Py.to_Q (Analyzer.total_cost billing))%Q) /\
  ((~ exists r, r ∈ out /\ Model.service r = "Compute") ->
   (Py.to_Q (Analyzer.total_cost out) == Py.to_Q (Analyzer.total_cost billing) - db_cost)%Q /\
   ((0 < db_cost)%Q ->
    (Py.to_Q (Analyzer.total_cost out) < Py.to_Q (Analyzer.total_cost billing))%Q)).
Proof.
  intros Hsqlite out db_cost. subst out.
  unfold Analyzer.billing_after_sqlite. rewrite Hsqlite.
  destruct (redistribute_total billing) as [Hkeep Hdrop]. fold db_cost in Hkeep, Hdrop.
  split; [|split].
  - intros r. apply redistribute_no_database.
  - intros Hcompute Hnonneg. apply Hkeep; [|exact Hnonneg].
    now apply redistribute_compute_iff.
  - intros Hnone.
    assert (Hnil : List.filter (Analyzer.is_service "Compute")
                     (List.filter (fun r => negb (Analyzer.is_service "Database" r)) billing) = []).
    { destruct (List.filter (Analyzer.is_service "Compute") _) as [|r l] eqn:Hf; [reflexivity|].
      exfalso. apply Hnone, redistribute_compute_iff. rewrite Hf. discriminate. }
    specialize (Hdrop Hnil). split; [exact Hdrop|].
    intros Hpos. rewrite Hdrop. lra.
Qed.

(** Witness for C1: one Compute, one Database and one Storage record. *)
Lemma sqlite_redistribution_totals_witness :
  let billing := [Scenario.bill "Compute" 100; Scenario.bill "Database" 50;
                  Scenario.bill "Storage" 5] in
  (Py.to_Q (Analyzer.total_cost (Analyzer.billing_after_sqlite Scenario.sqlite_profile billing))
   == Py.to_Q (Analyzer.total_cost billing))%Q.
Proof.
  intros billing.
  destruct (sqlite_redistribution_totals Scenario.sqlite_profile billing) as (_ & Hkeep & _).
  - vm_compute. reflexivity.
  - apply Hkeep.
    + eexists. split; [vm_compute; left | reflexivity].
    + vm_compute. discriminate.
Defined.

(** C6 (as stated) fails: three Compute records and one Database record
    of cost 10 each; after the redistribution every Compute record costs
    10 + 10/3, which is no integer. *)
Lemma cost_inr_fraction_after_redistribution :
  exists r,
    r ∈ Analyzer.billing_after_sqlite Scenario.sqlite_profile
          [Scenario.bill "Compute" 10; Scenario.bill "Compute" 10;
           Scenario.bill "Compute" 10; Scenario.bill "Database" 10] /\
    ~ Py.integral (Model.cost_inr r).
Proof.
  eexists. split; [vm_compute; left|].
  intros [z Hz]. unfold Qeq in Hz. simpl in Hz. lia.
Qed.

(** C6 (amended): after the repair step [cost_inr] is an integer, of
    either sign.  Every record that [generate_mock_billing] returns has an
    integer cost that is not negative when the budget is not (at least 10
    on the normalised path, [int(budget * share)] on the fallback path).
    The redistribution of the analyzer keeps costs that are not negative
    so, but adds the quotient of a true division to the Compute records:
    their cost is a float, in general not a whole number. *)
Theorem cost_inr_integer_until_redistribution :
  (forall float_of_string raw_recs r,
     r ∈ BillingEngine.valid_records float_of_string raw_recs ->
     Py.is_int (Model.cost_inr r)) /\
  (forall random_uniform budget months valid_recs r,
     r ∈ BillingEngine.normalize random_uniform budget months valid_recs ->
     exists z, Model.cost_inr r = Py.NInt z /\ 10 <= z) /\
  (forall now float_of_string random_uniform prompt_fn query_llama_json profile r,
     (0 <= Py.to_Q (default (Py.NInt 5000) (Model.budget_inr_per_month profile)))%Q ->
     r ∈ BillingEngine.generate_mock_billing now float_of_string random_uniform prompt_fn
           query_llama_json profile ->
     exists z, Model.cost_inr r = Py.NInt z /\ 0 <= z) /\
  (forall profile billing,
     (forall r, r ∈ billing -> (0 <= Py.to_Q (Model.cost_inr r))%Q) ->
     forall r, r ∈ Analyzer.billing_after_sqlite profile billing ->
               (0 <= Py.to_Q (Model.cost_inr r))%Q).
Proof.
  assert (Hnorm : forall random_uniform budget months valid_recs r,
     r ∈ BillingEngine.normalize random_uniform budget months valid_recs ->
     exists z, Model.cost_inr r = Py.NInt z /\ 10 <= z).
  { intros rnd budget months valid r Hr.
    apply elem_of_normalize in Hr as (r0 & z & _ & _ & ->).
    exists (Z.max 10 z). split; [reflexivity | lia]. }
  assert (Hfall : forall budget months r,
     (0 <= Py.to_Q budget)%Q ->
     r ∈ BillingEngine._generate_fallback budget months ->
     exists z, Model.cost_inr r = Py.NInt z /\ 0 <= z).
  { intros budget months r Hbudget Hr.
    apply elem_of_fallback in Hr as (m & _ & Hr).
    apply fallback_record_cost in Hr as (share & -> & Hshare).
    eexists. split; [reflexivity|].
    apply trunc_nonneg. now apply Qmult_le_0_compat. }
  split; [|split; [exact Hnorm | split]].
  - intros fos raw_recs r Hr.
    apply list_elem_of_omap in Hr as (raw & _ & Hrepair).
    apply repair_cost_int in Hrepair as (q & _ & ->). exact I.
  - intros now fos rnd prompt_fn llm profile r Hbudget.
    unfold BillingEngine.generate_mock_billing.
    destruct (llm _) as [[[|raw raw_recs] | keys] |]; try apply (Hfall _ _ _ Hbudget).
    destruct (BillingEngine.valid_records fos (raw :: raw_recs)) as [|v valid];
      [apply (Hfall _ _ _ Hbudget)|].
    intros Hr. apply Hnorm in Hr as (z & Hz & Hle). exists z. split; [exact Hz | lia].
  - intros profile billing Hall r. unfold Analyzer.billing_after_sqlite.
    destruct (Model.is_sqlite_stack _); [now apply redistribute_nonneg | apply Hall].
Qed.

(** Witness for C6: the fallback of the SQLite scenario, completion
    failing, in November 2026. *)
Lemma cost_inr_integer_until_redistribution_witness :
  Forall (fun r => exists z, Model.cost_inr r = Py.NInt z /\ 0 <= z)
    (BillingEngine.generate_mock_billing (2026, 11) (fun _ => None) (fun _ => 1%Q)
       (fun _ _ _ _ => EmptyString) (fun _ => None) Scenario.sqlite_profile).
Proof.
  apply Forall_forall. intros r.
  destruct cost_inr_integer_until_redistribution as (_ & _ & Hgen & _).
  apply Hgen. vm_compute. discriminate.
Defined.

(** ** The savings cap *)

Section CapFacts.
Import Py Model Analyzer.
Local Open Scope Q_scope.









End CapFacts.




(** * Further properties *)

(** ** The recommendation validator *)

Section ValidatorFacts.
Import Py Model LlmUtils Analyzer AnalyzerParts.

Lemma validate_items_accepts (is_sqlite : bool) (recs : list Rec) :
  forall i, fst (validate_items is_sqlite i recs) = true <-> Forall (item_ok is_sqlite) recs.
Proof.
  induction recs as [|r recs IH]; intros i; simpl.
  - split; [constructor | reflexivity].
  - destruct (has_required r) eqn:Hreq; simpl.
    + destruct (is_sqlite && is_database r) eqn:Hdb.
      * split; [discriminate|]. intros H. apply Forall_cons in H as [[_ H] _]. congruence.
      * rewrite IH. split.
        -- intros H. constructor; [now split | exact H].
        -- intros H. now apply Forall_cons in H as [_ H].
    + split; [discriminate|]. intros H. apply Forall_cons in H as [[H _] _]. congruence.
Qed.

Lemma validate_items_message (is_sqlite : bool) (recs : list Rec) :
  forall i, fst (validate_items is_sqlite i recs) = false ->
            is_Some (snd (validate_items is_sqlite i recs)).
Proof.
  induction recs as [|r recs IH]; intros i; simpl; [discriminate|].
  destruct (has_required r); simpl; [|eauto].
  destruct (is_sqlite && is_database r); simpl; [eauto | apply IH].
Qed.

Lemma validate_accepts (is_sqlite : bool) (recs : payload Rec) :
  fst (validate is_sqlite recs) = true <->
  exists items, recs = PList items /\ (5 <= length items)%nat /\
                Forall (item_ok is_sqlite) items.
Proof.
  destruct recs as [items | keys]; simpl.
  - destruct (length items <? 5)%nat eqn:Hlen; simpl.
    + apply Nat.ltb_lt in Hlen.
      split; [discriminate|]. intros (items' & [= <-] & Hge & _). lia.
    + apply Nat.ltb_ge in Hlen.
      rewrite validate_items_accepts. split.
      * intros H. now exists items.
      * now intros (items' & [= <-] & _ & H).
  - split; [discriminate|]. now intros (items & H & _).
Qed.

Lemma validate_rejects_with_message (is_sqlite : bool) (recs : payload Rec) :
  fst (validate is_sqlite recs) = false -> is_Some (snd (validate is_sqlite recs)).
Proof.
  destruct recs as [items | keys]; simpl; [|eauto].
  destruct (length items <? 5)%nat; simpl; [eauto | apply validate_items_message].
Qed.

End ValidatorFacts.

(** X1: the validator accepts a payload exactly when it is a list of at
    least five items, each with the four required keys and, under SQLite,
    none on the Database service; a rejected payload always comes with an
    error message for the feedback prompt. *)
Theorem validate_accepts_iff (is_sqlite : bool)
        (recs : LlmUtils.payload Analyzer.Rec) :
  (fst (Analyzer.validate is_sqlite recs) = true <->
   exists items, recs = LlmUtils.PList items /\ (5 <= length items)%nat /\
                 Forall (AnalyzerParts.item_ok is_sqlite) items) /\
  (fst (Analyzer.validate is_sqlite recs) = false ->
   is_Some (snd (Analyzer.validate is_sqlite recs))).
Proof.
  split; [apply validate_accepts | apply validate_rejects_with_message].
Qed.

(** Witness for X1: a dict is rejected with a message. *)
Lemma validate_accepts_iff_witness :
  is_Some (snd (Analyzer.validate true (LlmUtils.PDict ["error"] : LlmUtils.payload Analyzer.Rec))).
Proof.
  apply (validate_accepts_iff true (LlmUtils.PDict ["error"])). reflexivity.
Defined.

(** X2: the list handed to [_process_recs] is either empty (every attempt
    failed) or a list that the validator accepted: at least five items,
    each with the required keys, none on the Database service when the
    project runs on SQLite.  [processed_recs] is [_process_recs] of it. *)
Theorem raw_recs_empty_or_validated
        (prompt_fn : Model.Profile -> Q -> Py.num -> list (string * Q) ->
                     gmap string string -> string)
        (query_llama_json : nat -> string -> option (LlmUtils.payload Analyzer.Rec))
        (profile : Model.Profile) (billing : list Model.BillingRecord) :
  let is_sqlite := Model.is_sqlite_stack (default ∅ (Model.tech_stack profile)) in
  let raw_recs := AnalyzerParts.raw_recs_of prompt_fn query_llama_json profile billing in
  (raw_recs = [] \/
   ((5 <= length raw_recs)%nat /\ Forall (AnalyzerParts.item_ok is_sqlite) raw_recs)) /\
  Analyzer.processed_recs prompt_fn query_llama_json profile billing
  = Analyzer._process_recs raw_recs profile is_sqlite
      (Analyzer.avg_monthly_of (Analyzer.billing_after_sqlite profile billing)).
Proof.
  intros is_sqlite raw_recs. split; [|reflexivity].
  subst raw_recs. unfold AnalyzerParts.raw_recs_of. fold is_sqlite.
  unfold LlmUtils.query_llama_with_validation.
  set (prompt := prompt_fn _ _ _ _ _).
  pose proof (retry_loop_post LlmUtils.payload_truthy query_llama_json prompt
                (Analyzer.validate is_sqlite) (Z.to_nat (3 + 1)) 0%nat prompt) as Hpost.
  destruct (LlmUtils.retry_loop _ _ _ _ _ _ _) as [result log].
  destruct Hpost as (_ & _ & Hres). simpl fst.
  destruct result as [[items | keys] |]; [|now left | now left].
  right. destruct Hres as (_ & _ & _ & _ & _ & Hvalid & _).
  apply (proj1 (validate_accepts is_sqlite (LlmUtils.PList items))) in Hvalid
    as (items' & [= <-] & Hlen & Hall).
  now split.
Qed.

(** ** What the post-processor returns *)

Section ProcessRecsContents.
Import Py Model Analyzer AnalyzerParts.
Variable is_sqlite : bool.
Variable all : list Rec.

(** Every kept item is the cleaned-up form of a candidate that passes the
    filter. *)
Lemma filter_step_from (st : list Rec * gset string) (r0 : Rec) :
  r0 ∈ all ->
  Forall (fun r => exists r0, r0 ∈ all /\ r = cleanup r0 /\ passes_filter is_sqlite r) (fst st) ->
  Forall (fun r => exists r0, r0 ∈ all /\ r = cleanup r0 /\ passes_filter is_sqlite r) (fst (filter_step is_sqlite st r0)).
Proof.
  destruct st as [cleaned seen]. intros Hr0 Hok. unfold filter_step.
  destruct (nonempty (stripped_title (cleanup r0))) eqn:Htitle; [|exact Hok].
  cbn [negb].
  destruct (bool_decide (dedup_key (cleanup r0) ∈ seen)); [exact Hok|].
  destruct (contains "transfer acceleration" _) eqn:Hban; [exact Hok|].
  destruct (is_sqlite && is_database (cleanup r0)) eqn:Hdb; [exact Hok|].
  destruct (positive (savings (cleanup r0)) || _) eqn:Hvalue; [|exact Hok].
  cbn [fst]. apply Forall_app. split; [exact Hok|].
  constructor; [|constructor].
  exists r0. repeat split; assumption.
Qed.

Lemma fold_filter_step_from (recs : list Rec) :
  forall st, (forall r0, r0 ∈ recs -> r0 ∈ all) ->
             Forall (fun r => exists r0, r0 ∈ all /\ r = cleanup r0 /\ passes_filter is_sqlite r) (fst st) ->
             Forall (fun r => exists r0, r0 ∈ all /\ r = cleanup r0 /\ passes_filter is_sqlite r) (fst (fold_left (filter_step is_sqlite) recs st)).
Proof.
  induction recs as [|r recs IH]; intros st Hsub Hok; simpl; [exact Hok|].
  apply IH; [intros r0 Hr0; apply Hsub; now right|].
  apply filter_step_from; [apply Hsub; left | exact Hok].
Qed.

End ProcessRecsContents.

Section ProcessRecsOrder.
Import Py Model Analyzer AnalyzerParts.

Lemma filtered_from_candidates (is_sqlite : bool) (recs : list Rec) :
  Forall (fun r => exists r0, r0 ∈ recs /\ r = cleanup r0 /\ passes_filter is_sqlite r)
         (fst (filtered is_sqlite recs)).
Proof.
  apply (fold_filter_step_from is_sqlite recs recs ([], ∅)); [auto | constructor].
Qed.

(** The default loop appends defaults, in their order, and none once six
    items are there. *)
Lemma default_loop_appends (ds : list Rec) :
  forall recs seen,
    exists added,
      fst (fold_left default_step ds (recs, seen)) = recs ++ added /\
      added `sublist_of` ds /\
      ((6 <= length recs)%nat -> added = []).
Proof.
  induction ds as [|d ds IH]; intros recs seen.
  - exists []. simpl. rewrite app_nil_r. repeat split. constructor.
  - change (fold_left default_step (d :: ds) (recs, seen))
      with (fold_left default_step ds (default_step (recs, seen) d)).
    rewrite default_step_unfold.
    destruct (6 <=? length recs)%nat eqn:Hfull.
    + destruct (IH recs seen) as (added & Heq & Hsub & Hnone).
      exists added. repeat split; [exact Heq | now apply sublist_cons | exact Hnone].
    + apply Nat.leb_gt in Hfull.
      destruct (bool_decide (default_key d ∈ seen)).
      * destruct (IH recs seen) as (added & Heq & Hsub & Hnone).
        exists added. repeat split; [exact Heq | now apply sublist_cons | exact Hnone].
      * destruct (IH (recs ++ [d]) (seen ∪ {[default_key d]})) as (added & Heq & Hsub & _).
        exists (d :: added). repeat split.
        -- rewrite Heq, <- app_assoc. reflexivity.
        -- now apply sublist_skip.
        -- lia.
Qed.

(** The shape of the result: the retained candidates sorted, then the
    appended defaults, cut to ten. *)
Lemma process_recs_shape (recs : list Rec) (profile : Profile) (is_sqlite : bool)
      (total_cost : Q) :
  exists added,
    _process_recs recs profile is_sqlite total_cost
    = take 10 (sorted_desc (fst (filtered is_sqlite recs)) ++ added) /\
    added `sublist_of` defaults /\
    ((6 <= length (fst (filtered is_sqlite recs)))%nat -> added = []).
Proof.
  unfold _process_recs.
  destruct (filtered is_sqlite recs) as [cleaned seen]. cbn [fst].
  pose proof (Permutation_length (sorted_desc_perm cleaned)) as Hlen.
  destruct (length (sorted_desc cleaned) <? 6)%nat eqn:Hfew.
  - apply Nat.ltb_lt in Hfew.
    destruct (default_loop_appends defaults (sorted_desc cleaned) seen)
      as (added & -> & Hsub & _).
    exists added. repeat split; [exact Hsub | lia].
  - exists []. rewrite app_nil_r. repeat split. apply sublist_nil_l.
Qed.

Lemma num_ltb_false (a b : num) : num_ltb a b = false -> (to_Q b <= to_Q a)%Q.
Proof.
  unfold num_ltb. intros H. apply negb_false_iff in H. now apply Qle_bool_iff.
Qed.

Lemma num_ltb_true (a b : num) : num_ltb a b = true -> (to_Q a <= to_Q b)%Q.
Proof.
  unfold num_ltb. intros H. apply negb_true_iff in H.
  apply Qlt_le_weak, Qnot_le_lt. intros Hle. apply Qle_bool_iff in Hle. congruence.
Qed.

Lemma savings_ge_trans (a b c : Rec) : savings_ge a b -> savings_ge b c -> savings_ge a c.
Proof. unfold savings_ge. intros Hab Hbc. eapply Qle_trans; eassumption. Qed.

Lemma insert_desc_sorted (x : Rec) (l : list Rec) :
  StronglySorted savings_ge l -> StronglySorted savings_ge (insert_desc x l).
Proof.
  induction 1 as [|y l Hl IH Hy]; simpl; [repeat constructor|].
  destruct (num_ltb (savings x) (savings y)) eqn:Hlt.
  - constructor; [exact IH|].
    rewrite insert_desc_perm. constructor; [|exact Hy].
    now apply num_ltb_true.
  - apply num_ltb_false in Hlt.
    constructor; [now constructor|].
    constructor; [exact Hlt|].
    eapply Forall_impl; [exact Hy|]. intros z Hz. now apply (savings_ge_trans x y z).
Qed.

Lemma sorted_desc_sorted (l : list Rec) : StronglySorted savings_ge (sorted_desc l).
Proof.
  induction l as [|x l IH]; simpl; [constructor | now apply insert_desc_sorted].
Qed.

Lemma take_sorted (n : nat) (l : list Rec) :
  StronglySorted savings_ge l -> StronglySorted savings_ge (take n l).
Proof.
  intros Hl. revert n. induction Hl as [|x l Hl IH Hx]; intros [|n]; simpl; try constructor.
  - apply IH.
  - eapply Forall_take in Hx. exact Hx.
Qed.

(** Where the returned items come from. *)
Lemma process_recs_provenance (recs : list Rec) (profile : Profile) (is_sqlite : bool)
      (total_cost : Q) (r : Rec) :
  r ∈ _process_recs recs profile is_sqlite total_cost ->
  r ∈ defaults \/
  exists r0, r0 ∈ recs /\ r = cleanup r0 /\ passes_filter is_sqlite r.
Proof.
  destruct (process_recs_shape recs profile is_sqlite total_cost)
    as (added & -> & Hsub & _).
  intros Hr. apply (subseteq_take 10) in Hr. apply elem_of_app in Hr as [Hr | Hr].
  - right. rewrite sorted_desc_perm in Hr.
    pose proof (filtered_from_candidates is_sqlite recs) as Hall.
    rewrite Forall_forall in Hall. now apply Hall.
  - left. eapply elem_of_sublist; eassumption.
Qed.

(** What every default satisfies. *)
Lemma defaults_clean (d : Rec) :
  d ∈ defaults ->
  nonempty (stripped_title d) = true /\
  contains "transfer acceleration" (lower (stripped_title d)) = false /\
  is_database d = false /\ is_Some (rec_description d).
Proof.
  intros Hd. unfold defaults in Hd.
  repeat (apply elem_of_cons in Hd as [-> | Hd];
          [repeat split; try reflexivity; eexists; reflexivity|]).
  now apply elem_of_nil in Hd.
Qed.

End ProcessRecsOrder.

(** X3: every returned item is either one of the seven built-in defaults
    or the cleaned-up form of an input candidate that passes the filter:
    non-blank title, no "transfer acceleration", not on the Database
    service under SQLite, and positive savings or a governance type.  The
    post-processor invents nothing else. *)
Theorem process_recs_items_from_input_or_defaults
        (recs : list Analyzer.Rec) (profile : Model.Profile) (is_sqlite : bool)
        (total_cost : Q) (r : Analyzer.Rec) :
  r ∈ Analyzer._process_recs recs profile is_sqlite total_cost ->
  r ∈ Analyzer.defaults \/
  exists r0, r0 ∈ recs /\ r = Analyzer.cleanup r0 /\ AnalyzerParts.passes_filter is_sqlite r.
Proof. apply process_recs_provenance. Qed.

(** Witness for X3: with no candidate at all, "Enable MFA" is returned,
    and it is a default. *)
Lemma process_recs_items_from_input_or_defaults_witness :
  let r := Analyzer.default_rec "Enable MFA" "Security" 0 "Security" ["AWS"]
             "Secure root account." ["Turn on MFA"] "Low" "Low" in
  r ∈ Analyzer.defaults \/
  exists r0, r0 ∈ [] /\ r = Analyzer.cleanup r0 /\ AnalyzerParts.passes_filter true r.
Proof.
  intros r.
  apply (process_recs_items_from_input_or_defaults [] Scenario.sqlite_profile true 0 r).
  vm_compute. do 2 right. left.
Defined.

(** X4: no returned item, default or not, has a blank title or a title
    that mentions "transfer acceleration" (in any case), none is on the
    Database service when the project runs on SQLite, and each carries an
    int [potential_savings] and a description. *)
Theorem process_recs_never_returns_banned
        (recs : list Analyzer.Rec) (profile : Model.Profile) (is_sqlite : bool)
        (total_cost : Q) (r : Analyzer.Rec) :
  r ∈ Analyzer._process_recs recs profile is_sqlite total_cost ->
  Py.nonempty (Analyzer.stripped_title r) = true /\
  Py.contains "transfer acceleration" (Py.lower (Analyzer.stripped_title r)) = false /\
  (is_sqlite = true -> Analyzer.is_database r = false) /\
  (exists z, Analyzer.potential_savings r = Some (Py.NInt z)) /\
  is_Some (Analyzer.rec_description r).
Proof.
  intros Hr.
  pose proof (proj2 (process_recs_keys_nodup recs profile is_sqlite total_cost)) as Hint.
  rewrite Forall_forall in Hint. specialize (Hint r Hr).
  apply process_recs_provenance in Hr as [Hd | (r0 & _ & -> & Htitle & Hban & Hdb & _)].
  - destruct (defaults_clean r Hd) as (Htitle & Hban & Hdb & Hdesc).
    repeat split; auto.
  - split; [exact Htitle | split; [exact Hban | split; [|split]]].
    + intros ->. exact Hdb.
    + exact Hint.
    + simpl. eauto.
Qed.

(** Witness for X4: the governance item of the sample completion, under
    SQLite. *)
Lemma process_recs_never_returns_banned_witness :
  Py.contains "transfer acceleration"
    (Py.lower (Analyzer.stripped_title
                 (Analyzer.cleanup (Scenario.candidate "Review tagging policy" (-1) "Governance"))))
  = false.
Proof.
  apply (process_recs_never_returns_banned
           [Scenario.candidate "Review tagging policy" (-1) "Governance"]
           Scenario.sqlite_profile true 0).
  vm_compute. left.
Defined.

(** X5: the result is the retained candidates in descending order of
    savings, followed by the defaults that were appended, in their fixed
    order and not sorted in, cut to ten.  No default is appended when six
    or more candidates are retained, and then the whole result is in
    descending order. *)
Theorem process_recs_candidates_sorted_then_defaults
        (recs : list Analyzer.Rec) (profile : Model.Profile) (is_sqlite : bool)
        (total_cost : Q) :
  let cleaned := fst (Analyzer.filtered is_sqlite recs) in
  let out := Analyzer._process_recs recs profile is_sqlite total_cost in
  exists added,
    out = take 10 (Analyzer.sorted_desc cleaned ++ added) /\
    added `sublist_of` Analyzer.defaults /\
    Analyzer.sorted_desc cleaned ≡ₚ cleaned /\
    StronglySorted AnalyzerParts.savings_ge (Analyzer.sorted_desc cleaned) /\
    ((6 <= length cleaned)%nat ->
     added = [] /\ StronglySorted AnalyzerParts.savings_ge out).
Proof.
  intros cleaned out. subst out.
  destruct (process_recs_shape recs profile is_sqlite total_cost)
    as (added & Heq & Hsub & Hnone).
  fold cleaned in Heq, Hnone.
  exists added.
  split; [exact Heq | split; [exact Hsub | split; [apply sorted_desc_perm | split]]].
  - apply sorted_desc_sorted.
  - intros Hsix. split; [now apply Hnone|].
    rewrite Heq, (Hnone Hsix), app_nil_r.
    apply take_sorted, sorted_desc_sorted.
Qed.


(** ** Totals per key: the service breakdown and the billing summary *)

Section AccumulateFacts.
Import Py Model Analyzer AnalyzerParts.
Local Open Scope Q_scope.
(** The key under which a record is counted: its service, or its month. *)
Variable key : BillingRecord -> string.

Lemma dict_accumulate_sum (k : string) (v : num) (d : list (string * num)) :
  Qsum (List.map snd (dict_accumulate k v d)) == Qsum (List.map snd d) + to_Q v.
Proof.
  induction d as [|[k0 v0] d IH]; cbn [dict_accumulate List.map snd Qsum foldr].
  - rewrite to_Q_add. simpl (to_Q (NInt 0)). ring.
  - destruct (String.eqb k0 k); cbn [List.map snd Qsum foldr].
    + rewrite to_Q_add. ring.
    + fold (Qsum (List.map snd (dict_accumulate k v d))). fold (Qsum (List.map snd d)).
      rewrite IH. ring.
Qed.

Lemma dict_accumulate_keys (k : string) (v : num) (d : list (string * num)) :
  List.map fst (dict_accumulate k v d)
  = if bool_decide (k ∈ List.map fst d) then List.map fst d else List.map fst d ++ [k].
Proof.
  induction d as [|[k0 v0] d IH]; cbn [dict_accumulate List.map fst].
  - rewrite bool_decide_eq_false_2 by apply not_elem_of_nil. reflexivity.
  - destruct (String.eqb k0 k) eqn:Heq; cbn [List.map fst].
    + apply String.eqb_eq in Heq as ->.
      rewrite bool_decide_eq_true_2 by left. reflexivity.
    + apply String.eqb_neq in Heq. rewrite IH.
      destruct (decide (k ∈ List.map fst d)) as [Hin | Hout].
      * rewrite (bool_decide_eq_true_2 _ Hin).
        rewrite bool_decide_eq_true_2 by now right. reflexivity.
      * rewrite (bool_decide_eq_false_2 _ Hout).
        rewrite bool_decide_eq_false_2; [reflexivity|].
        intros H. apply elem_of_cons in H as [-> | H]; [congruence | contradiction].
Qed.

Lemma elem_of_keys (k : string) (v : num) (d : list (string * num)) :
  (k, v) ∈ d -> k ∈ List.map fst d.
Proof.
  intros H. apply list_elem_of_In. apply list_elem_of_In in H.
  apply in_map_iff. now exists (k, v).
Qed.

(** Where an entry of the updated table comes from, in a table without
    repeated keys. *)
Lemma elem_of_dict_accumulate (k : string) (v : num) (d : list (string * num))
      (k' : string) (v' : num) :
  NoDup (List.map fst d) ->
  (k', v') ∈ dict_accumulate k v d ->
  (k' <> k /\ (k', v') ∈ d)
  \/ (k' = k /\ ((exists v0, (k, v0) ∈ d /\ v' = add v0 v)
                \/ ((k ∉ List.map fst d) /\ v' = add (NInt 0) v))).
Proof.
  induction d as [|[k0 v0] d IH]; simpl; intros Hnodup H.
  - apply list_elem_of_singleton in H as [= -> ->].
    right. split; [reflexivity|]. right. split; [apply not_elem_of_nil | reflexivity].
  - apply NoDup_cons in Hnodup as [Hk0 Hnodup].
    destruct (String.eqb k0 k) eqn:Heq.
    + apply String.eqb_eq in Heq as ->.
      apply elem_of_cons in H as [[= -> ->] | H].
      * right. split; [reflexivity|]. left. exists v0. split; [left | reflexivity].
      * left. split; [|now right].
        intros ->. apply Hk0. eapply elem_of_keys, H.
    + apply String.eqb_neq in Heq.
      apply elem_of_cons in H as [[= -> ->] | H].
      * left. split; [exact Heq | left].
      * destruct (IH Hnodup H) as [[Hne Hin] | [-> [(v1 & Hin & ->) | [Hnew ->]]]].
        -- left. split; [exact Hne | now right].
        -- right. split; [reflexivity|]. left. exists v1. split; [now right | reflexivity].
        -- right. split; [reflexivity|]. right. split; [|reflexivity].
           intros Hin. apply elem_of_cons in Hin as [-> | Hin]; [congruence | contradiction].
Qed.

Lemma totals_snoc (records : list BillingRecord) (r : BillingRecord) :
  totals_by key (records ++ [r])
  = dict_accumulate (key r) (cost_inr r) (totals_by key records).
Proof. unfold totals_by. now rewrite fold_left_app. Qed.

Lemma filter_key_snoc (k : string) (records : list BillingRecord) (r : BillingRecord) :
  List.filter (fun r => String.eqb (key r) k) (records ++ [r])
  = List.filter (fun r => String.eqb (key r) k) records
    ++ (if String.eqb (key r) k then [r] else []).
Proof. rewrite List.filter_app. reflexivity. Qed.

(** The keys are those of the records, each once; an entry holds the sum
    of the costs of the records under its key; the entries add up to the
    total of the list. *)
Lemma totals_of_spec (records : list BillingRecord) :
  NoDup (List.map fst (totals_by key records)) /\
  (forall k, k ∈ List.map fst (totals_by key records) <-> exists r, r ∈ records /\ key r = k) /\
  (forall k v, (k, v) ∈ totals_by key records ->
     to_Q v == Qsum (List.map cost_inr (List.filter (fun r => String.eqb (key r) k) records))) /\
  Qsum (List.map snd (totals_by key records)) == Qsum (List.map cost_inr records).
Proof.
  induction records as [|r records IH] using rev_ind.
  - simpl. repeat split; try reflexivity.
    + apply NoDup_nil_2.
    + intros H. now apply elem_of_nil in H.
    + intros (r & Hr & _). now apply elem_of_nil in Hr.
    + intros k v H. now apply elem_of_nil in H.
  - destruct IH as (Hnodup & Hkeys & Hvals & Hsum).
    rewrite totals_snoc.
    split; [|split; [|split]].
    + rewrite dict_accumulate_keys. case_bool_decide as Hin; [exact Hnodup|].
      apply NoDup_app. repeat split; [exact Hnodup | | apply NoDup_singleton].
      intros k Hk Hk'. apply list_elem_of_singleton in Hk' as ->. contradiction.
    + intros k. rewrite dict_accumulate_keys.
      assert (Hiff : k ∈ List.map fst (totals_by key records) ++ [key r]
                     <-> exists r', r' ∈ records ++ [r] /\ key r' = k).
      { rewrite elem_of_app, Hkeys, list_elem_of_singleton. split.
        - intros [(r' & Hr' & Hk) | ->].
          + exists r'. split; [apply elem_of_app; now left | exact Hk].
          + exists r. split; [apply elem_of_app; right; left | reflexivity].
        - intros (r' & Hr' & Hk). apply elem_of_app in Hr' as [Hr' | Hr'].
          + left. now exists r'.
          + apply list_elem_of_singleton in Hr' as ->. now right. }
      case_bool_decide as Hin; [|exact Hiff].
      rewrite <- Hiff, elem_of_app, list_elem_of_singleton.
      split; [now left | intros [H | ->]; assumption].
    + intros k v Hkv. rewrite filter_key_snoc, map_app, Qsum_app.
      apply elem_of_dict_accumulate in Hkv
        as [[Hne Hin] | [-> [(v0 & Hin & ->) | [Hnew ->]]]]; [| | |exact Hnodup].
      * assert (Hneq : String.eqb (key r) k = false) by (apply String.eqb_neq; congruence).
        rewrite Hneq, (Hvals k v Hin). simpl. ring.
      * rewrite String.eqb_refl, to_Q_add, (Hvals _ _ Hin). simpl. ring.
      * rewrite String.eqb_refl, to_Q_add.
        assert (Hnone : List.filter (fun r0 => String.eqb (key r0) (key r)) records = []).
        { destruct (List.filter _ records) as [|r' l] eqn:Hf; [reflexivity|].
          exfalso. apply Hnew, Hkeys.
          assert (Hr' : In r' (List.filter (fun r0 => String.eqb (key r0) (key r)) records))
            by (rewrite Hf; now left).
          apply filter_In in Hr' as [Hr' Hk]. apply String.eqb_eq in Hk.
          exists r'. split; [now apply list_elem_of_In | exact Hk]. }
        rewrite Hnone. simpl. ring.
    + rewrite dict_accumulate_sum, Hsum, map_app, Qsum_app. simpl. ring.
Qed.

End AccumulateFacts.

Section BreakdownFacts.
Import Py Model Analyzer AnalyzerParts.
Local Open Scope Q_scope.

Lemma month_count_positive (billing : list BillingRecord) : (1 <= month_count billing)%Z.
Proof.
  unfold month_count.
  destruct (size (list_to_set (List.map month billing) : gset string) =? 0)%nat eqn:Hz; [lia|].
  apply Nat.eqb_neq in Hz. lia.
Qed.


End BreakdownFacts.

(** X6: the service breakdown lists every service of the billing list
    exactly once; the total of a service is the sum of the costs of its
    records; the totals add up to the total cost. *)
Theorem service_totals_per_service (billing : list Model.BillingRecord) :
  let totals := Analyzer.service_totals billing in
  NoDup (List.map fst totals) /\
  (forall k, k ∈ List.map fst totals <-> exists r, r ∈ billing /\ Model.service r = k) /\
  (forall k v, (k, v) ∈ totals ->
     (Py.to_Q v
      == Py.Qsum (List.map Model.cost_inr (List.filter (Analyzer.is_service k) billing)))%Q) /\
  (Py.Qsum (List.map snd totals) == Py.to_Q (Analyzer.total_cost billing))%Q.
Proof.
  intros totals.
  destruct (totals_of_spec Model.service billing) as (Hnodup & Hkeys & Hvals & Hsum).
  split; [exact Hnodup | split; [exact Hkeys | split]].
  - intros k v Hkv. apply (Hvals k v Hkv).
  - unfold Analyzer.total_cost. rewrite to_Q_sum. exact Hsum.
Qed.


(** X8: the quick summary that [save_mock_billing] prints names every
    month of the saved records exactly once; the figure of a month is the
    sum of the costs of its records, and the figures add up to the total
    of the list. *)
Theorem month_totals_per_month (records : list Model.BillingRecord) :
  let totals := BillingSummary.month_totals records in
  NoDup (List.map fst totals) /\
  (forall m, m ∈ List.map fst totals <-> exists r, r ∈ records /\ Model.month r = m) /\
  (forall m v, (m, v) ∈ totals ->
     (Py.to_Q v
      == Py.Qsum (List.map Model.cost_inr
                    (List.filter (fun r => String.eqb (Model.month r) m) records)))%Q) /\
  (Py.Qsum (List.map snd totals) == Py.Qsum (List.map Model.cost_inr records))%Q.
Proof.
  intros totals. apply (totals_of_spec Model.month records).
Qed.

(** ** The three services that cost most *)

Section TopThreeFacts.
Import Py Model Analyzer AnalyzerParts.
Local Open Scope Q_scope.

(** Rounding to two places never reverses an order. *)
Lemma round2_mono (x y : Q) : x <= y -> round2 x <= round2 y.
Proof.
  intros Hxy. unfold round2.
  assert (Hscaled : x * 100 <= y * 100) by lra.
  pose proof (Qfloor_resp_le _ _ Hscaled) as Hfloor.
  set (a := x * 100) in *. set (b := y * 100) in *.
  assert (Hn : (match ((a - inject_Z (Qfloor a)) * 2 ?= 1)%Q with
                | Lt => Qfloor a
                | Gt => (Qfloor a + 1)%Z
                | Eq => if Z.even (Qfloor a) then Qfloor a else Qfloor a + 1
                end
                <= match ((b - inject_Z (Qfloor b)) * 2 ?= 1)%Q with
                   | Lt => Qfloor b
                   | Gt => Qfloor b + 1
                   | Eq => if Z.even (Qfloor b) then Qfloor b else Qfloor b + 1
                   end)%Z).
  { destruct (Z.eq_dec (Qfloor a) (Qfloor b)) as [Heq | Hne].
    - rewrite <- Heq.
      destruct (Qcompare_spec ((a - inject_Z (Qfloor a)) * 2) 1) as [Ha | Ha | Ha];
        destruct (Qcompare_spec ((b - inject_Z (Qfloor a)) * 2) 1) as [Hb | Hb | Hb];
        try (destruct (Z.even (Qfloor a))); try lia; exfalso; lra.
    - assert (Qfloor a + 1 <= Qfloor b)%Z by lia.
      destruct ((a - inject_Z (Qfloor a)) * 2 ?= 1);
        destruct ((b - inject_Z (Qfloor b)) * 2 ?= 1);
        try (destruct (Z.even (Qfloor a))); try (destruct (Z.even (Qfloor b))); lia. }
  apply Qmult_le_compat_r; [|discriminate].
  rewrite <- Zle_Qle. exact Hn.
Qed.

Lemma insert_by_value_perm (x : string * Q) (l : list (string * Q)) :
  insert_by_value x l ≡ₚ x :: l.
Proof.
  induction l as [|y l IH]; simpl; [reflexivity|].
  destruct (negb (Qle_bool (snd y) (snd x))); [|reflexivity].
  rewrite IH. apply Permutation_swap.
Qed.

Lemma sort_by_value_perm (l : list (string * Q)) : foldr insert_by_value [] l ≡ₚ l.
Proof.
  induction l as [|x l IH]; simpl; [reflexivity|].
  rewrite insert_by_value_perm. now constructor.
Qed.

Lemma insert_by_value_sorted (x : string * Q) (l : list (string * Q)) :
  StronglySorted (fun a b => snd b <= snd a) l ->
  StronglySorted (fun a b => snd b <= snd a) (insert_by_value x l).
Proof.
  induction 1 as [|y l Hl IH Hy]; simpl; [repeat constructor|].
  destruct (Qle_bool (snd y) (snd x)) eqn:Hle; cbn [negb].
  - apply Qle_bool_iff in Hle.
    constructor; [now constructor|].
    constructor; [exact Hle|].
    eapply Forall_impl; [exact Hy|]. intros z Hz. simpl in *. lra.
  - assert (Hlt : snd x <= snd y).
    { apply Qlt_le_weak, Qnot_le_lt. intros H. apply Qle_bool_iff in H. congruence. }
    constructor; [exact IH|].
    rewrite insert_by_value_perm. now constructor.
Qed.

Lemma sort_by_value_sorted (l : list (string * Q)) :
  StronglySorted (fun a b => snd b <= snd a) (foldr insert_by_value [] l).
Proof.
  induction l as [|x l IH]; simpl; [constructor | now apply insert_by_value_sorted].
Qed.

End TopThreeFacts.

(** X9: [high_cost_services] holds three services of [service_costs], or
    all of them when there are fewer, in descending order of their
    (rounded) monthly average, and no service left out has a higher
    average than one that is listed. *)
Theorem high_cost_services_are_top_three
        (prompt_fn : Model.Profile -> Q -> Py.num -> list (string * Q) ->
                     gmap string string -> string)
        (query_llama_json : nat -> string -> option (LlmUtils.payload Analyzer.Rec))
        (profile : Model.Profile) (billing : list Model.BillingRecord) :
  let report :=
    Analyzer.analyze_costs_and_generate_recommendations prompt_fn query_llama_json
      profile billing in
  let top := Analyzer.high_cost_services (Analyzer.analysis report) in
  let all := Analyzer.service_costs (Analyzer.analysis report) in
  length top = Nat.min 3 (length all) /\
  StronglySorted (fun a b => (snd b <= snd a)%Q) top /\
  exists rest,
    all ≡ₚ top ++ rest /\
    forall e e', e ∈ top -> e' ∈ rest -> (snd e' <= snd e)%Q.
Proof.
  intros report top all. subst top all report.
  cbn [Analyzer.analysis Analyzer.high_cost_services Analyzer.service_costs
       Analyzer.analyze_costs_and_generate_recommendations].
  set (breakdown := Analyzer.avg_breakdown_of _).
  set (sorted := foldr Analyzer.insert_by_value [] breakdown).
  set (rnd := fun kv : string * Q => (fst kv, Analyzer.round2 (snd kv))).
  pose proof (sort_by_value_sorted breakdown) as Hsorted. fold sorted in Hsorted.
  pose proof (sort_by_value_perm breakdown) as Hperm. fold sorted in Hperm.
  rewrite <- (take_drop 3 sorted) in Hsorted.
  split; [|split].
  - rewrite !length_map, length_take, <- (Permutation_length Hperm). reflexivity.
  - apply StronglySorted_app_1_l in Hsorted.
    induction Hsorted as [|x l Hl IH Hx]; simpl; constructor; [exact IH|].
    apply Forall_forall. intros e He.
    apply list_elem_of_In, in_map_iff in He as (y & <- & Hy).
    rewrite Forall_forall in Hx. simpl.
    apply round2_mono, Hx. now apply list_elem_of_In.
  - exists (List.map rnd (drop 3 sorted)). split.
    + rewrite <- List.map_app, take_drop. apply Permutation_map. now symmetry.
    + intros e e' He He'.
      apply list_elem_of_In, in_map_iff in He as (x & <- & Hx).
      apply list_elem_of_In, in_map_iff in He' as (y & <- & Hy).
      simpl. apply round2_mono.
      eapply (StronglySorted_app_1_elem_of _ _ _ x y Hsorted); now apply list_elem_of_In.
Qed.

(** ** More on the savings cap *)

Section CapShape.
Import Py Model Analyzer AnalyzerParts.
Local Open Scope Q_scope.

Lemma trunc_nonpos (q : Q) : q <= 0 -> (trunc q <= 0)%Z /\ q <= inject_Z (trunc q).
Proof.
  intros Hq. pose proof (trunc_rem q) as Hr.
  assert (Hn : (Qnum q <= 0)%Z) by (unfold Qle in Hq; simpl in Hq; lia).
  pose proof (Z.rem_sign_mul (Qnum q) (Z.pos (Qden q)) ltac:(lia)) as Hsign.
  pose proof (Z.rem_bound_abs (Qnum q) (Z.pos (Qden q)) ltac:(lia)) as Habs.
  assert (Hrem : (Z.rem (Qnum q) (Z.pos (Qden q)) <= 0)%Z).
  { destruct (Z.eq_dec (Qnum q) 0%Z) as [Hz | Hnz]; [|nia].
    rewrite Hz, Z.rem_0_l; lia. }
  split.
  - nia.
  - unfold Qle, inject_Z. simpl. nia.
Qed.

(** With zero average monthly cost the percentage is taken to be zero and
    the cap does not apply. *)
Lemma cap_savings_zero_avg (avg_monthly : Q) (recs : list Rec) :
  avg_monthly == 0 -> cap_savings avg_monthly recs = recs.
Proof.
  intros Hz. unfold cap_savings, save_pct_of.
  apply Qeq_bool_iff in Hz. rewrite Hz. reflexivity.
Qed.

Lemma same_but_savings_refl (r : Rec) : same_but_savings r r.
Proof. repeat split. Qed.

(** One item under the factor [scale], strictly between 0 and 1. *)
Lemma scale_item_shrinks (scale : Q) (r : Rec) :
  0 < scale -> scale < 1 ->
  same_but_savings r (scale_item scale r) /\
  (0 <= to_Q (savings r) ->
   0 <= to_Q (savings (scale_item scale r)) <= to_Q (savings r)) /\
  (to_Q (savings r) <= 0 ->
   to_Q (savings r) <= to_Q (savings (scale_item scale r)) <= 0).
Proof.
  intros Hpos Hlt. split; [repeat split|].
  change (to_Q (savings (scale_item scale r)))
    with (inject_Z (trunc (to_Q (savings r) * scale))).
  set (s := to_Q (savings r)).
  split; intros Hs.
  - assert (Hprod : 0 <= s * scale) by (apply Qmult_le_0_compat; lra).
    assert (Hle : scale * s <= 1 * s) by (apply Qmult_le_compat_r; lra).
    pose proof (trunc_le _ Hprod). pose proof (trunc_nonneg _ Hprod) as Hz.
    rewrite Zle_Qle in Hz. change (inject_Z 0) with 0 in Hz. split; lra.
  - assert (Hprod : s * scale <= 0).
    { assert (0 <= (- s) * scale) by (apply Qmult_le_0_compat; lra). lra. }
    assert (Hge : s * 1 <= s * scale).
    { assert (scale * (- s) <= 1 * (- s)) by (apply Qmult_le_compat_r; lra). lra. }
    destruct (trunc_nonpos _ Hprod) as [Hz Hq].
    rewrite Zle_Qle in Hz. change (inject_Z 0) with 0 in Hz. split; lra.
Qed.

Lemma cap_savings_shape (avg_monthly : Q) (recs : list Rec) :
  Forall2 (fun r r' =>
             same_but_savings r r' /\
             (0 <= to_Q (savings r) -> 0 <= to_Q (savings r') <= to_Q (savings r)) /\
             (to_Q (savings r) <= 0 -> to_Q (savings r) <= to_Q (savings r') <= 0))
          recs (cap_savings avg_monthly recs).
Proof.
  unfold cap_savings.
  destruct (Qle_bool (save_pct_of avg_monthly recs) 35) eqn:Hle; cbn [negb].
  - apply Forall2_same_length_lookup_2; [reflexivity|].
    intros i r r' Hr Hr'. rewrite Hr in Hr'. injection Hr' as <-.
    split; [apply same_but_savings_refl | split; intros; lra].
  - assert (Hgt : 35 < save_pct_of avg_monthly recs).
    { apply Qnot_le_lt. intros H. apply Qle_bool_iff in H. congruence. }
    set (pct := save_pct_of avg_monthly recs) in *.
    assert (Hpos : 0 < 35 / pct).
    { unfold Qdiv. apply Qmult_lt_0_compat; [reflexivity|].
      apply Qinv_lt_0_compat. lra. }
    assert (Hlt : 35 / pct < 1) by (apply Qlt_shift_div_r; lra).
    generalize (35 / pct) Hpos Hlt. intros scale Hscale Hscale'.
    clear -Hscale Hscale'.
    induction recs as [|r recs IH]; simpl; constructor; [|exact IH].
    now apply scale_item_shrinks.
Qed.

End CapShape.

(** X10: when the average monthly cost is zero, as for an empty billing
    list, the savings percentage is taken to be zero and the cap is not
    applied: the report carries the processed recommendations unchanged
    (so the savings of the defaults stand against a cost of zero). *)
Theorem cap_skipped_when_average_is_zero
        (prompt_fn : Model.Profile -> Q -> Py.num -> list (string * Q) ->
                     gmap string string -> string)
        (query_llama_json : nat -> string -> option (LlmUtils.payload Analyzer.Rec))
        (profile : Model.Profile) (billing : list Model.BillingRecord) :
  (Analyzer.avg_monthly_of (Analyzer.billing_after_sqlite profile billing) == 0)%Q ->
  Analyzer.recommendations
    (Analyzer.analyze_costs_and_generate_recommendations prompt_fn query_llama_json
       profile billing)
  = Analyzer.processed_recs prompt_fn query_llama_json profile billing.
Proof.
  intros Hzero.
  cbn [Analyzer.recommendations Analyzer.analyze_costs_and_generate_recommendations].
  now apply cap_savings_zero_avg.
Qed.

(** Witness for X10: the empty billing list, the completion failing: the
    six first defaults are reported with their savings of 200 and 500. *)
Lemma cap_skipped_when_average_is_zero_witness :
  List.map Analyzer.potential_savings
    (Analyzer.recommendations
       (Analyzer.analyze_costs_and_generate_recommendations Scenario.no_prompt
          (fun _ _ => None) Scenario.sqlite_profile []))
  = List.map Analyzer.potential_savings
      (Analyzer.processed_recs Scenario.no_prompt (fun _ _ => None)
         Scenario.sqlite_profile []).
Proof.
  rewrite (cap_skipped_when_average_is_zero Scenario.no_prompt (fun _ _ => None)
             Scenario.sqlite_profile []).
  - reflexivity.
  - vm_compute. reflexivity.
Defined.

(** X11: the cap changes nothing but [potential_savings]: the report lists
    the processed items in the same order with all other fields as they
    were, and a capped saving keeps its sign (or becomes zero) and never
    grows in magnitude. *)
Theorem cap_changes_only_savings
        (prompt_fn : Model.Profile -> Q -> Py.num -> list (string * Q) ->
                     gmap string string -> string)
        (query_llama_json : nat -> string -> option (LlmUtils.payload Analyzer.Rec))
        (profile : Model.Profile) (billing : list Model.BillingRecord) :
  Forall2
    (fun r r' =>
       AnalyzerParts.same_but_savings r r' /\
       ((0 <= Py.to_Q (Analyzer.savings r))%Q ->
        (0 <= Py.to_Q (Analyzer.savings r') <= Py.to_Q (Analyzer.savings r))%Q) /\
       ((Py.to_Q (Analyzer.savings r) <= 0)%Q ->
        (Py.to_Q (Analyzer.savings r) <= Py.to_Q (Analyzer.savings r') <= 0)%Q))
    (Analyzer.processed_recs prompt_fn query_llama_json profile billing)
    (Analyzer.recommendations
       (Analyzer.analyze_costs_and_generate_recommendations prompt_fn query_llama_json
          profile billing)).
Proof.
  cbn [Analyzer.recommendations Analyzer.analyze_costs_and_generate_recommendations].
  apply cap_savings_shape.
Qed.

(** ** More on the billing engine *)

Section BillingMore.
Import Py Model LlmUtils BillingEngine.
Local Open Scope Q_scope.



Lemma rev_seq_succ (n : nat) : rev (seq 0 (S n)) = n :: rev (seq 0 n).
Proof. rewrite seq_S, rev_app_distr. reflexivity. Qed.

Lemma rev_seq_lookup (n k : nat) :
  (k < n)%nat -> rev (seq 0 n) !! k = Some (n - 1 - k)%nat.
Proof.
  revert k. induction n as [|n IH]; intros k Hk; [lia|].
  rewrite rev_seq_succ. destruct k as [|k]; simpl.
  - f_equal. lia.
  - rewrite IH by lia. f_equal. lia.
Qed.

Lemma length_get_recent_months (now : Z * Z) (n : nat) :
  length (get_recent_months now n) = n.
Proof. unfold get_recent_months. now rewrite length_map, length_rev, length_seq. Qed.



End BillingMore.





Section NormalizerMore.
Import Py Model LlmUtils BillingEngine.
Local Open Scope Q_scope.


Lemma repair_fields (float_of_string : string -> option Q) (raw : RawBilling)
      (r : BillingRecord) :
  repair float_of_string raw = Some r ->
  raw_month raw = Some (month r) /\ raw_service raw = Some (service r) /\
  (exists c q, raw_cost_inr raw = Some c /\ py_float float_of_string c = Some q /\
               cost_inr r = NInt (trunc q)) /\
  region r = default "ap-south-1" (raw_region raw) /\
  usage_type r = default "Standard" (raw_usage_type raw) /\
  desc r = default (service r +:+ " usage") (raw_desc raw) /\
  resource_id r = raw_resource_id raw /\ unit r = raw_unit raw /\
  usage_quantity r = raw_usage_quantity raw.
Proof.
  unfold repair.
  destruct (raw_month raw) as [m|], (raw_service raw) as [s|],
           (raw_cost_inr raw) as [c|]; try discriminate.
  destruct (py_float float_of_string c) as [q|] eqn:Hq; [|discriminate].
  intros [= <-]. cbn. repeat split; try reflexivity. now exists c, q.
Qed.

End NormalizerMore.



(** X15: on the path that does not fall back, every returned record is
    the repair of a record of the completion that has the three required
    keys and a cost [float] accepts: month and service are that
    record's, region, usage type and description are its own or else
    the defaults "ap-south-1", "Standard" and "<service> usage", the
    other keys are passed through, and the cost is an int of at least
    10. *)
Theorem normalized_records_are_repaired_inputs
        (now : Z * Z) (float_of_string : string -> option Q)
        (random_uniform : string -> Q)
        (prompt_fn : Model.Profile -> Py.num -> list string -> bool -> string)
        (profile : Model.Profile) (raw_recs : list BillingEngine.RawBilling)
        (r : Model.BillingRecord) :
  BillingEngine.valid_records float_of_string raw_recs <> [] ->
  r ∈ BillingEngine.generate_mock_billing now float_of_string random_uniform
        prompt_fn (fun _ => Some (LlmUtils.PList raw_recs)) profile ->
  exists raw,
    raw ∈ raw_recs /\
    BillingEngine.raw_month raw = Some (Model.month r) /\
    BillingEngine.raw_service raw = Some (Model.service r) /\
    (exists c q, BillingEngine.raw_cost_inr raw = Some c /\
                 BillingEngine.py_float float_of_string c = Some q) /\
    (exists z, Model.cost_inr r = Py.NInt z /\ 10 <= z) /\
    Model.region r = default "ap-south-1" (BillingEngine.raw_region raw) /\
    Model.usage_type r = default "Standard" (BillingEngine.raw_usage_type raw) /\
    Model.desc r = default (Model.service r +:+ " usage") (BillingEngine.raw_desc raw) /\
    Model.resource_id r = BillingEngine.raw_resource_id raw /\
    Model.unit r = BillingEngine.raw_unit raw /\
    Model.usage_quantity r = BillingEngine.raw_usage_quantity raw.
Proof.
  intros Hvalid Hr. unfold BillingEngine.generate_mock_billing in Hr.
  destruct raw_recs as [|raw0 raw_recs]; [now contradiction Hvalid|].
  destruct (BillingEngine.valid_records float_of_string (raw0 :: raw_recs))
    as [|v valid] eqn:Hv; [now contradiction Hvalid|].
  apply elem_of_normalize in Hr as (r0 & z & Hr0 & _ & ->).
  rewrite <- Hv in Hr0. unfold BillingEngine.valid_records in Hr0.
  apply list_elem_of_omap in Hr0 as (raw & Hraw & Hrep).
  apply repair_fields in Hrep
    as (Hm & Hs & (c & q & Hc & Hq & _) & Hreg & Hut & Hd & Hid & Hu & Hqty).
  exists raw. cbn.
  split; [exact Hraw|]. split; [exact Hm|]. split; [exact Hs|].
  split; [now exists c, q|]. split; [eexists; split; [reflexivity | lia]|].
  repeat (split; [assumption|]). assumption.
Qed.

(** Witness for X15: a record of October 2026 without region, usage type
    or description and with the cost "1200.5", normalised in November
    2026 against a budget of 15000. *)
Lemma normalized_records_are_repaired_inputs_witness :
  exists raw,
    raw ∈ [Scenario.october_record] /\
    BillingEngine.raw_month raw = Some "2026-10" /\
    BillingEngine.raw_service raw = Some "EC2" /\
    (exists c q, BillingEngine.raw_cost_inr raw = Some c /\
                 BillingEngine.py_float Scenario.float_of_sample c = Some q) /\
    (exists z, Py.NInt 15000 = Py.NInt z /\ 10 <= z) /\
    "ap-south-1" = default "ap-south-1" (BillingEngine.raw_region raw) /\
    "Standard" = default "Standard" (BillingEngine.raw_usage_type raw) /\
    "EC2 usage" = default ("EC2" +:+ " usage") (BillingEngine.raw_desc raw) /\
    Some "i-web-01" = BillingEngine.raw_resource_id raw /\
    None = BillingEngine.raw_unit raw /\
    None = BillingEngine.raw_usage_quantity raw.
Proof.
  apply (normalized_records_are_repaired_inputs (2026, 11) Scenario.float_of_sample
           (fun _ => 1%Q) (fun _ _ _ _ => EmptyString) Scenario.sqlite_profile
           [Scenario.october_record]
           {| Model.month := "2026-10"; Model.service := "EC2";
              Model.cost_inr := Py.NInt 15000;
              Model.region := "ap-south-1"; Model.usage_type := "Standard";
              Model.desc := "EC2 usage"; Model.resource_id := Some "i-web-01";
              Model.unit := None; Model.usage_quantity := None |}).
  - vm_compute. discriminate.
  - vm_compute. apply list_elem_of_here.
Defined.

Lemma lookup_map {A B} (f : A -> B) (l : list A) (k : nat) :
  List.map f l !! k = f <$> (l !! k).
Proof. revert k. induction l as [|x l IH]; intros [|k]; simpl; auto. Qed.

Lemma month_minus_spec (now : Z * Z) (i : Z) :
  1 <= snd (BillingEngine.month_minus now i) <= 12 /\
  12 * fst (BillingEngine.month_minus now i) + snd (BillingEngine.month_minus now i)
  = 12 * fst now + snd now - i.
Proof.
  unfold BillingEngine.month_minus. cbn [fst snd].
  set (idx := fst now * 12 + (snd now - 1) - i).
  pose proof (Z.mod_pos_bound idx 12 ltac:(lia)).
  pose proof (Z.div_mod idx 12 ltac:(lia)).
  lia.
Qed.

Lemma month_minus_0 (now : Z * Z) :
  1 <= snd now <= 12 -> BillingEngine.month_minus now 0 = now.
Proof.
  intros Hm. pose proof (month_minus_spec now 0) as [Hb He].
  destruct (BillingEngine.month_minus now 0) as [y m]. destruct now as [y0 m0].
  cbn [fst snd] in *. f_equal; lia.
Qed.

(** X16: the list of recent months has [n] entries that count back from
    the present month: entry [k] is the "%Y-%m" text of a year and a
    month between 1 and 12 that lie exactly [n - 1 - k] months before
    [now], so the list is in calendar order and, when not empty, ends
    with the present month. *)
Theorem recent_months_count_back (now : Z * Z) (n : nat) :
  1 <= snd now <= 12 ->
  length (BillingEngine.get_recent_months now n) = n /\
  (forall k, (k < n)%nat ->
     exists y m,
       BillingEngine.get_recent_months now n !! k
       = Some (BillingEngine.strftime_Y_m (y, m)) /\
       1 <= m <= 12 /\
       12 * y + m = 12 * fst now + snd now - Z.of_nat (n - 1 - k)) /\
  ((0 < n)%nat ->
   last (BillingEngine.get_recent_months now n) = Some (BillingEngine.strftime_Y_m now)).
Proof.
  intros Hm. split; [apply length_get_recent_months | split].
  - intros k Hk.
    pose proof (month_minus_spec now (Z.of_nat (n - 1 - k))) as [Hb He].
    destruct (BillingEngine.month_minus now (Z.of_nat (n - 1 - k))) as [y m] eqn:Hym.
    exists y, m. split; [|split; assumption].
    unfold BillingEngine.get_recent_months.
    now rewrite lookup_map, rev_seq_lookup, <- Hym by exact Hk.
  - intros Hn. destruct n as [|n]; [lia|].
    unfold BillingEngine.get_recent_months.
    change (seq 0 (S n)) with (0%nat :: seq 1 n).
    cbn [rev]. rewrite List.map_app. cbn [List.map].
    rewrite last_snoc. change (Z.of_nat 0) with 0.
    now rewrite month_minus_0.
Qed.

(** Witness for X16: the four months up to November 2026. *)
Lemma recent_months_count_back_witness :
  1 <= snd (2026, 11) <= 12 /\
  length (BillingEngine.get_recent_months (2026, 11) 4) = 4%nat /\
  last (BillingEngine.get_recent_months (2026, 11) 4) = Some "2026-11".
Proof.
  split; [simpl; lia|].
  destruct (recent_months_count_back (2026, 11) 4) as (Hlen & _ & Hlast); [simpl; lia|].
  split; [exact Hlen|]. rewrite Hlast by lia. vm_compute. reflexivity.
Defined.

(** ** The prompts of the retry loop *)

Section RetryPrompts.
Import LlmUtils LlmParts.
Context {P : Type}.
Variable truthy : P -> bool.
Variable llm : nat -> string -> option P.
Variable prompt : string.
Variable validator_fn : P -> bool * option string.

Lemma retry_loop_unfold (left i : nat) (current_prompt : string) :
  let a0 := Attempt current_prompt (llm i current_prompt) in
  snd (retry_loop truthy llm (S left) i prompt current_prompt validator_fn) = [a0] \/
  snd (retry_loop truthy llm (S left) i prompt current_prompt validator_fn)
  = a0 :: snd (retry_loop truthy llm left (S i) prompt
                 (next_prompt truthy prompt validator_fn a0) validator_fn).
Proof.
  cbn zeta. cbn [retry_loop]. unfold next_prompt. cbn [extracted].
  destruct (llm i current_prompt) as [d|].
  - destruct (truthy d).
    + destruct (validator_fn d) as [is_valid error_msg]. cbn [snd].
      destruct is_valid; [now left|].
      destruct (retry_loop _ _ left (S i) prompt _ validator_fn) as [r log]. now right.
    + destruct (retry_loop _ _ left (S i) prompt _ validator_fn) as [r log]. now right.
  - destruct (retry_loop _ _ left (S i) prompt _ validator_fn) as [r log]. now right.
Qed.

Lemma retry_loop_head (left i : nat) (current_prompt : string) (a : attempt P) :
  snd (retry_loop truthy llm left i prompt current_prompt validator_fn) !! 0%nat = Some a ->
  prompt_sent a = current_prompt.
Proof.
  destruct left as [|left]; [discriminate|].
  destruct (retry_loop_unfold left i current_prompt) as [-> | ->];
    intros [= <-]; reflexivity.
Qed.

Lemma retry_loop_nonempty (left i : nat) (current_prompt : string) :
  (0 < left)%nat ->
  exists a, snd (retry_loop truthy llm left i prompt current_prompt validator_fn) !! 0%nat
            = Some a.
Proof.
  destruct left as [|left]; [lia|]. intros _.
  destruct (retry_loop_unfold left i current_prompt) as [-> | ->]; eexists; reflexivity.
Qed.

Lemma retry_loop_next (left : nat) :
  forall i current_prompt k a b,
    snd (retry_loop truthy llm left i prompt current_prompt validator_fn) !! k = Some a ->
    snd (retry_loop truthy llm left i prompt current_prompt validator_fn) !! S k = Some b ->
    prompt_sent b = next_prompt truthy prompt validator_fn a.
Proof.
  induction left as [|left IH]; intros i cur k a b; [discriminate|].
  destruct (retry_loop_unfold left i cur) as [-> | ->].
  - destruct k; discriminate.
  - destruct k as [|k].
    + intros [= <-] Hb. apply retry_loop_head in Hb. exact Hb.
    + apply IH.
Qed.

End RetryPrompts.

(** X17: the prompts of the retry loop.  With a negative [max_retries]
    nothing is asked and the result is [None]; otherwise the first
    attempt sends the caller's prompt, and each later attempt sends the
    caller's prompt followed by one feedback paragraph that depends on
    the attempt just before it only: the validator's message when that
    attempt produced a non-empty payload, the "not JSON" notice
    otherwise.  Feedback of earlier attempts does not pile up. *)
Theorem query_loop_prompts_rebuilt_from_base
        {P : Type} (truthy : P -> bool) (llm : nat -> string -> option P)
        (prompt : string) (validator_fn : P -> bool * option string) (max_retries : Z) :
  let run := LlmUtils.query_llama_with_validation truthy llm prompt validator_fn max_retries in
  (max_retries < 0 -> run = (None, [])) /\
  (0 <= max_retries ->
   exists a, snd run !! 0%nat = Some a /\ LlmUtils.prompt_sent a = prompt) /\
  (forall k a b, snd run !! k = Some a -> snd run !! S k = Some b ->
     LlmUtils.prompt_sent b = LlmParts.next_prompt truthy prompt validator_fn a /\
     exists feedback, LlmUtils.prompt_sent b = prompt +:+ feedback).
Proof.
  cbn zeta. unfold LlmUtils.query_llama_with_validation.
  split; [|split].
  - intros Hneg. replace (Z.to_nat (max_retries + 1)) with 0%nat by lia. reflexivity.
  - intros Hpos.
    destruct (retry_loop_nonempty truthy llm prompt validator_fn
                (Z.to_nat (max_retries + 1)) 0%nat prompt ltac:(lia)) as [a Ha].
    exists a. split; [exact Ha|]. eapply retry_loop_head, Ha.
  - intros k a b Ha Hb.
    pose proof (retry_loop_next truthy llm prompt validator_fn _ _ _ _ _ _ Ha Hb) as Hnext.
    split; [exact Hnext|].
    rewrite Hnext. unfold LlmParts.next_prompt.
    destruct (LlmUtils.extracted a) as [d|]; [destruct (truthy d)|];
      unfold LlmUtils.invalid_feedback, LlmUtils.not_json_feedback;
      eexists; reflexivity.
Qed.

(** ** Strings: pieces, prefixes and character classes *)

Section StringFacts.
Import Py LlmParts.
Local Arguments String.append : simpl nomatch.

Lemma str_app_nil_r (s : string) : s +:+ EmptyString = s.
Proof. induction s as [|c s IH]; cbn [String.append]; [reflexivity | now f_equal]. Qed.

Lemma str_app_assoc (a b c : string) : (a +:+ b) +:+ c = a +:+ (b +:+ c).
Proof. induction a as [|x a IH]; cbn [String.append]; [reflexivity | now f_equal]. Qed.

Lemma str_length_app (a b : string) :
  String.length (a +:+ b) = (String.length a + String.length b)%nat.
Proof. induction a as [|x a IH]; simpl; [reflexivity | now rewrite IH]. Qed.

Lemma all_chars_app (p : ascii -> bool) (a b : string) :
  all_chars p (a +:+ b) = all_chars p a && all_chars p b.
Proof.
  induction a as [|x a IH]; simpl; [reflexivity|].
  rewrite IH. now rewrite andb_assoc.
Qed.

Lemma all_chars_impl (p q : ascii -> bool) (s : string) :
  (forall c, p c = true -> q c = true) -> all_chars p s = true -> all_chars q s = true.
Proof.
  intros Hpq. induction s as [|c s IH]; simpl; [reflexivity|].
  intros [Hc Hs]%andb_true_iff. rewrite (Hpq c Hc). simpl. now apply IH.
Qed.

Lemma occurs_in_refl (s : string) : occurs_in s s.
Proof. exists EmptyString, EmptyString. simpl. now rewrite str_app_nil_r. Qed.

Lemma occurs_in_trans (a b c : string) : occurs_in a b -> occurs_in b c -> occurs_in a c.
Proof.
  intros (p1 & q1 & ->) (p2 & q2 & ->).
  exists (p2 +:+ p1), (q1 +:+ q2). now rewrite !str_app_assoc.
Qed.

Lemma occurs_in_all_chars (p : ascii -> bool) (a b : string) :
  occurs_in a b -> all_chars p b = true -> all_chars p a = true.
Proof.
  intros (pre & post & ->). rewrite !all_chars_app.
  intros [_ [H _]%andb_true_iff]%andb_true_iff. exact H.
Qed.

Lemma prefix_true_iff (n h : string) :
  String.prefix n h = true <-> exists post, h = n +:+ post.
Proof.
  revert h. induction n as [|a n IH]; intros h.
  - destruct h; simpl; split; eauto.
  - destruct h as [|b h]; simpl.
    + split; [discriminate | intros [post Hp]; discriminate].
    + destruct (ascii_dec a b) as [->|Hne].
      * rewrite IH. split; intros [post Hp]; exists post; congruence.
      * split; [discriminate | intros [post Hp]; congruence].
Qed.

Lemma contains_true_iff (n h : string) : contains n h = true <-> occurs_in n h.
Proof.
  induction h as [|c h IH].
  - cbn [contains]. rewrite orb_false_r, prefix_true_iff. split.
    + intros [post Hp]. exists EmptyString, post. exact Hp.
    + intros ([|x pre] & post & Hp); [now exists post | discriminate].
  - cbn [contains]. rewrite orb_true_iff, prefix_true_iff, IH. split.
    + intros [[post Hp] | (pre & post & Hp)].
      * exists EmptyString, post. exact Hp.
      * exists (String c pre), post. simpl. now rewrite Hp.
    + intros ([|x pre] & post & Hp).
      * left. now exists post.
      * right. exists pre, post. simpl in Hp. congruence.
Qed.

Lemma drop_prefix_Some (n s rest : string) :
  drop_prefix n s = Some rest <-> s = n +:+ rest.
Proof.
  revert s. induction n as [|a n IH]; intros s.
  - simpl. destruct s; split; congruence.
  - destruct s as [|b s]; simpl; [split; discriminate|].
    destruct (Ascii.eqb_spec a b) as [->|Hne].
    + rewrite IH. split; congruence.
    + split; [discriminate | congruence].
Qed.

Lemma span_app (p : ascii -> bool) (s : string) :
  s = fst (span p s) +:+ snd (span p s).
Proof.
  induction s as [|c s IH]; simpl; [reflexivity|].
  destruct (p c); [|reflexivity].
  destruct (span p s) as [a b]. simpl in *. now rewrite <- IH.
Qed.

Lemma span_fst_all (p : ascii -> bool) (s : string) :
  all_chars p (fst (span p s)) = true.
Proof.
  induction s as [|c s IH]; simpl; [reflexivity|].
  destruct (p c) eqn:Hc; [|reflexivity].
  destruct (span p s) as [a b]. simpl in *. now rewrite Hc.
Qed.

Lemma lstrip_suffix (s : string) :
  exists ws, s = ws +:+ lstrip s /\ all_chars is_space ws = true.
Proof.
  induction s as [|c s (ws & IH & Hws)]; simpl.
  - now exists EmptyString.
  - destruct (is_space c) eqn:Hc.
    + exists (String c ws). simpl. rewrite Hc, Hws. now rewrite <- IH.
    + now exists EmptyString.
Qed.

Lemma rstrip_prefix (s : string) :
  exists ws, s = rstrip s +:+ ws /\ all_chars is_space ws = true.
Proof.
  induction s as [|c s (ws & IH & Hws)]; cbn [rstrip].
  - now exists EmptyString.
  - destruct (rstrip s) as [|d r] eqn:Hr.
    + destruct (is_space c) eqn:Hc.
      * exists (String c ws). simpl in *. subst ws. now rewrite Hc, Hws.
      * exists ws. simpl in *. subst ws. now split.
    + exists ws. split; [|exact Hws]. simpl in *. now rewrite <- IH.
Qed.

Lemma rstrip_idem (s : string) : rstrip (rstrip s) = rstrip s.
Proof.
  induction s as [|c s IH]; cbn [rstrip]; [reflexivity|].
  destruct (rstrip s) as [|d r] eqn:Hr.
  - destruct (is_space c) eqn:Hc; cbn [rstrip]; [reflexivity | now rewrite Hc].
  - cbn [rstrip] in IH |- *. now rewrite IH.
Qed.

(** A string that does not begin with whitespace still does not after
    its trailing whitespace is removed. *)
Lemma lstrip_rstrip_fixed (s : string) : lstrip s = s -> lstrip (rstrip s) = rstrip s.
Proof.
  destruct s as [|c s]; [reflexivity|].
  cbn [lstrip]. destruct (is_space c) eqn:Hc.
  - intros Hs. exfalso.
    assert (Hlen : (String.length (lstrip s) <= String.length s)%nat).
    { destruct (lstrip_suffix s) as (ws & Hws & _).
      rewrite Hws at 2. rewrite str_length_app. lia. }
    rewrite Hs in Hlen. simpl in Hlen. lia.
  - intros _. cbn [rstrip].
    destruct (rstrip s); rewrite ?Hc; cbn [lstrip]; now rewrite Hc.
Qed.

Lemma lstrip_idem (s : string) : lstrip (lstrip s) = lstrip s.
Proof.
  induction s as [|c s IH]; simpl; [reflexivity|].
  destruct (is_space c) eqn:Hc; [exact IH | simpl; now rewrite Hc].
Qed.

Lemma strip_occurs (s : string) : occurs_in (strip s) s.
Proof.
  unfold strip.
  destruct (lstrip_suffix s) as (ws & Hs & _).
  destruct (rstrip_prefix (lstrip s)) as (ws' & Hr & _).
  exists ws, ws'. rewrite <- Hr. exact Hs.
Qed.

Lemma strip_fixed (s : string) : strip (strip s) = strip s.
Proof.
  unfold strip.
  rewrite (lstrip_rstrip_fixed (lstrip s) (lstrip_idem s)). apply rstrip_idem.
Qed.

End StringFacts.

(** ** The profile sanitizer, field by field *)

Section SanitizerFields.
Import Py Model ProfileGenerator ProfileParts LlmParts.
Local Arguments String.append : simpl nomatch.

Lemma search_Some (pattern_at : string -> option string) (s g : string) :
  search pattern_at s = Some g -> exists s', pattern_at s' = Some g.
Proof.
  induction s as [|c s IH]; cbn [search].
  - destruct (pattern_at EmptyString) eqn:H; [|discriminate].
    intros [= <-]. eauto.
  - destruct (pattern_at (String c s)) eqn:H; [intros [= <-]; eauto | exact IH].
Qed.

Lemma amount_after_chars (s g : string) :
  amount_after s = Some g -> all_chars is_amount_char g = true.
Proof.
  unfold amount_after.
  destruct (span is_space s) as [ws rest].
  pose proof (span_fst_all is_amount_char rest) as Hall.
  destruct (span is_amount_char rest) as [grp tl]. simpl in Hall.
  destruct (nonempty grp); [intros [= <-]; exact Hall | discriminate].
Qed.

Lemma prefixed_amount_chars (s g : string) :
  prefixed_amount_at s = Some g -> all_chars is_amount_char g = true.
Proof.
  unfold prefixed_amount_at.
  destruct (drop_prefix "rs" s) as [rest|].
  - destruct (drop_prefix "." rest) as [rest'|].
    + destruct (amount_after rest') as [g'|] eqn:H.
      * intros [= <-]. eapply amount_after_chars, H.
      * apply amount_after_chars.
    + apply amount_after_chars.
  - destruct (drop_prefix "inr" s) as [rest|]; [apply amount_after_chars|].
    destruct (drop_prefix "₹" s) as [rest|]; [apply amount_after_chars | discriminate].
Qed.

Lemma suffixed_amount_chars (s g : string) :
  suffixed_amount_at s = Some g -> all_chars is_amount_char g = true.
Proof.
  unfold suffixed_amount_at.
  pose proof (span_fst_all is_amount_char s) as Hall.
  destruct (span is_amount_char s) as [grp rest]. simpl in Hall.
  destruct (nonempty grp); [|discriminate].
  destruct (span is_space rest) as [ws rest'].
  destruct (String.prefix "rupees" rest' || String.prefix "rs" rest');
    [intros [= <-]; exact Hall | discriminate].
Qed.

Lemma budget_match_chars (text_lower g : string) :
  budget_match text_lower = Some g -> all_chars is_amount_char g = true.
Proof.
  unfold budget_match.
  destruct (search prefixed_amount_at text_lower) as [g'|] eqn:H1.
  - intros [= <-]. apply search_Some in H1 as [s' H1]. eapply prefixed_amount_chars, H1.
  - intros H2. apply search_Some in H2 as [s' H2]. eapply suffixed_amount_chars, H2.
Qed.

Lemma remove_commas_digits (g : string) :
  all_chars is_amount_char g = true -> all_chars is_digit (remove_char "," g) = true.
Proof.
  induction g as [|c g IH]; cbn [all_chars remove_char]; [reflexivity|].
  intros [Hc Hg]%andb_true_iff.
  destruct (Ascii.eqb "," c) eqn:He; [now apply IH|].
  cbn [all_chars]. rewrite (IH Hg), andb_true_r.
  unfold is_amount_char in Hc. apply orb_true_iff in Hc as [Hc | Hc]; [exact Hc|].
  rewrite Ascii.eqb_sym in Hc. congruence.
Qed.

Lemma digit_val_nonneg (c : ascii) : is_digit c = true -> 0 <= digit_val c <= 9.
Proof.
  unfold is_digit, digit_val. cbv zeta.
  intros [H1 H2]%andb_true_iff. apply N.leb_le in H1, H2. lia.
Qed.

Lemma digits_value_nonneg (s : string) (acc : Z) :
  0 <= acc -> all_chars is_digit s = true -> 0 <= digits_value acc s.
Proof.
  revert acc. induction s as [|c s IH]; intros acc Hacc; simpl; [intros _; exact Hacc|].
  intros [Hc Hs]%andb_true_iff. apply IH; [|exact Hs].
  pose proof (digit_val_nonneg c Hc). lia.
Qed.

(** The override depends on the text only. *)
Lemma sanitized_budget_cases (text_lower : string) :
  (forall b, sanitized_budget text_lower b = b) \/
  (exists v, 0 <= v /\ forall b, sanitized_budget text_lower b = Some (NInt v)).
Proof.
  unfold sanitized_budget.
  destruct (budget_match text_lower) as [g|] eqn:Hg; [|now left].
  apply budget_match_chars, remove_commas_digits in Hg.
  unfold int_of_digits.
  destruct (remove_char "," g) as [|c digits] eqn:Hd; [now left|].
  right. exists (digits_value 0 (String c digits)). split; [|reflexivity].
  apply digits_value_nonneg; [lia | exact Hg].
Qed.

Lemma any_in_occurs (ks : list string) (s : string) :
  any_in ks s = true <-> exists k, k ∈ ks /\ occurs_in k s.
Proof.
  unfold any_in. rewrite existsb_exists. split.
  - intros (k & Hk & Hc). exists k. split; [now apply list_elem_of_In | now apply contains_true_iff].
  - intros (k & Hk & Hc). exists k. split; [now apply list_elem_of_In | now apply contains_true_iff].
Qed.

(** What the validation loop appends for a requirement, and why. *)
Lemma validate_nfr_Some (text_lower nfr x : string) :
  validate_nfr text_lower nfr = Some x ->
  (x = nfr \/ x = title nfr) /\ exists w, grounds text_lower nfr w.
Proof.
  unfold validate_nfr, grounds. cbv zeta.
  set (nfr_clean := strip (lower nfr)).
  destruct (negb (bool_decide (findall_digits nfr_clean = [])) &&
            forallb (fun n => contains n text_lower) (findall_digits nfr_clean)) eqn:Hnums.
  - intros [= <-]. split; [now left|].
    apply andb_true_iff in Hnums as [Hne Hall].
    destruct (findall_digits nfr_clean) as [|n nums]; [discriminate|].
    cbn [forallb] in Hall. apply andb_true_iff in Hall as [Hn _].
    exists n. split; [now apply contains_true_iff | left; apply list_elem_of_here].
  - destruct (concept_hit text_lower nfr_clean) as [[concept keywords]|] eqn:Hhit.
    + intros [= <-]. split; [now right|].
      unfold concept_hit in Hhit. apply find_some in Hhit as [Hin Hcond].
      apply andb_true_iff in Hcond as [Hmention Htext].
      apply any_in_occurs in Htext as (w & Hw & Hocc).
      exists w. split; [exact Hocc|]. right; left.
      exists concept, keywords. split; [now apply list_elem_of_In|]. split.
      * apply orb_true_iff in Hmention as [Hc | Hk].
        -- left. now apply contains_true_iff.
        -- right. now apply any_in_occurs.
      * apply elem_of_app in Hw as [Hw | Hw]; [now right|].
        apply list_elem_of_singleton in Hw. now left.
    + destruct (contains nfr_clean text_lower) eqn:Hin; [|discriminate].
      intros [= <-]. split; [now left|].
      exists nfr_clean. split; [now apply contains_true_iff | now right; right].
Qed.

(** A requirement that mentions a concept the text supports, or that
    occurs in the text as a whole, is not dropped. *)
Lemma validate_nfr_keeps (text_lower nfr w : string) :
  occurs_in w text_lower ->
  ((exists concept keywords,
       (concept, keywords) ∈ concepts /\
       (occurs_in concept (strip (lower nfr)) \/
        exists k, k ∈ keywords /\ occurs_in k (strip (lower nfr))) /\
       (w = concept \/ w ∈ keywords)) \/
   w = strip (lower nfr)) ->
  validate_nfr text_lower nfr = Some nfr \/ validate_nfr text_lower nfr = Some (title nfr).
Proof.
  intros Hocc Hwhy. unfold validate_nfr. cbv zeta.
  set (nfr_clean := strip (lower nfr)) in *.
  destruct (negb (bool_decide (findall_digits nfr_clean = [])) &&
            forallb (fun n => contains n text_lower) (findall_digits nfr_clean));
    [now left|].
  destruct (concept_hit text_lower nfr_clean) as [hit|] eqn:Hhit; [now right|].
  destruct Hwhy as [(concept & keywords & Hin & Hmention & Hw) | ->].
  - exfalso. unfold concept_hit in Hhit.
    apply list_elem_of_In in Hin.
    pose proof (find_none _ _ Hhit (concept, keywords) Hin) as Hcond.
    cbn beta iota in Hcond. apply andb_false_iff in Hcond as [Hcond | Hcond].
    + apply orb_false_iff in Hcond as [Hc Hk].
      destruct Hmention as [Hm | Hm].
      * apply contains_true_iff in Hm. congruence.
      * apply any_in_occurs in Hm. congruence.
    + assert (any_in (keywords ++ [concept]) text_lower = true); [|congruence].
      apply any_in_occurs. exists w. split; [|exact Hocc].
      apply elem_of_app. destruct Hw as [-> | Hw]; [right; apply list_elem_of_here | now left].
  - apply contains_true_iff in Hocc. rewrite Hocc. now left.
Qed.

End SanitizerFields.

(** X18: the sanitized tech stack has exactly the layers of the
    candidate's, and the tool of a layer is either "Not Specified" or the
    candidate's tool for that layer, which then is not empty and whose
    lower-case form occurs in the lower-cased description. *)
Theorem sanitized_stack_only_tools_of_the_text
        (set_order : list string -> list string) (p : Model.Profile) (t : string) :
  exists stack : gmap string string,
    Model.tech_stack (ProfileGenerator._sanitize_profile set_order p t) = Some stack /\
    dom stack =@{gset string} dom (default ∅ (Model.tech_stack p)) /\
    forall layer tool,
      stack !! layer = Some tool ->
      tool = "Not Specified" \/
      (default ∅ (Model.tech_stack p) !! layer = Some tool /\ tool <> EmptyString /\
       LlmParts.occurs_in (Py.lower tool) (Py.lower t)).
Proof.
  eexists. split; [reflexivity|]. split; [apply dom_fmap_L|].
  intros layer tool Hl. rewrite lookup_fmap in Hl.
  apply fmap_Some in Hl as (tool0 & Hl & ->).
  unfold ProfileGenerator.check_tool.
  destruct (Py.nonempty tool0 && Py.contains (Py.lower tool0) (Py.lower t)) eqn:Hkeep;
    [|now left].
  right. apply andb_true_iff in Hkeep as [Hne Hin].
  split; [exact Hl|]. split; [now destruct tool0 | now apply contains_true_iff].
Qed.

(** X19: the sanitized requirement list.  Given that [list(set(xs))]
    enumerates the elements of [xs] without repetition, the list has no
    repetition; each of its entries is a candidate requirement, verbatim
    or title-cased, for which the description has evidence: a number of
    the requirement, a keyword of a concept the requirement mentions, or
    the requirement as a whole occurs in the lower-cased description.
    Conversely a candidate with evidence of the second or third kind is
    kept, verbatim or title-cased. *)
Theorem sanitized_requirements_are_grounded
        (set_order : list string -> list string)
        (set_order_spec : forall xs, NoDup (set_order xs) /\ forall x, x ∈ set_order xs <-> x ∈ xs)
        (p : Model.Profile) (t : string) :
  let candidates := default [] (Model.non_functional_requirements p) in
  let out := default [] (Model.non_functional_requirements
                           (ProfileGenerator._sanitize_profile set_order p t)) in
  NoDup out /\
  (forall x, x ∈ out ->
     exists nfr w, nfr ∈ candidates /\ (x = nfr \/ x = Py.title nfr) /\
                   ProfileParts.grounds (Py.lower t) nfr w) /\
  (forall nfr w, nfr ∈ candidates ->
     ProfileParts.grounds (Py.lower t) nfr w ->
     w ∉ ProfileGenerator.findall_digits (Py.strip (Py.lower nfr)) ->
     nfr ∈ out \/ Py.title nfr ∈ out).
Proof.
  cbn zeta. cbn [ProfileGenerator._sanitize_profile Model.non_functional_requirements default].
  destruct (set_order_spec
              (omap (ProfileGenerator.validate_nfr (Py.lower t))
                    (default [] (Model.non_functional_requirements p)))) as [Hnd Hin].
  split; [exact Hnd | split].
  - intros x Hx. apply Hin, list_elem_of_omap in Hx as (nfr & Hnfr & Hv).
    apply validate_nfr_Some in Hv as [Hx [w Hw]]. now exists nfr, w.
  - intros nfr w Hnfr [Hocc Hwhy] Hnot.
    destruct Hwhy as [Hd | Hwhy]; [contradiction|].
    destruct (validate_nfr_keeps (Py.lower t) nfr w Hocc Hwhy) as [Hv | Hv].
    + left. apply Hin, list_elem_of_omap. now exists nfr.
    + right. apply Hin, list_elem_of_omap. now exists nfr.
Qed.

(** Witness for X19: the candidate profile of the sample description,
    with duplicates removed in order of first appearance. *)
Lemma sanitized_requirements_are_grounded_witness :
  NoDup (default [] (Model.non_functional_requirements
                       (ProfileGenerator._sanitize_profile remove_dups
                          Scenario.candidate_profile Scenario.description_text))).
Proof.
  apply (sanitized_requirements_are_grounded remove_dups).
  intros xs. split; [apply NoDup_remove_dups | intros x; apply elem_of_remove_dups].
Defined.

(** X20: whether the sanitizer overrides the budget, and with what,
    depends on the description only: either the candidate's budget is
    kept whatever it is (no amount in the text, or an amount group made
    of commas only), or the budget becomes one int read from the text,
    which is not negative, whatever the candidate said. *)
Theorem sanitized_budget_from_text_or_candidate
        (set_order : list string -> list string) (t : string) :
  (forall p, Model.budget_inr_per_month (ProfileGenerator._sanitize_profile set_order p t)
             = Model.budget_inr_per_month p) \/
  (exists v, 0 <= v /\
     forall p, Model.budget_inr_per_month (ProfileGenerator._sanitize_profile set_order p t)
               = Some (Py.NInt v)).
Proof.
  destruct (sanitized_budget_cases (Py.lower t)) as [Hkeep | (v & Hv & Hset)].
  - left. intros p. apply Hkeep.
  - right. exists v. split; [exact Hv|]. intros p. apply Hset.
Qed.

(** X21: the description of a sanitized profile is a piece of the raw
    text that contains no full stop and no line break and has no
    whitespace at either end. *)
Theorem sanitized_description_is_first_sentence
        (set_order : list string -> list string) (p : Model.Profile) (t : string) :
  exists d,
    Model.description (ProfileGenerator._sanitize_profile set_order p t) = Some d /\
    LlmParts.occurs_in d t /\
    LlmParts.all_chars (fun c => negb (ProfileGenerator.is_sentence_end c)) d = true /\
    Py.strip d = d.
Proof.
  eexists. split; [reflexivity|]. unfold ProfileGenerator.first_sentence.
  set (p0 := fun c => negb (ProfileGenerator.is_sentence_end c)).
  assert (Hpiece : LlmParts.occurs_in (fst (Py.span p0 t)) t).
  { exists EmptyString, (snd (Py.span p0 t)). apply span_app. }
  split; [|split].
  - eapply occurs_in_trans; [apply strip_occurs | exact Hpiece].
  - eapply occurs_in_all_chars; [apply strip_occurs | apply span_fst_all].
  - apply strip_fixed.
Qed.

(** X22: extract_project_profile returns [None] exactly when the
    completion could not be read or lacks one of the five required keys;
    otherwise it returns the sanitized candidate, which again has all
    five keys and the candidate's name. *)
Theorem extraction_gives_complete_profile_or_none
        (set_order : list string -> list string) (profile_prompt : string -> string)
        (query_llama_json : string -> option Model.Profile) (description : string) :
  match ProfileParts.extract_project_profile set_order profile_prompt query_llama_json
          description with
  | Some out =>
      ProfileParts.has_required out = true /\
      exists raw, query_llama_json (profile_prompt description) = Some raw /\
                  ProfileParts.has_required raw = true /\
                  out = ProfileGenerator._sanitize_profile set_order raw description /\
                  Model.name out = Model.name raw
  | None =>
      query_llama_json (profile_prompt description) = None \/
      exists raw, query_llama_json (profile_prompt description) = Some raw /\
                  ProfileParts.has_required raw = false
  end.
Proof.
  unfold ProfileParts.extract_project_profile.
  destruct (query_llama_json (profile_prompt description)) as [raw|]; [|now left].
  destruct (ProfileParts.profile_truthy raw) eqn:Ht; cbn [negb].
  - destruct (ProfileParts.has_required raw) eqn:Hr; cbn [negb].
    + split; [|now exists raw].
      unfold ProfileParts.has_required in *.
      cbn [ProfileGenerator._sanitize_profile Model.name Model.budget_inr_per_month
           Model.description Model.tech_stack Model.non_functional_requirements].
      destruct (Model.name raw); [|discriminate].
      destruct (Model.budget_inr_per_month raw) as [b|]; [|discriminate].
      destruct (sanitized_budget_cases (Py.lower description)) as [Hkeep | (v & _ & Hset)].
      * now rewrite Hkeep.
      * now rewrite Hset.
    + right. now exists raw.
  - right. exists raw. split; [reflexivity|].
    unfold ProfileParts.profile_truthy, ProfileParts.has_required in *.
    destruct (Model.name raw), (Model.budget_inr_per_month raw), (Model.description raw),
             (Model.tech_stack raw), (Model.non_functional_requirements raw);
      try discriminate; reflexivity.
Qed.

(** ** Extraction of the JSON block *)

Section JsonBlockFacts.
Import Py LlmParts.
Local Arguments String.append : simpl nomatch.

Lemma occurs_in_app_r (a b : string) : occurs_in b (a +:+ b).
Proof. exists a, EmptyString. now rewrite str_app_nil_r. Qed.

Lemma occurs_in_app_l (a b : string) : occurs_in a (a +:+ b).
Proof. now exists EmptyString, b. Qed.

Lemma split_at_first_Some (needle s before rest : string) :
  split_at_first needle s = Some (before, rest) -> s = before +:+ needle +:+ rest.
Proof.
  revert before. induction s as [|c s IH]; intros before; cbn [split_at_first].
  - destruct (drop_prefix needle EmptyString) as [r|] eqn:Hd; [|discriminate].
    intros [= <- <-]. now apply drop_prefix_Some in Hd.
  - destruct (drop_prefix needle (String c s)) as [r|] eqn:Hd.
    + intros [= <- <-]. now apply drop_prefix_Some in Hd.
    + destruct (split_at_first needle s) as [[b r]|]; [|discriminate].
      intros [= <- <-]. simpl. now rewrite (IH b eq_refl).
Qed.

(** A needle that begins with [x] is first found right after a text
    without [x]. *)
Lemma split_at_first_fresh (x : ascii) (needle' before rest : string) :
  all_chars (fun d => negb (Ascii.eqb d x)) before = true ->
  split_at_first (String x needle') (before +:+ String x needle' +:+ rest)
  = Some (before, rest).
Proof.
  intros Hfresh. induction before as [|c before IH].
  - cbn [String.append].
    assert (Hd : drop_prefix (String x needle') (String x needle' +:+ rest) = Some rest)
      by now apply drop_prefix_Some.
    cbn [String.append] in Hd. cbn [split_at_first]. now rewrite Hd.
  - cbn [all_chars] in Hfresh. apply andb_true_iff in Hfresh as [Hc Hrest].
    cbn [String.append split_at_first drop_prefix].
    rewrite Ascii.eqb_sym. apply negb_true_iff in Hc. rewrite Hc.
    specialize (IH Hrest). cbn [String.append] in IH. now rewrite IH.
Qed.

Lemma fenced_block_occurs (t g : string) : fenced_block t = Some g -> occurs_in g t.
Proof.
  unfold fenced_block.
  destruct (split_at_first "```json" t) as [[before rest]|] eqn:H1; [|discriminate].
  apply split_at_first_Some in H1.
  pose proof (span_app is_space rest) as H2.
  destruct (span is_space rest) as [ws body]. cbn [fst snd] in H2.
  destruct (split_at_first "```" body) as [[inner post]|] eqn:H3; [|discriminate].
  apply split_at_first_Some in H3. intros [= <-].
  destruct (rstrip_prefix inner) as (ws' & H4 & _).
  assert (O1 : occurs_in (rstrip inner) inner) by (exists EmptyString, ws'; exact H4).
  assert (O2 : occurs_in inner body) by (rewrite H3; apply occurs_in_app_l).
  assert (O3 : occurs_in body rest) by (rewrite H2; apply occurs_in_app_r).
  assert (O4 : occurs_in rest t) by (rewrite H1, <- str_app_assoc; apply occurs_in_app_r).
  exact (occurs_in_trans _ _ _ O1 (occurs_in_trans _ _ _ O2 (occurs_in_trans _ _ _ O3 O4))).
Qed.

Lemma fenced_block_None (t : string) : ~ occurs_in "```json" t -> fenced_block t = None.
Proof.
  intros Hno. unfold fenced_block.
  destruct (split_at_first "```json" t) as [[before rest]|] eqn:H1; [|reflexivity].
  apply split_at_first_Some in H1. exfalso. apply Hno. now exists before, rest.
Qed.

Lemma open_cases (c : ascii) : is_open c = true -> c = "["%char \/ c = "{"%char.
Proof.
  unfold is_open. intros [H | H]%orb_true_iff; apply Ascii.eqb_eq in H; auto.
Qed.

Lemma close_cases (c : ascii) : is_close c = true -> c = "]"%char \/ c = "}"%char.
Proof.
  unfold is_close. intros [H | H]%orb_true_iff; apply Ascii.eqb_eq in H; auto.
Qed.

Lemma open_not_close (c : ascii) : is_open c = true -> is_close c = false.
Proof. intros [-> | ->]%open_cases; reflexivity. Qed.

Lemma open_not_space (c : ascii) : is_open c = true -> is_space c = false.
Proof. intros [-> | ->]%open_cases; reflexivity. Qed.

Lemma close_not_space (c : ascii) : is_close c = true -> is_space c = false.
Proof. intros [-> | ->]%close_cases; reflexivity. Qed.

Lemma space_not_tick (c : ascii) : is_space c = true -> negb (Ascii.eqb c "`") = true.
Proof.
  intros Hs. apply negb_true_iff. destruct (Ascii.eqb_spec c "`") as [->|]; [|reflexivity].
  discriminate.
Qed.

(** *** The first opening bracket *)

Lemma find_index_Some (p : ascii -> bool) (s : string) (i : nat) :
  find_index p s = Some i ->
  exists pre o rest, s = pre +:+ String o rest /\ String.length pre = i /\
                     all_chars (fun c => negb (p c)) pre = true /\ p o = true.
Proof.
  revert i. induction s as [|c s IH]; intros i; cbn [find_index]; [discriminate|].
  destruct (p c) eqn:Hc.
  - intros [= <-]. now exists EmptyString, c, s.
  - destruct (find_index p s) as [j|]; [|discriminate].
    intros [= <-]. destruct (IH j eq_refl) as (pre & o & rest & -> & Hlen & Hpre & Ho).
    exists (String c pre), o, rest. cbn. rewrite Hc, Hpre, Hlen. auto.
Qed.

Lemma find_index_app (p : ascii -> bool) (pre : string) (o : ascii) (rest : string) :
  all_chars (fun c => negb (p c)) pre = true -> p o = true ->
  find_index p (pre +:+ String o rest) = Some (String.length pre).
Proof.
  intros Hpre Ho. induction pre as [|c pre IH]; cbn.
  - now rewrite Ho.
  - cbn in Hpre. apply andb_true_iff in Hpre as [Hc Hpre].
    apply negb_true_iff in Hc. now rewrite Hc, (IH Hpre).
Qed.

(** *** The last closing bracket *)

Lemma rfind_ge (c : ascii) (s : string) : -1 <= rfind c s.
Proof.
  induction s as [|d s IH]; cbn [rfind]; [lia|].
  destruct (0 <=? rfind c s) eqn:Hr; [apply Z.leb_le in Hr; lia|].
  destruct (Ascii.eqb c d); lia.
Qed.

Lemma rfind_absent (c : ascii) (s : string) :
  all_chars (fun d => negb (Ascii.eqb c d)) s = true -> rfind c s = -1.
Proof.
  induction s as [|d s IH]; cbn [rfind all_chars]; [reflexivity|].
  intros [Hd Hs]%andb_true_iff. rewrite (IH Hs). cbn.
  apply negb_true_iff in Hd. now rewrite Hd.
Qed.

Lemma rfind_found (c : ascii) (s : string) :
  0 <= rfind c s ->
  exists pre post, s = pre +:+ String c post /\
                   Z.of_nat (String.length pre) = rfind c s.
Proof.
  induction s as [|d s IH]; cbn [rfind]; [lia|].
  destruct (0 <=? rfind c s) eqn:Hr.
  - apply Z.leb_le in Hr. intros _.
    destruct (IH Hr) as (pre & post & -> & Hlen).
    exists (String d pre), post. split; [reflexivity|]. cbn [String.length]. lia.
  - destruct (Ascii.eqb_spec c d) as [<-|Hne]; [|lia].
    intros _. now exists EmptyString, s.
Qed.

Lemma rfind_app_last (c : ascii) (a post : string) :
  all_chars (fun d => negb (Ascii.eqb c d)) post = true ->
  rfind c (a +:+ String c post) = Z.of_nat (String.length a).
Proof.
  intros Hpost. induction a as [|d a IH]; cbn [String.append rfind String.length].
  - rewrite (rfind_absent c post Hpost). cbn. now rewrite Ascii.eqb_refl.
  - rewrite IH. destruct (0 <=? Z.of_nat (String.length a)) eqn:Hr; [lia|].
    apply Z.leb_gt in Hr. lia.
Qed.

Lemma rfind_before (c : ascii) (a tail : string) :
  all_chars (fun d => negb (Ascii.eqb c d)) tail = true ->
  rfind c (a +:+ tail) < Z.of_nat (String.length a).
Proof.
  intros Htail. induction a as [|d a IH]; cbn [String.append rfind String.length].
  - rewrite (rfind_absent c tail Htail). lia.
  - destruct (0 <=? rfind c (a +:+ tail)); [lia|].
    destruct (Ascii.eqb c d); lia.
Qed.

(** *** Slices *)

Lemma substring_zero (n : nat) (s : string) : substring n 0 s = EmptyString.
Proof.
  revert n. induction s as [|c s IH]; intros [|n]; cbn [substring]; auto.
Qed.

Lemma substring_prefix (b rest : string) :
  substring 0 (String.length b) (b +:+ rest) = b.
Proof.
  induction b as [|c b IH]; cbn [String.append String.length].
  - apply substring_zero.
  - cbn [substring]. now rewrite IH.
Qed.

Lemma substring_app_exact (a b rest : string) :
  substring (String.length a) (String.length b) (a +:+ b +:+ rest) = b.
Proof.
  induction a as [|c a IH]; cbn [String.append String.length].
  - apply substring_prefix.
  - cbn [substring]. exact IH.
Qed.

(** Two ways of cutting one string at a character: the cut further to
    the right contains the other. *)
Lemma app_cut_inside (a1 : string) :
  forall (x1 : ascii) (r1 a2 : string) (x2 : ascii) (r2 : string),
    a1 +:+ String x1 r1 = a2 +:+ String x2 r2 ->
    (String.length a1 < String.length a2)%nat ->
    exists mid, a2 = a1 +:+ String x1 mid /\ r1 = mid +:+ String x2 r2.
Proof.
  induction a1 as [|c a1 IH]; intros x1 r1 a2 x2 r2 Heq Hlen.
  - destruct a2 as [|d a2]; [cbn in Hlen; lia|].
    cbn in Heq. injection Heq as <- ->. now exists a2.
  - destruct a2 as [|d a2]; [cbn in Hlen; lia|].
    cbn in Heq, Hlen. injection Heq as <- Heq.
    destruct (IH x1 r1 a2 x2 r2 Heq ltac:(lia)) as (mid & -> & ->).
    now exists mid.
Qed.

Lemma app_cut_same (a1 : string) :
  forall (x1 : ascii) (r1 a2 : string) (x2 : ascii) (r2 : string),
    a1 +:+ String x1 r1 = a2 +:+ String x2 r2 ->
    String.length a1 = String.length a2 -> x1 = x2.
Proof.
  induction a1 as [|c a1 IH]; intros x1 r1 a2 x2 r2 Heq Hlen.
  - destruct a2 as [|d a2]; [|cbn in Hlen; lia].
    cbn in Heq. now injection Heq.
  - destruct a2 as [|d a2]; [cbn in Hlen; lia|].
    cbn in Heq, Hlen. injection Heq as <- Heq.
    eapply IH; [exact Heq | lia].
Qed.

(** *** From the first opening to the last closing bracket *)

(** A payload between a text without opening bracket and a text without
    closing bracket is what the two searches cut out. *)
Lemma bracket_slice (pre : string) (o : ascii) (mid : string) (c : ascii) (post : string) :
  is_open o = true -> is_close c = true ->
  all_chars (fun d => negb (is_open d)) pre = true ->
  all_chars (fun d => negb (is_close d)) post = true ->
  let body := String o (mid +:+ String c EmptyString) in
  let text := pre +:+ body +:+ post in
  find_index is_open text = Some (String.length pre) /\
  slice (String.length pre) (Z.max (rfind "]" text) (rfind "}" text) + 1) text = body.
Proof.
  intros Ho Hc Hpre Hpost body text.
  split; [subst text body; cbn [String.append]; now apply find_index_app|].
  assert (Hpost1 : all_chars (fun d => negb (Ascii.eqb "]" d)) post = true).
  { eapply all_chars_impl, Hpost. intros d Hd. unfold is_close in Hd.
    apply negb_true_iff, orb_false_iff in Hd as [Hd _].
    apply negb_true_iff. now rewrite Ascii.eqb_sym. }
  assert (Hpost2 : all_chars (fun d => negb (Ascii.eqb "}" d)) post = true).
  { eapply all_chars_impl, Hpost. intros d Hd. unfold is_close in Hd.
    apply negb_true_iff, orb_false_iff in Hd as [_ Hd].
    apply negb_true_iff. now rewrite Ascii.eqb_sym. }
  set (A := pre +:+ String o mid).
  assert (Htext : text = A +:+ String c post).
  { subst text body A. cbn [String.append]. rewrite !str_app_assoc. cbn [String.append].
    reflexivity. }
  assert (Hmax : Z.max (rfind "]" text) (rfind "}" text) = Z.of_nat (String.length A)).
  { rewrite Htext. destruct (close_cases c Hc) as [-> | ->].
    - rewrite (rfind_app_last "]" A post Hpost1).
      pose proof (rfind_before "}" A (String "]" post)) as Hlt.
      cbn [all_chars] in Hlt. specialize (Hlt Hpost2). lia.
    - rewrite (rfind_app_last "}" A post Hpost2).
      pose proof (rfind_before "]" A (String "}" post)) as Hlt.
      cbn [all_chars] in Hlt. specialize (Hlt Hpost1). lia. }
  rewrite Hmax. unfold slice.
  replace (Z.to_nat (Z.of_nat (String.length A) + 1) - String.length pre)%nat
    with (String.length body).
  - subst text. apply substring_app_exact.
  - subst A body. rewrite str_length_app. cbn [String.length].
    rewrite str_length_app. cbn [String.length]. lia.
Qed.

(** What [json.loads] is given, when it is given more than the empty
    string: a piece of the text from an opening to a closing bracket. *)
Lemma slice_shape (text : string) (start : nat) :
  find_index is_open text = Some start ->
  let s := slice start (Z.max (rfind "]" text) (rfind "}" text) + 1) text in
  s = EmptyString \/
  (occurs_in s text /\
   exists o mid c, s = String o (mid +:+ String c EmptyString) /\
                   is_open o = true /\ is_close c = true).
Proof.
  intros Hstart s.
  apply find_index_Some in Hstart as (pre & o & rest & Htext & Hlen & Hpre & Ho).
  set (q := Z.max (rfind "]" text) (rfind "}" text)) in *.
  destruct (Z_lt_le_dec q (Z.of_nat start)) as [Hlt | Hge].
  { left. subst s. unfold slice.
    replace (Z.to_nat (q + 1) - start)%nat with 0%nat by lia. apply substring_zero. }
  assert (Hq : exists c pre2 post2, is_close c = true /\ text = pre2 +:+ String c post2 /\
                                    Z.of_nat (String.length pre2) = q).
  { pose proof (rfind_ge "]" text). pose proof (rfind_ge "}" text).
    destruct (Z.max_spec (rfind "]" text) (rfind "}" text)) as [[_ Hm] | [_ Hm]];
      fold q in Hm.
    - destruct (rfind_found "}" text ltac:(lia)) as (pre2 & post2 & H2 & Hl2).
      exists "}"%char, pre2, post2. split; [reflexivity|]. split; [exact H2 | lia].
    - destruct (rfind_found "]" text ltac:(lia)) as (pre2 & post2 & H2 & Hl2).
      exists "]"%char, pre2, post2. split; [reflexivity|]. split; [exact H2 | lia]. }
  destruct Hq as (c & pre2 & post2 & Hc & Htext2 & Hlen2).
  assert (Hne : String.length pre <> String.length pre2).
  { intros Heq. rewrite Htext in Htext2.
    pose proof (app_cut_same _ _ _ _ _ _ Htext2 Heq) as <-.
    rewrite (open_not_close o Ho) in Hc. discriminate. }
  rewrite Htext in Htext2.
  destruct (app_cut_inside pre o rest pre2 c post2 Htext2 ltac:(lia))
    as (mid & Hpre2 & Hrest).
  right.
  assert (Hs : s = String o (mid +:+ String c EmptyString)).
  { subst s. unfold slice.
    replace (Z.to_nat (q + 1) - start)%nat
      with (String.length (String o (mid +:+ String c EmptyString))).
    - rewrite Htext, Hrest, <- Hlen.
      change (String o (mid +:+ String c post2))
        with (String o (mid +:+ String c (EmptyString +:+ post2))).
      replace (String o (mid +:+ String c (EmptyString +:+ post2)))
        with (String o (mid +:+ String c EmptyString) +:+ post2)
        by (cbn [String.append]; rewrite str_app_assoc; reflexivity).
      apply substring_app_exact.
    - rewrite <- Hlen2, Hpre2, str_length_app. cbn [String.length].
      rewrite str_length_app. cbn [String.length]. lia. }
  split.
  - rewrite Hs, Htext, Hrest. exists pre, post2.
    cbn [String.append]. rewrite str_app_assoc. reflexivity.
  - now exists o, mid, c.
Qed.

Section Parsed.
Context {J : Type}.
Variable json_loads : string -> option J.
Hypothesis loads_empty : json_loads EmptyString = None.

(** Whatever the parser returns was read from a bracketed piece of the
    text. *)
Lemma parse_Some_shape (t : string) (v : J) :
  _parse_json_block json_loads (Some t) = Some v ->
  exists s o mid c,
    json_loads s = Some v /\ occurs_in s t /\
    s = String o (mid +:+ String c EmptyString) /\ is_open o = true /\ is_close c = true.
Proof.
  unfold _parse_json_block.
  destruct (nonempty t); cbn [negb]; [|discriminate].
  assert (Hpiece : occurs_in (default t (fenced_block t)) t).
  { destruct (fenced_block t) as [g|] eqn:Hg; cbn [default].
    - now apply fenced_block_occurs.
    - apply occurs_in_refl. }
  set (text := default t (fenced_block t)) in *.
  destruct (find_index is_open text) as [start|] eqn:Hstart; [|discriminate].
  intros Hv.
  destruct (slice_shape text start Hstart) as [Hs | (Hocc & o & mid & c & Hs & Ho & Hc)].
  - rewrite Hs, loads_empty in Hv. discriminate.
  - exists (slice start (Z.max (rfind "]" text) (rfind "}" text) + 1) text), o, mid, c.
    split; [exact Hv|]. split; [eapply occurs_in_trans; eassumption|]. auto.
Qed.

End Parsed.

Lemma nonempty_app_cons (a : string) (x : ascii) (b : string) :
  nonempty (a +:+ String x b) = true.
Proof. now destruct a. Qed.

Lemma span_space_stop (ws : string) (o : ascii) (rest : string) :
  all_chars is_space ws = true -> is_space o = false ->
  span is_space (ws +:+ String o rest) = (ws, String o rest).
Proof.
  intros Hws Ho. induction ws as [|c ws IH]; cbn.
  - now rewrite Ho.
  - cbn in Hws. apply andb_true_iff in Hws as [Hc Hws]. now rewrite Hc, (IH Hws).
Qed.

Lemma rstrip_spaces (ws : string) : all_chars is_space ws = true -> rstrip ws = EmptyString.
Proof.
  induction ws as [|c ws IH]; cbn [rstrip all_chars]; [reflexivity|].
  intros [Hc Hws]%andb_true_iff. now rewrite (IH Hws), Hc.
Qed.

Lemma rstrip_keep (a : string) (c : ascii) (ws : string) :
  is_space c = false -> all_chars is_space ws = true ->
  rstrip (a +:+ String c ws) = a +:+ String c EmptyString.
Proof.
  intros Hc Hws. induction a as [|d a IH]; cbn [String.append rstrip].
  - now rewrite (rstrip_spaces ws Hws), Hc.
  - rewrite IH. now destruct a.
Qed.

(** The fenced block of a completion whose fence is well formed. *)
Lemma fenced_block_exact (pre ws : string) (o : ascii) (mid : string) (c : ascii)
      (ws' post : string) :
  let body := String o (mid +:+ String c EmptyString) in
  is_open o = true -> is_close c = true ->
  all_chars (fun d => negb (Ascii.eqb d "`")) pre = true ->
  all_chars (fun d => negb (Ascii.eqb d "`")) body = true ->
  all_chars is_space ws = true ->
  all_chars is_space ws' = true ->
  fenced_block (pre +:+ "```json" +:+ ws +:+ body +:+ ws' +:+ "```" +:+ post) = Some body.
Proof.
  intros body Ho Hc Hpre Hbody Hws Hws'.
  unfold fenced_block.
  change "```json" with (String "`" "``json") at 1.
  rewrite (split_at_first_fresh "`" "``json" pre _ Hpre).
  unfold body at 1. cbn [String.append].
  rewrite (span_space_stop ws o _ Hws (open_not_space o Ho)).
  assert (Hcut : split_at_first "```" (body +:+ ws' +:+ "```" +:+ post)
                 = Some (body +:+ ws', post)).
  { rewrite <- str_app_assoc. change "```" with (String "`" "``").
    apply split_at_first_fresh. rewrite all_chars_app, Hbody. cbn [andb].
    eapply all_chars_impl, Hws'. apply space_not_tick. }
  unfold body in Hcut at 1. cbn [String.append] in Hcut. rewrite Hcut.
  f_equal. unfold body. cbn [String.append]. rewrite str_app_assoc. cbn [String.append].
  change (String o (mid +:+ String c ws')) with (String o mid +:+ String c ws').
  rewrite (rstrip_keep (String o mid) c ws' (close_not_space c Hc) Hws').
  reflexivity.
Qed.

(** A payload on its own is cut out whole. *)
Lemma bracket_slice_whole (o : ascii) (mid : string) (c : ascii) :
  is_open o = true -> is_close c = true ->
  let body := String o (mid +:+ String c EmptyString) in
  find_index is_open body = Some 0%nat /\
  slice 0 (Z.max (rfind "]" body) (rfind "}" body) + 1) body = body.
Proof.
  intros Ho Hc body.
  destruct (bracket_slice EmptyString o mid c EmptyString Ho Hc eq_refl eq_refl)
    as [Hstart Hslice].
  cbn [String.append String.length] in Hstart, Hslice.
  rewrite str_app_nil_r in Hstart, Hslice. now split.
Qed.

End JsonBlockFacts.

(** X23: without brackets there is nothing to parse.  For a [json.loads]
    that rejects the empty string, as it does, the extraction returns
    [None] for a completion that failed, that is empty, that contains no
    "[" and no "{", or that contains no "]" and no "}", with or without
    a fenced block. *)
Theorem parse_json_block_none_without_brackets
        {J : Type} (json_loads : string -> option J) (text : option string) :
  json_loads EmptyString = None ->
  match text with
  | None => True
  | Some t =>
      t = EmptyString \/
      LlmParts.all_chars (fun c => negb (LlmParts.is_open c)) t = true \/
      LlmParts.all_chars (fun c => negb (LlmParts.is_close c)) t = true
  end ->
  LlmParts._parse_json_block json_loads text = None.
Proof.
  intros Hempty Hcase. destruct text as [t|]; [|reflexivity].
  destruct (LlmParts._parse_json_block json_loads (Some t)) as [v|] eqn:Hv; [|reflexivity].
  exfalso.
  destruct Hcase as [-> | Hcase]; [discriminate|].
  apply (parse_Some_shape json_loads Hempty) in Hv
    as (s & o & mid & c & _ & Hocc & -> & Ho & Hc).
  destruct Hcase as [Hno | Hno];
    apply (occurs_in_all_chars _ _ _ Hocc) in Hno; cbn [LlmParts.all_chars] in Hno.
  - rewrite Ho in Hno. discriminate.
  - rewrite all_chars_app in Hno. cbn [LlmParts.all_chars] in Hno.
    rewrite Hc in Hno. cbn in Hno.
    rewrite !andb_false_r in Hno. discriminate.
Qed.

(** Witness for X23: a refusal in prose. *)
Lemma parse_json_block_none_without_brackets_witness :
  LlmParts._parse_json_block Scenario.raw_loads (Some "I cannot help with that.") = None.
Proof.
  apply (parse_json_block_none_without_brackets Scenario.raw_loads
           (Some "I cannot help with that.")).
  - reflexivity.
  - right; left. vm_compute. reflexivity.
Defined.

(** X24: for a [json.loads] that rejects the empty string, whatever the
    extraction returns is what [json.loads] made of one contiguous piece
    of the completion that begins with "[" or "{" and ends with "]" or
    "}". *)
Theorem parse_json_block_reads_bracketed_piece
        {J : Type} (json_loads : string -> option J) (t : string) (v : J) :
  json_loads EmptyString = None ->
  LlmParts._parse_json_block json_loads (Some t) = Some v ->
  exists s o mid c,
    json_loads s = Some v /\ LlmParts.occurs_in s t /\
    s = String o (mid +:+ String c EmptyString) /\
    LlmParts.is_open o = true /\ LlmParts.is_close c = true.
Proof. intros Hempty Hv. exact (parse_Some_shape json_loads Hempty t v Hv). Qed.

(** Witness for X24: a list wrapped in prose. *)
Lemma parse_json_block_reads_bracketed_piece_witness :
  exists s o mid c,
    Scenario.raw_loads s = Some "[1, 2]" /\
    LlmParts.occurs_in s "Sure: [1, 2] ok" /\
    s = String o (mid +:+ String c EmptyString) /\
    LlmParts.is_open o = true /\ LlmParts.is_close c = true.
Proof.
  apply (parse_json_block_reads_bracketed_piece Scenario.raw_loads "Sure: [1, 2] ok").
  - reflexivity.
  - vm_compute. reflexivity.
Defined.

(** X25: a completion without "```json" that consists of a text without
    opening bracket, a payload from an opening to a closing bracket, and
    a text without closing bracket is parsed as [json.loads] of the
    payload alone. *)
Theorem parse_json_block_unfenced_payload
        {J : Type} (json_loads : string -> option J)
        (pre : string) (o : ascii) (mid : string) (c : ascii) (post : string) :
  let body := String o (mid +:+ String c EmptyString) in
  let t := pre +:+ body +:+ post in
  LlmParts.is_open o = true -> LlmParts.is_close c = true ->
  LlmParts.all_chars (fun d => negb (LlmParts.is_open d)) pre = true ->
  LlmParts.all_chars (fun d => negb (LlmParts.is_close d)) post = true ->
  ~ LlmParts.occurs_in "```json" t ->
  LlmParts._parse_json_block json_loads (Some t) = json_loads body.
Proof.
  intros body t Ho Hc Hpre Hpost Hfence.
  unfold LlmParts._parse_json_block.
  assert (Hne : Py.nonempty t = true) by (subst t body; apply nonempty_app_cons).
  rewrite Hne. cbn [negb].
  rewrite (fenced_block_None t Hfence). cbn [default].
  destruct (bracket_slice pre o mid c post Ho Hc Hpre Hpost) as [Hstart Hslice].
  fold body in Hstart, Hslice. fold t in Hstart, Hslice.
  now rewrite Hstart, Hslice.
Qed.

(** Witness for X25: a list wrapped in prose. *)
Lemma parse_json_block_unfenced_payload_witness :
  LlmParts._parse_json_block Scenario.raw_loads (Some "Sure: [1, 2] ok")
  = Scenario.raw_loads "[1, 2]".
Proof.
  apply (parse_json_block_unfenced_payload Scenario.raw_loads "Sure: " "[" "1, 2" "]" " ok").
  - reflexivity.
  - reflexivity.
  - vm_compute. reflexivity.
  - vm_compute. reflexivity.
  - intros H%contains_true_iff. vm_compute in H. discriminate.
Defined.

(** X26: a completion with a fenced block: after a text without backtick,
    "```json", whitespace, a payload without backtick from an opening
    to a closing bracket, whitespace and "```", the result is
    [json.loads] of the payload alone, whatever precedes the fence and
    whatever follows it, brackets included. *)
Theorem parse_json_block_fenced_payload
        {J : Type} (json_loads : string -> option J)
        (pre ws : string) (o : ascii) (mid : string) (c : ascii) (ws' post : string) :
  let body := String o (mid +:+ String c EmptyString) in
  let t := pre +:+ "```json" +:+ ws +:+ body +:+ ws' +:+ "```" +:+ post in
  LlmParts.is_open o = true -> LlmParts.is_close c = true ->
  LlmParts.all_chars (fun d => negb (Ascii.eqb d "`")) pre = true ->
  LlmParts.all_chars (fun d => negb (Ascii.eqb d "`")) body = true ->
  LlmParts.all_chars Py.is_space ws = true ->
  LlmParts.all_chars Py.is_space ws' = true ->
  LlmParts._parse_json_block json_loads (Some t) = json_loads body.
Proof.
  intros body t Ho Hc Hpre Hbody Hws Hws'.
  unfold LlmParts._parse_json_block.
  assert (Hne : Py.nonempty t = true).
  { subst t. rewrite <- (str_app_assoc pre).
    destruct (pre +:+ "```json") eqn:Hp; [now destruct pre | reflexivity]. }
  rewrite Hne. cbn [negb].
  pose proof (fenced_block_exact pre ws o mid c ws' post Ho Hc Hpre Hbody Hws Hws') as Hf.
  destruct (bracket_slice_whole o mid c Ho Hc) as [Hstart Hslice].
  subst t body. cbv zeta in Hf. rewrite Hf. cbn [default]. unfold id.
  now rewrite Hstart, Hslice.
Qed.

(** Witness for X26: a fenced list between prose with brackets of its
    own. *)
Lemma parse_json_block_fenced_payload_witness :
  LlmParts._parse_json_block Scenario.raw_loads
    (Some ("Here you are: " +:+ "```json" +:+ LlmUtils.nl +:+ "[1, 2]" +:+ LlmUtils.nl
           +:+ "```" +:+ " (see [docs] for more)"))
  = Scenario.raw_loads "[1, 2]".
Proof.
  apply (parse_json_block_fenced_payload Scenario.raw_loads
           "Here you are: " LlmUtils.nl "[" "1, 2" "]" LlmUtils.nl " (see [docs] for more)").
  - reflexivity.
  - reflexivity.
  - vm_compute. reflexivity.
  - vm_compute. reflexivity.
  - vm_compute. reflexivity.
  - vm_compute. reflexivity.
Defined.

(** ** The figures of the report *)

Section ReportFigures.
Import Py Model Analyzer.
Local Open Scope Q_scope.

(** Rounding to two decimals moves a number by at most half a cent. *)
Lemma round2_close (x : Q) : x - (1 # 200) <= round2 x <= x + (1 # 200).
Proof.
  unfold round2.
  pose proof (Qfloor_le (x * 100)) as Hlow.
  pose proof (Qlt_floor (x * 100)) as Hhigh.
  rewrite inject_Z_plus in Hhigh. change (inject_Z 1) with 1 in Hhigh.
  set (y := x * 100) in *. set (f := Qfloor y) in *.
  assert (Hn : y - (1 # 2)
               <= inject_Z (match ((y - inject_Z f) * 2 ?= 1)%Q with
                            | Lt => f
                            | Gt => (f + 1)%Z
                            | Eq => if Z.even f then f else (f + 1)%Z
                            end)
               <= y + (1 # 2)).
  { destruct (Qcompare_spec ((y - inject_Z f) * 2) 1) as [He | Hl | Hg].
    - destruct (Z.even f); [|rewrite inject_Z_plus; change (inject_Z 1) with 1];
        split; lra.
    - split; lra.
    - rewrite inject_Z_plus. change (inject_Z 1) with 1. split; lra. }
  unfold Qdiv. change (/ 100) with (1 # 100).
  subst y. destruct Hn. split; lra.
Qed.

Lemma round2_zero : round2 0 == 0.
Proof. vm_compute. reflexivity. Qed.

End ReportFigures.

(** X27: the figures of the report agree with each other up to
    rounding.  The over-budget flag and the rounded variance never
    disagree in sign: a report flagged over budget shows a variance that
    is not negative (it can be 0.0), one that is not flagged shows a
    variance that is not positive; and the displayed total less the
    budget differs from the displayed variance by at most 0.01. *)
Theorem report_flag_agrees_with_variance
        (prompt_fn : Model.Profile -> Q -> Py.num -> list (string * Q) ->
                     gmap string string -> string)
        (llm : nat -> string -> option (LlmUtils.payload Analyzer.Rec))
        (profile : Model.Profile) (billing : list Model.BillingRecord) :
  let a := Analyzer.analysis
             (Analyzer.analyze_costs_and_generate_recommendations prompt_fn llm
                profile billing) in
  (Analyzer.is_over_budget a = true -> (0 <= Analyzer.budget_variance a)%Q) /\
  (Analyzer.is_over_budget a = false -> (Analyzer.budget_variance a <= 0)%Q) /\
  (- (1 # 100)
   <= Analyzer.total_monthly_cost a - Py.to_Q (Analyzer.budget a) - Analyzer.budget_variance a
   <= 1 # 100)%Q.
Proof.
  cbn zeta.
  cbn [Analyzer.analyze_costs_and_generate_recommendations Analyzer.analysis
       Analyzer.is_over_budget Analyzer.budget_variance Analyzer.total_monthly_cost
       Analyzer.budget].
  set (avg := Analyzer.avg_monthly_of (Analyzer.billing_after_sqlite profile billing)).
  set (b := Py.to_Q (default (Py.NInt 0) (Model.budget_inr_per_month profile))).
  split; [|split].
  - intros Hover. apply negb_true_iff in Hover.
    assert (Hpos : (0 <= avg - b)%Q).
    { destruct (Qlt_le_dec (avg - b) 0) as [Hlt | Hge]; [|exact Hge].
      apply Qlt_le_weak, Qle_bool_iff in Hlt. congruence. }
    rewrite <- round2_zero. now apply round2_mono.
  - intros Hunder. apply negb_false_iff, Qle_bool_iff in Hunder.
    rewrite <- round2_zero. now apply round2_mono.
  - pose proof (round2_close avg) as [H1 H2].
    pose proof (round2_close (avg - b)) as [H3 H4].
    split; lra.
Qed.

(** ** The menu loop and the artifacts *)

Section ReadLoop.
Import Py Main.

Lemma nonempty_false (s : string) : nonempty s = false <-> s = EmptyString.
Proof. destruct s; split; intros H; try reflexivity; discriminate. Qed.

(** The line that ends the loop: empty, at the start or after an empty
    line. *)
Lemma ends_loop_iff (lines : list string) (line : string) :
  negb (nonempty line) &&
  (match last lines with
   | None => true
   | Some l => negb (nonempty l)
   end) = true
  <-> line = EmptyString /\ (last lines = None \/ last lines = Some EmptyString).
Proof.
  rewrite andb_true_iff, negb_true_iff, nonempty_false.
  destruct (last lines) as [l|].
  - rewrite negb_true_iff, nonempty_false. split.
    + intros [-> ->]. auto.
    + intros [-> [H | [= ->]]]; [discriminate | auto].
  - split; [intros [-> _]; auto | intros [-> _]; auto].
Qed.

Lemma tidy_snoc (lines : list string) (line : string) :
  tidy lines ->
  ~ (line = EmptyString /\ (last lines = None \/ last lines = Some EmptyString)) ->
  tidy (lines ++ [line]).
Proof.
  intros [Hhead Hpairs] Hgo. split.
  - destruct lines as [|x lines]; [|exact Hhead].
    cbn. intros [= ->]. apply Hgo. auto.
  - intros i Hi HSi.
    destruct (Nat.lt_trichotomy (S i) (length lines)) as [Hlt | [Heq | Hgt]].
    + rewrite lookup_app_l in Hi by lia. rewrite lookup_app_l in HSi by lia.
      exact (Hpairs i Hi HSi).
    + rewrite lookup_app_l in Hi by lia.
      rewrite lookup_app_r in HSi by lia.
      replace (S i - length lines)%nat with 0%nat in HSi by lia.
      cbn in HSi. injection HSi as ->.
      apply Hgo. split; [reflexivity|]. right.
      rewrite last_lookup. now replace (pred (length lines)) with i by lia.
    + rewrite lookup_ge_None_2 in HSi; [discriminate|].
      rewrite length_app. cbn. lia.
Qed.

Lemma read_lines_spec (stdin : list string) :
  forall acc lines rest,
    tidy acc ->
    read_lines stdin acc = Some (lines, rest) ->
    exists new,
      lines = acc ++ new /\ stdin = new ++ EmptyString :: rest /\ tidy lines /\
      (last lines = None \/ last lines = Some EmptyString).
Proof.
  induction stdin as [|line stdin IH]; intros acc lines rest Hacc; [discriminate|].
  cbn [read_lines].
  destruct (negb (nonempty line) &&
            (match last acc with
             | None => true
             | Some l => negb (nonempty l)
             end)) eqn:Hend.
  - apply ends_loop_iff in Hend as [-> Hlast]. intros [= <- <-].
    exists []. rewrite app_nil_r. auto.
  - intros Hrun.
    assert (Hgo : ~ (line = EmptyString /\
                     (last acc = None \/ last acc = Some EmptyString))).
    { intros H. apply ends_loop_iff in H. congruence. }
    destruct (IH _ _ _ (tidy_snoc acc line Hacc Hgo) Hrun) as (new & -> & -> & Ht & Hl).
    exists (line :: new). rewrite <- app_assoc in *. auto.
Qed.

Lemma tidy_nil : tidy [].
Proof. split; [discriminate | intros i Hi; discriminate]. Qed.


End ReadLoop.

Section MainFacts.
Import Py Model LlmUtils Main.
Variable set_order : list string -> list string.
Variable float_of_string : string -> option Q.
Variable profile_prompt : string -> string.
Variable billing_prompt : Profile -> num -> list string -> bool -> string.
Variable analysis_prompt :
  Profile -> Q -> num -> list (string * Q) -> gmap string string -> string.
Variable llm_profile : nat -> string -> option Profile.
Variable llm_billing : nat -> string -> option (payload BillingEngine.RawBilling).
Variable llm_analysis : nat -> nat -> string -> option (payload Analyzer.Rec).
Variable now : nat -> Z * Z.
Variable random_uniform : nat -> string -> Q.
















End MainFacts.

(** X28: the reading loop of run_profile_extraction.  When it ends, it
    has consumed the lines it returns and one more, empty line; the
    lines returned do not begin with an empty line, contain no two empty
    lines in a row, and, unless there is none, end with an empty line:
    a single empty line is kept as a paragraph break, the second of two
    ends the description, and so does an empty first line. *)
Theorem read_lines_until_double_enter (stdin lines rest : list string) :
  Main.read_lines stdin [] = Some (lines, rest) ->
  stdin = lines ++ EmptyString :: rest /\
  Main.tidy lines /\
  (lines = [] \/ last lines = Some EmptyString).
Proof.
  intros H. apply (read_lines_spec _ _ _ _ tidy_nil) in H as (new & -> & -> & Ht & Hl).
  cbn [app] in *. split; [reflexivity | split; [exact Ht|]].
  destruct Hl as [Hl | Hl]; [left | now right].
  destruct new as [|x new _] using rev_ind; [reflexivity|].
  rewrite last_snoc in Hl. discriminate.
Qed.

(** Witness for X28: two paragraphs, then the menu choice. *)
Lemma read_lines_until_double_enter_witness :
  Main.tidy ["Shop on AWS"; ""; "budget Rs. 15000"; ""].
Proof.
  apply (read_lines_until_double_enter
           ["Shop on AWS"; ""; "budget Rs. 15000"; ""; ""; "5"]
           ["Shop on AWS"; ""; "budget Rs. 15000"; ""] ["5"]).
  vm_compute. reflexivity.
Defined.



